(** * cross-game-rpg build script: a shallow embedding and its properties

    The repository's build driver ([build.py]) and its helper package
    ([build_script/]) are embedded here:

    - Python's [str] methods and the [posixpath] functions the helpers call,
    - [build_script/utils.py], [pkg_config_utils.py], [libs/sdl.py],
      [platform/windows.py] and [zig_utils.py],
    - the [asyncio] fan-out of [build.py] ([limit_thread], [gather_tasks],
      [compile_sources]) as a step relation over an event-loop state,
    - the top-level statement sequence of [build.py].

    Coroutines are finite trees of effects; the world they act on holds the
    directories that exist and a log of what was printed and launched. *)

From Stdlib Require Import ZArith Lia Ascii.
From stdpp Require Import base list strings gmap.

Local Open Scope Z_scope.
Local Open Scope nat_scope.

(** ** Python [str] methods used by the scripts *)

Module Py.

(** [s.startswith(sub)] *)
Fixpoint startswith (s sub : string) {struct sub} : bool :=
  match sub, s with
  | EmptyString, _ => true
  | String _ _, EmptyString => false
  | String c sub', String d s' => if decide (c = d) then startswith s' sub' else false
  end.

(** [sub in s] *)
Fixpoint contains (sub s : string) : bool :=
  startswith s sub ||
  match s with
  | EmptyString => false
  | String _ s' => contains sub s'
  end.

(** [s.replace(old, new)]: every non-overlapping occurrence of [old],
    scanning from the left, becomes [new].  [skip] counts the characters of
    an occurrence that was just replaced and are still to be dropped.  With
    an empty [old], Python puts [new] before every character and at the
    end. *)
Fixpoint replace_from (old new s : string) (skip : nat) : string :=
  match s with
  | EmptyString =>
      match skip, old with
      | 0, EmptyString => new
      | _, _ => EmptyString
      end
  | String c s' =>
      match skip with
      | S k => replace_from old new s' k
      | 0 =>
          if startswith s old then
            match String.length old with
            | 0 => new +:+ String c (replace_from old new s' 0)
            | S k => new +:+ replace_from old new s' k
            end
          else String c (replace_from old new s' 0)
      end
  end.

Definition replace (s old new : string) : string := replace_from old new s 0.

(** [s.rsplit(sep, 1)] for a one-character [sep]: the split at the last
    [sep], or [None] when [s] has none (Python then returns [[s]]). *)
Fixpoint rpartition (sep : ascii) (s : string) : option (string * string) :=
  match s with
  | EmptyString => None
  | String c s' =>
      match rpartition sep s' with
      | Some (h, t) => Some (String c h, t)
      | None => if decide (c = sep) then Some (EmptyString, s') else None
      end
  end.

Definition rsplit1 (sep : ascii) (s : string) : list string :=
  match rpartition sep s with
  | Some (h, t) => [h; t]
  | None => [s]
  end.

(** [s.split(sep)] for a one-character [sep]; never empty. *)
Fixpoint split (sep : ascii) (s : string) : list string :=
  match s with
  | EmptyString => [EmptyString]
  | String c s' =>
      if decide (c = sep) then EmptyString :: split sep s'
      else
        match split sep s' with
        | w :: ws => String c w :: ws
        | [] => [String c EmptyString]
        end
  end.

(** [s.split()]: the maximal runs of non-whitespace characters. *)
Fixpoint split_ws_from (s : string) (cur : option string) : list string :=
  match s with
  | EmptyString => match cur with Some w => [w] | None => [] end
  | String c s' =>
      if Ascii.is_space c then
        match cur with
        | Some w => w :: split_ws_from s' None
        | None => split_ws_from s' None
        end
      else
        match cur with
        | Some w => split_ws_from s' (Some (w +:+ String c EmptyString))
        | None => split_ws_from s' (Some (String c EmptyString))
        end
  end.

Definition split_ws (s : string) : list string := split_ws_from s None.

(** [sep.join(l)] *)
Fixpoint join (sep : string) (l : list string) : string :=
  match l with
  | [] => EmptyString
  | [w] => w
  | w :: ws => w +:+ sep +:+ join sep ws
  end.

(** [s.endswith(c)] for one character. *)
Fixpoint endswith_char (s : string) (c : ascii) : bool :=
  match s with
  | EmptyString => false
  | String d EmptyString => bool_decide (d = c)
  | String _ s' => endswith_char s' c
  end.

(** [s.rstrip(c)] for one character. *)
Fixpoint rstrip_char (c : ascii) (s : string) : string :=
  match s with
  | EmptyString => EmptyString
  | String d s' =>
      match rstrip_char c s' with
      | EmptyString => if decide (d = c) then EmptyString else String d EmptyString
      | r => String d r
      end
  end.

(** [l[0]] on a list known to be non-empty; the default is never used by
    the callers below. *)
Definition item0 (l : list string) : string := hd EmptyString l.

End Py.


(** ** Exceptions, the world, and synchronous code *)

Inductive exn : Type :=
  | RuntimeError (msg : string)
  | ValueError (msg : string)
  | NameError (name : string)
  | AttributeError (msg : string)
  | FileNotFoundError (path : string)
  | FileExistsError (path : string)
  | CalledProcessError (returncode : Z) (cmd : list string)
  | CancelledError.

Inductive result (A : Type) : Type :=
  | Ok (a : A)
  | Err (e : exn).
Arguments Ok {A} a.
Arguments Err {A} e.

Definition is_ok {A} (r : result A) : bool :=
  match r with Ok _ => true | Err _ => false end.

(** Who performs an effect: the main script, or the [i]-th coroutine handed
    to [asyncio.gather]. *)
Inductive actor : Type :=
  | Main
  | Task (i : nat).

Inductive effect : Type :=
  | Print (line : string)                       (* print(...) *)
  | Spawn (cmd : list string) (piped : bool)    (* a child process is launched *)
  | Acquire                                     (* the semaphore permit is taken *)
  | Release.                                    (* the semaphore permit is given back *)

#[global] Instance exn_eq_dec : EqDecision exn.
Proof. solve_decision. Defined.
#[global] Instance actor_eq_dec : EqDecision actor.
Proof. solve_decision. Defined.
#[global] Instance effect_eq_dec : EqDecision effect.
Proof. solve_decision. Defined.

(** The world: the directories that exist (regular files are not tracked),
    and the log of effects, oldest first. *)
Record world : Type := World {
  dirs : gset string;
  log : list (actor * effect)
}.

Definition emit (who : actor) (e : effect) (w : world) : world :=
  {| dirs := dirs w; log := log w ++ [(who, e)] |}.

(** How one command line behaves when it is run: whether the executable is
    found at all, the exit code and the text it writes, and whether the child
    has already been reaped when [create_subprocess_exec] returns to its
    caller ([Process.returncode] is [None] until then). *)
Record behaviour : Type := Behaviour {
  found : bool;
  exit_code : Z;
  stdout_text : string;
  stderr_text : string;
  reaped_at_spawn : bool
}.

(** The host the script runs on. *)
Record host : Type := Host {
  getcwd : string;                      (* os.getcwd() *)
  os_name : string;                     (* os.name *)
  uname_sysname : string;               (* os.uname().sysname *)
  cpu_count : nat;                      (* os.cpu_count() *)
  glob : string -> list string;         (* glob.glob(pattern, recursive=True) *)
  run : list string -> behaviour        (* what each command line does *)
}.

(** Synchronous code: a state-and-exception monad over the world.  The
    effects made before an exception is raised stay. *)
Definition M (A : Type) : Type := world -> result A * world.

Definition ret {A} (a : A) : M A := fun w => (Ok a, w).
Definition raise {A} (e : exn) : M A := fun w => (Err e, w).
Definition bind {A B} (m : M A) (k : A -> M B) : M B :=
  fun w => match m w with
           | (Ok a, w') => k a w'
           | (Err e, w') => (Err e, w')
           end.
Definition print (who : actor) (line : string) : M unit :=
  fun w => (Ok tt, emit who (Print line) w).

Notation "'let*' x ':=' m 'in' k" := (bind m (fun x => k))
  (at level 10, x name, m at level 100, k at level 200).
Notation "m ';;;' k" := (bind m (fun _ => k))
  (at level 100, k at level 200, right associativity).

(** [for x in l: acc.append(f(x))] *)
Fixpoint mapM {A B} (f : A -> M B) (l : list A) : M (list B) :=
  match l with
  | [] => ret []
  | x :: l' => let* y := f x in let* ys := mapM f l' in ret (y :: ys)
  end.

(** ** [posixpath] *)

Module posixpath.

Definition isabs (s : string) : bool := Py.startswith s "/".

(** [os.path.join(a, b)] *)
Definition join (a b : string) : string :=
  if Py.startswith b "/" then b
  else if bool_decide (a = "") || Py.endswith_char a "/" then a +:+ b
  else a +:+ "/" +:+ b.

(** [os.path.join(a, *p)] *)
Definition join_all (a : string) (p : list string) : string := foldl join a p.

(** One round of the loop of [normpath] over the components. *)
Definition norm_step (initial_slashes : nat) (new_comps : list string) (comp : string)
  : list string :=
  if bool_decide (comp = "") || bool_decide (comp = ".") then new_comps
  else if bool_decide (comp ≠ "..")
          || (bool_decide (initial_slashes = 0) && bool_decide (new_comps = []))
          || bool_decide (last new_comps = Some "..")
       then new_comps ++ [comp]
       else removelast new_comps.

Definition initial_slashes (path : string) : nat :=
  if Py.startswith path "/" then
    if Py.startswith path "//" && negb (Py.startswith path "///") then 2 else 1
  else 0.

Definition slashes (n : nat) : string :=
  Nat.iter n (String "/") "".

Definition normpath (path : string) : string :=
  if bool_decide (path = "") then "."
  else
    let n := initial_slashes path in
    let comps := foldl (norm_step n) [] (Py.split "/" path) in
    let p := slashes n +:+ Py.join "/" comps in
    if bool_decide (p = "") then "." else p.

Definition abspath (cwd path : string) : string :=
  normpath (if isabs path then path else join cwd path).

(** [genericpath.commonprefix] on two component lists. *)
Fixpoint commonprefix (l1 l2 : list string) : list string :=
  match l1, l2 with
  | x :: l1', y :: l2' => if decide (x = y) then x :: commonprefix l1' l2' else []
  | _, _ => []
  end.

Definition nonempty (s : string) : bool := negb (bool_decide (s = "")).

(** [os.path.relpath(path, start)] *)
Definition relpath (cwd path start : string) : result string :=
  if bool_decide (path = "") then Err (ValueError "no path specified")
  else
    let start_list := filter (fun x => nonempty x = true) (Py.split "/" (abspath cwd start)) in
    let path_list := filter (fun x => nonempty x = true) (Py.split "/" (abspath cwd path)) in
    let i := length (commonprefix start_list path_list) in
    let rel_list := replicate (length start_list - i) ".." ++ drop i path_list in
    match rel_list with
    | [] => Ok "."
    | c :: cs => Ok (join_all c cs)
    end.

(** [os.path.dirname(p)] *)
Definition dirname (p : string) : string :=
  let head := match Py.rpartition "/" p with
              | Some (h, _) => h +:+ "/"
              | None => ""
              end in
  match Py.rstrip_char "/" head with
  | EmptyString => head            (* empty, or slashes only *)
  | stripped => stripped
  end.

End posixpath.

(** ** Directories *)

Module os.

Fixpoint inits1 (l : list string) : list (list string) :=
  match l with
  | [] => []
  | x :: l' => [x] :: map (cons x) (inits1 l')
  end.

(** The directory [name] and the directories above it, as [makedirs] names
    them. *)
Definition ancestors (name : string) : list string :=
  filter (fun d => posixpath.nonempty d = true)
         (map (Py.join "/") (inits1 (Py.split "/" name))).

Definition exists_ (path : string) : M bool :=
  fun w => (Ok (bool_decide (path ∈ dirs w)), w).

(** [os.makedirs(name, exist_ok=...)]: the leaf and every missing directory
    above it are created; an existing leaf is an error unless [exist_ok]. *)
Definition makedirs (name : string) (exist_ok : bool) : M unit :=
  fun w =>
    if bool_decide (name = "") then (Err (FileNotFoundError name), w)
    else if bool_decide (name ∈ dirs w) && negb exist_ok then (Err (FileExistsError name), w)
    else (Ok tt, {| dirs := dirs w ∪ list_to_set (ancestors name); log := log w |}).

(** [shutil.rmtree(dir)]: [dir] and what is below it are gone. *)
Definition rmtree (dir : string) : M unit :=
  fun w =>
    (Ok tt, {| dirs := filter (fun d => d ≠ dir ∧ Py.startswith d (dir +:+ "/") = false) (dirs w);
               log := log w |}).

End os.

(** ** [build_script/utils.py] *)

Module utils.

Definition ensure_dir (dir : string) : M unit :=
  let* present := os.exists_ dir in
  (if present : bool then os.rmtree dir else ret tt) ;;;
  os.makedirs dir false.

Definition lift {A} (r : result A) : M A := fun w => (r, w).

Definition translate_to_build_path (cwd file_path source_dir build_dir : string) : M string :=
  let* relative_path := lift (posixpath.relpath cwd file_path source_dir) in
  let relative_path := Py.replace relative_path "\" "/" in
  let relative_path := Py.item0 (Py.rsplit1 "." relative_path) +:+ ".o" in
  let build_path := posixpath.join build_dir relative_path in
  os.makedirs (posixpath.dirname build_path) true ;;;
  ret build_path.

Definition translate_to_build_path_zig (cwd file_path source_dir build_dir : string) : M string :=
  let* relative_path := lift (posixpath.relpath cwd file_path source_dir) in
  let relative_path := Py.replace relative_path "\" "/" in
  let relative_path := Py.item0 (Py.rsplit1 "." relative_path) in
  let build_path := posixpath.join build_dir relative_path in
  os.makedirs (posixpath.dirname build_path) true ;;;
  ret build_path.

End utils.

(** ** [subprocess.run] *)

Module subprocess.

Record CompletedProcess : Type := Completed {
  cp_returncode : Z;
  cp_stdout : string
}.

(** [subprocess.run(cmd, check=True, ...)]: blocks until the child exits.
    A missing executable raises [FileNotFoundError]; a non-zero exit status
    raises [CalledProcessError]. *)
Definition run_check (h : host) (who : actor) (cmd : list string) (capture_output : bool)
  : M CompletedProcess :=
  fun w =>
    let w' := emit who (Spawn cmd capture_output) w in
    let b := run h cmd in
    if negb (found b) then (Err (FileNotFoundError (Py.item0 cmd)), w')
    else if bool_decide (exit_code b ≠ 0%Z) then (Err (CalledProcessError (exit_code b) cmd), w')
    else (Ok (Completed (exit_code b) (if capture_output then stdout_text b else "")), w').

(** [try: body  except subprocess.CalledProcessError: handler] *)
Definition except_CalledProcessError {A} (body : M A) (handler : M A) : M A :=
  fun w => match body w with
           | (Err (CalledProcessError _ _), w') => handler w'
           | other => other
           end.

End subprocess.

(** ** [build_script/pkg_config_utils.py] *)

Module pkg_config_utils.

Definition pkg_config_exists (h : host) (package_name : string) : M bool :=
  subprocess.except_CalledProcessError
    (subprocess.run_check h Main ["pkg-config"; "--exists"; package_name] false ;;;
     ret true)
    (ret false).

Definition get_pkg_config_cflags (h : host) (package_name : string) : M (list string) :=
  subprocess.except_CalledProcessError
    (let* result := subprocess.run_check h Main
                      ["pkg-config"; "--cflags"; "--libs"; package_name] true in
     ret (Py.split_ws (subprocess.cp_stdout result)))
    (ret []).


End pkg_config_utils.

(** ** [build_script/libs/sdl.py] *)

Module sdl.

Definition init_sdl2 (h : host) : M (list string) :=
  let* present := pkg_config_utils.pkg_config_exists h "sdl2" in
  if negb present then
    raise (RuntimeError "SDL2 not found via pkg-config. Please install SDL2 development files.")
  else
    let* cflags := pkg_config_utils.get_pkg_config_cflags h "sdl2" in
    ret cflags.

End sdl.

(** ** Coroutines

    An [async def] body is a finite tree: synchronous effects, and the
    [await]s at which it is suspended until the event loop wakes it. *)

Record Process : Type := Proc {
  p_cmd : list string;
  p_piped : bool;            (* stdout=PIPE, stderr=PIPE *)
  returncode : option Z      (* None until the exit status has been collected *)
}.

Inductive stream : Type := Stdout | Stderr.

Inductive coro (A : Type) : Type :=
  | Ret (a : A)                                                   (* return a *)
  | Raise (e : exn)                                               (* raise e *)
  | Say (line : string) (k : coro A)                              (* print(line) *)
  | Call (m : M string) (k : string -> coro A)                    (* a synchronous helper call *)
  | Exec (cmd : list string) (piped : bool) (k : Process -> coro A)
                                   (* await create_subprocess_exec of the words of cmd *)
  | Wait (p : Process) (k : Process -> coro A)                    (* await p.wait() *)
  | Read (p : Process) (s : stream) (k : string -> coro A).       (* await p.<s>.read() *)
Arguments Ret {A} a.
Arguments Raise {A} e.
Arguments Say {A} line k.
Arguments Call {A} m k.
Arguments Exec {A} cmd piped k.
Arguments Wait {A} p k.
Arguments Read {A} p s k.

(** A coroutine suspended at an [await]. *)
Inductive paused (A : Type) : Type :=
  | PExec (cmd : list string) (piped : bool) (k : Process -> coro A)
  | PWait (p : Process) (k : Process -> coro A)
  | PRead (p : Process) (s : stream) (k : string -> coro A).
Arguments PExec {A} cmd piped k.
Arguments PWait {A} p k.
Arguments PRead {A} p s k.

Inductive progress (A : Type) : Type :=
  | Finished (r : result A)
  | Suspended (s : paused A).
Arguments Finished {A} r.
Arguments Suspended {A} s.

Section Running.
Context {A : Type} (h : host) (who : actor).

(** Run a coroutine up to its next [await] (or to its end).  The child of
    [create_subprocess_exec] is launched before the coroutine is
    suspended; a missing executable raises at once. *)
Fixpoint advance (c : coro A) (w : world) : progress A * world :=
  match c with
  | Ret a => (Finished (Ok a), w)
  | Raise e => (Finished (Err e), w)
  | Say line k => advance k (emit who (Print line) w)
  | Call m k =>
      match m w with
      | (Ok v, w') => advance (k v) w'
      | (Err e, w') => (Finished (Err e), w')
      end
  | Exec cmd piped k =>
      let w' := emit who (Spawn cmd piped) w in
      if found (run h cmd) then (Suspended (PExec cmd piped k), w')
      else (Finished (Err (FileNotFoundError (Py.item0 cmd))), w')
  | Wait p k => (Suspended (PWait p k), w)
  | Read p s k =>
      if p_piped p then (Suspended (PRead p s k), w)
      else (Finished (Err (AttributeError "'NoneType' object has no attribute 'read'")), w)
  end.

(** What the awaited operation delivers when the coroutine is woken. *)
Definition wake (s : paused A) : coro A :=
  match s with
  | PExec cmd piped k =>
      let b := run h cmd in
      k {| p_cmd := cmd; p_piped := piped;
           returncode := if reaped_at_spawn b then Some (exit_code b) else None |}
  | PWait p k =>
      k {| p_cmd := p_cmd p; p_piped := p_piped p;
           returncode := Some (exit_code (run h (p_cmd p))) |}
  | PRead p s k =>
      let b := run h (p_cmd p) in
      k (match s with Stdout => stdout_text b | Stderr => stderr_text b end)
  end.

(** [asyncio.run(c)] for a coroutine that is alone on the loop: every
    [await] is followed to its end. *)
Fixpoint run_alone (c : coro A) (w : world) : result A * world :=
  match c with
  | Ret a => (Ok a, w)
  | Raise e => (Err e, w)
  | Say line k => run_alone k (emit who (Print line) w)
  | Call m k =>
      match m w with
      | (Ok v, w') => run_alone (k v) w'
      | (Err e, w') => (Err e, w')
      end
  | Exec cmd piped k =>
      let w' := emit who (Spawn cmd piped) w in
      if found (run h cmd) then run_alone (wake (PExec cmd piped k)) w'
      else (Err (FileNotFoundError (Py.item0 cmd)), w')
  | Wait p k => run_alone (wake (PWait p k)) w
  | Read p s k =>
      if p_piped p then run_alone (wake (PRead p s k)) w
      else (Err (AttributeError "'NoneType' object has no attribute 'read'"), w)
  end.

End Running.

(** ** [build_script/zig_utils.py] *)

Module zig_utils.

Definition c_compiler : list string := ["zig"; "cc"].
Definition cxx_compiler : list string := ["zig"; "c++"].
Definition zig_compiler : list string := ["zig"; "build-obj"].
Definition zig_compile_executable : list string := ["zig"; "build-exe"].

Definition DEBUG : string := "Debug".
Definition RELEASE_SAFE : string := "ReleaseSafe".
Definition RELEASE_FAST : string := "ReleaseFast".
Definition RELEASE_SMALL : string := "ReleaseSmall".

(** [if output_file is None: output_file = utils.translate_to_build_path(file_path, "src", "build")] *)
Definition or_default (h : host) (file_path : string) (output_file : option string)
    (k : string -> coro string) : coro string :=
  match output_file with
  | None => Call (utils.translate_to_build_path (getcwd h) file_path "src" "build") k
  | Some o => k o
  end.

(** [res.returncode != 0]; [None != 0] holds in Python. *)
Definition returncode_nonzero (res : Process) : bool :=
  bool_decide (returncode res ≠ Some 0%Z).

Definition compile_source_c_cpp_async (h : host) (file_path : string) (compiler : list string)
    (output_file : option string) (option : list string) : coro string :=
  or_default h file_path output_file (fun output_file =>
  Say (Py.join " " ["Compile:"; file_path; "->"; output_file]) (
  let command := compiler ++ option ++ [file_path; "-o"; output_file] in
  Exec command false (fun res =>
  if returncode_nonzero res then
    Raise (RuntimeError ("Compilation failed for " +:+ file_path))
  else Ret output_file))).

Definition compile_c_source_async (h : host) (file_path : string)
    (output_file : option string) (option : list string) : coro string :=
  compile_source_c_cpp_async h file_path c_compiler output_file option.

Definition compile_cpp_source_async (h : host) (file_path : string)
    (output_file : option string) (option : list string) : coro string :=
  compile_source_c_cpp_async h file_path cxx_compiler output_file option.

(** The child is started in [os.path.realpath(".")], the directory the
    script itself runs in. *)
Definition compile_zig_source_async (h : host) (file_path : string)
    (output_file : option string) (option : list string) : coro string :=
  or_default h file_path output_file (fun output_file =>
  Say (Py.join " " ["Compile:"; file_path; "->"; output_file +:+ ".o"]) (
  let command := zig_compiler ++ option ++ [file_path; "-femit-bin=" +:+ output_file] in
  Exec command true (fun res =>
  Wait res (fun res =>
  if returncode_nonzero res then
    Read res Stdout (fun out =>
    Read res Stderr (fun err =>
    Say out (
    Say err (
    Say (Py.join " " command) (
    Raise (RuntimeError ("Compilation failed for " +:+ file_path)))))))
  else Ret (output_file +:+ ".o"))))).

Definition link_command (object_files : list string) (output_executable : string)
    (option : list string) : list string :=
  zig_compile_executable ++ ["-femit-bin=" +:+ output_executable] ++ object_files ++ option.

Definition link_executable_async (object_files : list string) (output_executable : string)
    (option : list string) : coro string :=
  let command := link_command object_files output_executable option in
  Say (Py.join " " ["Compile:"; Py.join " + " object_files; "->"; output_executable]) (
  Exec command true (fun res =>
  Wait res (fun res =>
  if returncode_nonzero res then
    Read res Stdout (fun out =>
    Read res Stderr (fun err =>
    Say out (
    Say err (
    Say (Py.join " " command) (
    Raise (RuntimeError ("Linking failed for " +:+ output_executable)))))))
  else Ret output_executable))).

Definition link_executable (h : host) (object_files : list string) (output_executable : string)
    (option : list string) : M string :=
  run_alone h Main (link_executable_async object_files output_executable option).

End zig_utils.

(** ** [build_script/platform/windows.py] *)

Module windows.

Definition flags (mode target : string) : list string :=
  let opt := if bool_decide (mode = "debug") then ["-O"; zig_utils.DEBUG]
             else ["-O"; zig_utils.RELEASE_SAFE] in
  let opt := opt ++ ["-target"; target] in
  let opt := opt ++ ["-ladvapi32"; "-lkernel32"; "-lntdll"; "-luser32"; "-lshell32"] in
  opt.

End windows.

(** ** [build.py] *)

Module build.

(** The parsed command line. *)
Record args : Type := Args {
  build_dir : string;
  source_dir : string;
  target : string;
  mode : string;
  output : string
}.

(** [build_script/platform/linux.py] and [macos.py] are not part of the
    sources at hand; their [flags] functions are taken as given. *)
Record platforms : Type := Platforms {
  linux_flags : string -> string -> list string;
  macos_flags : string -> string -> list string
}.

Definition is_target_windows (h : host) (a : args) : bool :=
  Py.contains "windows" (target a)
  || (bool_decide (target a = "native") && bool_decide (os_name h = "nt")).

(** The [if]/[elif] chain that imports the platform module; [None] when
    no branch is taken and the name [platform] stays unbound. *)
Definition select_platform (h : host) (pf : platforms) (a : args)
  : option (string -> string -> list string) :=
  if Py.contains "linux" (target a)
     || (bool_decide (target a = "native") && bool_decide (os_name h = "posix")
         && bool_decide (uname_sysname h = "Linux"))
  then Some (linux_flags pf)
  else if Py.contains "macos" (target a)
     || (bool_decide (target a = "native") && bool_decide (os_name h = "posix")
         && bool_decide (uname_sysname h = "Darwin"))
  then Some (macos_flags pf)
  else if Py.contains "windows" (target a)
     || (bool_decide (target a = "native") && bool_decide (os_name h = "nt"))
  then Some windows.flags
  else None.

(** *** The event loop of [compile_sources]

    [limit_thread(sem, fun, ...)] is [async with semaphore: return await
    fun(...)].  A task is first queued at the [async with]; once it has the
    permit it runs the body from [await] to [await]; leaving the block,
    by [return], by an exception of the body or by a [CancelledError]
    thrown in at the [await], gives the permit back. *)
Inductive task_state : Type :=
  | Queued (body : coro string)      (* at [async with], without the permit *)
  | Holding (s : paused string)      (* inside the block, at an [await] of the body *)
  | Done (r : result string)         (* the coroutine has returned or raised *)
  | Cancelled (inside : bool).       (* cancelled, inside the block or still queued *)

Definition limit_thread (body : coro string) : task_state := Queued body.

(** [Gathering]: the future of [asyncio.gather] is pending.  [Failing e]: a
    task has raised [e], the future holds it, [gather_tasks] has not been
    woken yet.  [Cancelling e]: [asyncio.run] is cancelling what is left.
    [Closed r]: [asyncio.run] has returned or raised. *)
Inductive phase : Type :=
  | Gathering
  | Failing (e : exn)
  | Cancelling (e : exn)
  | Closed (r : result (list string)).

Record loop : Type := Loop {
  sem : nat;                         (* the value of the semaphore *)
  tasks : list task_state;
  ph : phase;
  lw : world
}.

Definition is_queued (t : task_state) : bool :=
  match t with Queued _ => true | _ => false end.
Definition is_holding (t : task_state) : bool :=
  match t with Holding _ => true | _ => false end.
Definition is_done_ok (t : task_state) : bool :=
  match t with Done (Ok _) => true | _ => false end.
Definition is_live (t : task_state) : bool := is_queued t || is_holding t.

Definition accepting (p : phase) : bool :=
  match p with Gathering | Failing _ => true | _ => false end.

(** The done-callback of [gather] (with [return_exceptions=False]): the
    first exception of a child is set on the pending outer future. *)
Definition note (r : result string) (p : phase) : phase :=
  match r, p with
  | Err e, Gathering => Failing e
  | _, _ => p
  end.

(** Task [i], holding the permit while the semaphore has value [n], has
    been run up to [pr]. *)
Definition settle (i : nat) (pr : progress string * world) (n : nat) (l : loop) : loop :=
  match pr with
  | (Suspended s, w) =>
      {| sem := n; tasks := <[i := Holding s]> (tasks l); ph := ph l; lw := w |}
  | (Finished r, w) =>
      {| sem := S n; tasks := <[i := Done r]> (tasks l); ph := note r (ph l);
         lw := emit (Task i) Release w |}
  end.

(** The results in the order of the awaitables given to [gather]. *)
Definition results (ts : list task_state) : list string :=
  omap (fun t => match t with Done (Ok a) => Some a | _ => None end) ts.

Inductive action : Type :=
  | Admit (i : nat)       (* the longest-queued task gets the permit and starts its body *)
  | Resume (i : nat)      (* the [await] task [i] is suspended at completes *)
  | GatherResult          (* every child is done: [gather] returns the list *)
  | MainRaise             (* [gather_tasks] is woken with the exception; [asyncio.run] cancels *)
  | Cancel (i : nat)      (* [CancelledError] is thrown into task [i] *)
  | Close.                (* nothing is left to cancel: [asyncio.run] raises *)

Definition fire (h : host) (a : action) (l : loop) : option loop :=
  match a with
  | Admit i =>
      match tasks l !! i, sem l with
      | Some (Queued body), S n =>
          if accepting (ph l)
             && bool_decide (fst <$> list_find (fun t => is_queued t = true) (tasks l) = Some i)
          then Some (settle i (advance h (Task i) body (emit (Task i) Acquire (lw l))) n l)
          else None
      | _, _ => None
      end
  | Resume i =>
      match tasks l !! i with
      | Some (Holding s) =>
          if accepting (ph l)
          then Some (settle i (advance h (Task i) (wake h s) (lw l)) (sem l) l)
          else None
      | _ => None
      end
  | GatherResult =>
      match ph l with
      | Gathering =>
          if forallb is_done_ok (tasks l)
          then Some {| sem := sem l; tasks := tasks l; ph := Closed (Ok (results (tasks l)));
                       lw := lw l |}
          else None
      | _ => None
      end
  | MainRaise =>
      match ph l with
      | Failing e => Some {| sem := sem l; tasks := tasks l; ph := Cancelling e; lw := lw l |}
      | _ => None
      end
  | Cancel i =>
      match ph l, tasks l !! i with
      | Cancelling _, Some (Queued _) =>
          Some {| sem := sem l; tasks := <[i := Cancelled false]> (tasks l); ph := ph l;
                  lw := lw l |}
      | Cancelling _, Some (Holding _) =>
          Some {| sem := S (sem l); tasks := <[i := Cancelled true]> (tasks l); ph := ph l;
                  lw := emit (Task i) Release (lw l) |}
      | _, _ => None
      end
  | Close =>
      match ph l with
      | Cancelling e =>
          if forallb (fun t => negb (is_live t)) (tasks l)
          then Some {| sem := sem l; tasks := tasks l; ph := Closed (Err e); lw := lw l |}
          else None
      | _ => None
      end
  end.

Definition step (h : host) (l l' : loop) : Prop := exists a, fire h a l = Some l'.

(** Zero or more steps of the loop. *)
Inductive steps (h : host) : loop -> loop -> Prop :=
  | steps_refl l : steps h l l
  | steps_step l1 l2 l3 : steps h l1 l2 -> step h l2 l3 -> steps h l1 l3.

(** A schedule given action by action; [None] if one of them is not
    enabled when its turn comes. *)
Fixpoint play (h : host) (acts : list action) (l : loop) : option loop :=
  match acts with
  | [] => Some l
  | a :: acts' =>
      match fire h a l with
      | Some l' => play h acts' l'
      | None => None
      end
  end.

(** [sem = asyncio.Semaphore(os.cpu_count())], and every coroutine of
    [tasks] wrapped and handed to [gather]. *)
Definition start (h : host) (bodies : list (coro string)) (w : world) : loop :=
  {| sem := cpu_count h; tasks := map limit_thread bodies; ph := Gathering; lw := w |}.

(** The three [for] loops of [compile_sources]: the output path of each
    file is computed (and its directory made) when the coroutine object is
    created, before the loop runs. *)
Definition zig_task (h : host) (a : args) (opt : list string) (file : string) : M (coro string) :=
  let* out := utils.translate_to_build_path_zig (getcwd h) file (source_dir a) (build_dir a) in
  ret (zig_utils.compile_zig_source_async h file (Some out) opt).
Definition c_task (h : host) (a : args) (opt : list string) (file : string) : M (coro string) :=
  let* out := utils.translate_to_build_path (getcwd h) file (source_dir a) (build_dir a) in
  ret (zig_utils.compile_c_source_async h file (Some out) opt).
Definition cpp_task (h : host) (a : args) (opt : list string) (file : string) : M (coro string) :=
  let* out := utils.translate_to_build_path (getcwd h) file (source_dir a) (build_dir a) in
  ret (zig_utils.compile_cpp_source_async h file (Some out) opt).

Definition compile_sources_tasks (h : host) (a : args)
    (zig_files c_files cpp_files opt : list string) : M (list (coro string)) :=
  let* zs := mapM (zig_task h a opt) zig_files in
  let* cs := mapM (c_task h a opt) c_files in
  let* ps := mapM (cpp_task h a opt) cpp_files in
  ret (zs ++ cs ++ ps).

(** [compile_sources(...)] returns or raises [r] and leaves the world [w']. *)
Inductive compile_sources (h : host) (a : args) (zig_files c_files cpp_files opt : list string)
    (w : world) : result (list string) * world -> Prop :=
  | cs_no_loop e w' :
      compile_sources_tasks h a zig_files c_files cpp_files opt w = (Err e, w') ->
      compile_sources h a zig_files c_files cpp_files opt w (Err e, w')
  | cs_loop bodies w' l r :
      compile_sources_tasks h a zig_files c_files cpp_files opt w = (Ok bodies, w') ->
      steps h (start h bodies w') l ->
      ph l = Closed r ->
      compile_sources h a zig_files c_files cpp_files opt w (r, lw l).

(** *** The statements of the script, in order *)

Definition zig_files (a : args) : list string := [posixpath.join (source_dir a) "main.zig"].
Definition c_files (h : host) (a : args) : list string :=
  glob h (posixpath.join (source_dir a) "**/*.c").
Definition cpp_files (h : host) (a : args) : list string :=
  glob h (posixpath.join (source_dir a) "**/*.cpp").

(** Lines 28 to 47: up to [opt += sdl.init_sdl2()]. *)
Definition configure (h : host) (pf : platforms) (a : args) : M (list string) :=
  utils.ensure_dir (build_dir a) ;;;
  match select_platform h pf a with
  | None => raise (NameError "platform")
  | Some flags =>
      let opt := flags (mode a) (target a) in
      let* found_flags := sdl.init_sdl2 h in
      ret (opt ++ found_flags)
  end.

(** Lines 68 to 71: the renaming for Windows targets and the link. *)
Definition rename_windows (list_object : list string) : list string :=
  map (fun obj => Py.replace obj ".o" ".obj") list_object.

Definition link (h : host) (a : args) (list_object opt : list string) : M string :=
  let output := posixpath.join (build_dir a) (output a) in
  if is_target_windows h a then
    zig_utils.link_executable h (rename_windows list_object) (output +:+ ".exe") opt
  else
    zig_utils.link_executable h list_object output opt.

(** The whole script, started in world [w]. *)
Inductive script (h : host) (pf : platforms) (a : args) (w : world)
    : result string * world -> Prop :=
  | script_unconfigured e w1 :
      configure h pf a w = (Err e, w1) ->
      script h pf a w (Err e, w1)
  | script_uncompiled opt w1 e w2 :
      configure h pf a w = (Ok opt, w1) ->
      compile_sources h a (zig_files a) (c_files h a) (cpp_files h a) opt w1 (Err e, w2) ->
      script h pf a w (Err e, w2)
  | script_linked opt w1 list_object w2 :
      configure h pf a w = (Ok opt, w1) ->
      compile_sources h a (zig_files a) (c_files h a) (cpp_files h a) opt w1 (Ok list_object, w2) ->
      script h pf a w (link h a list_object opt w2).

End build.

(** ** The shape of a compile coroutine

    [before_exec cmd piped v c]: [c] prints, then launches [cmd] once;
    [after_exec v c]: from here on [c] launches nothing, and if it returns,
    it returns [v]. *)

Inductive after_exec (v : string) : coro string -> Prop :=
  | ae_ret : after_exec v (Ret v)
  | ae_raise e : after_exec v (Raise e)
  | ae_say line k : after_exec v k -> after_exec v (Say line k)
  | ae_wait p k : (forall p', after_exec v (k p')) -> after_exec v (Wait p k)
  | ae_read p s k : (forall t, after_exec v (k t)) -> after_exec v (Read p s k).

Inductive before_exec (cmd : list string) (piped : bool) (v : string) : coro string -> Prop :=
  | be_say line k : before_exec cmd piped v k -> before_exec cmd piped v (Say line k)
  | be_exec k : (forall p, after_exec v (k p)) -> before_exec cmd piped v (Exec cmd piped k).

Definition paused_after (v : string) (s : paused string) : Prop :=
  match s with
  | PExec _ _ k => forall p, after_exec v (k p)
  | PWait _ k => forall p, after_exec v (k p)
  | PRead _ _ k => forall t, after_exec v (k t)
  end.

(** What one task is there for: the command it launches and the path it
    returns. *)
Record job : Type := Job {
  j_cmd : list string;
  j_piped : bool;
  j_value : string
}.

(** The awaits ahead of a coroutine on host [h] (a helper call is taken to
    end it: the compile coroutines of [compile_sources] make none). *)
Fixpoint awaits (h : host) (c : coro string) : nat :=
  match c with
  | Ret _ | Raise _ => 0
  | Say _ k => awaits h k
  | Call _ _ => 0
  | Exec cmd piped k =>
      if found (run h cmd) then S (awaits h (wake h (PExec cmd piped k))) else 0
  | Wait p k => S (awaits h (wake h (PWait p k)))
  | Read p s k => if p_piped p then S (awaits h (wake h (PRead p s k))) else 0
  end.

(** ** Observations and concrete scenarios used in the statements below *)

(** What task [i] did with the semaphore and with processes, in order; what
    it printed is left out. *)
Definition footprint (i : nat) (evs : list (actor * effect)) : list effect :=
  omap (fun ev => match ev with
                  | (Task j, Print _) => None
                  | (Task j, e) => if decide (j = i) then Some e else None
                  | (Main, _) => None
                  end) evs.

Definition is_spawn (e : effect) : bool :=
  match e with Spawn _ _ => true | _ => false end.
Definition is_acquire (e : effect) : bool :=
  match e with Acquire => true | _ => false end.
Definition is_release (e : effect) : bool :=
  match e with Release => true | _ => false end.
Definition by_task (ev : actor * effect) : bool :=
  match ev with (Task _, _) => true | (Main, _) => false end.

(** How many events of a kind a log holds. *)
Definition count_if (f : effect -> bool) (evs : list (actor * effect)) : nat :=
  length (filter (fun ev => f ev.2 = true) evs).

Definition b2n (b : bool) : nat := if b then 1 else 0.

(** How many tasks are in a given condition. *)
Fixpoint sum_over (f : build.task_state -> nat) (ts : list build.task_state) : nat :=
  match ts with
  | [] => 0
  | t :: ts' => f t + sum_over f ts'
  end.
Definition tally (f : build.task_state -> bool) (ts : list build.task_state) : nat :=
  sum_over (fun t => if f t then 1 else 0) ts.

(** A task has entered the block; it has left it. *)
Definition entered (t : build.task_state) : bool :=
  match t with
  | build.Queued _ => false
  | build.Holding _ | build.Done _ => true
  | build.Cancelled inside => inside
  end.
Definition left_block (t : build.task_state) : bool :=
  match t with
  | build.Done _ => true
  | build.Cancelled inside => inside
  | _ => false
  end.

(** The work a loop still has to do: the awaits and wake-ups ahead of its
    tasks, and the phases ahead of it. *)
Definition task_weight (h : host) (t : build.task_state) : nat :=
  match t with
  | build.Queued body => 2 + awaits h body
  | build.Holding s => 1 + awaits h (wake h s)
  | _ => 0
  end.
Definition phase_weight (p : build.phase) : nat :=
  match p with
  | build.Gathering => 3
  | build.Failing _ => 2
  | build.Cancelling _ => 1
  | build.Closed _ => 0
  end.
Definition weight (h : host) (l : build.loop) : nat :=
  phase_weight (build.ph l) + sum_over (task_weight h) (build.tasks l).


(** A path component as [normpath] keeps them: not empty, without a
    slash. *)
Fixpoint slash_free (s : string) : bool :=
  match s with
  | EmptyString => true
  | String c s' => negb (bool_decide (c = "/"%char)) && slash_free s'
  end.

Definition clean (s : string) : Prop := s ≠ "" /\ slash_free s = true.

(** The existence query of [sdl.init_sdl2]. *)
Definition sdl2_query : list string := ["pkg-config"; "--exists"; "sdl2"].

Definition default_args : build.args := build.Args "build" "src" "native" "debug" "app".

(** Stand-ins for the two platform modules that are not at hand. *)
Definition no_platforms : build.platforms :=
  build.Platforms (fun _ _ => ["-O"; "Debug"]) (fun _ _ => ["-O"; "Debug"]).

(** A Linux host on which every command is found, exits with status 0 and is
    still running when [create_subprocess_exec] returns. *)
Definition exits_zero_late : host :=
  Host "/home/dev/game" "posix" "Linux" 4 (fun _ => [])
       (fun _ => Behaviour true 0 "" "" false).


(** A Linux host on which [pkg-config] knows no package. *)
Definition no_packages : host :=
  Host "/home/dev/game" "posix" "Linux" 4 (fun _ => [])
       (fun cmd => if bool_decide (Py.item0 cmd = "pkg-config")
                   then Behaviour true 1 "" "" false
                   else Behaviour true 0 "" "" false).

(** The effects of a list that are not prints. *)
Definition quiet (effs : list effect) : list effect :=
  omap (fun e => match e with Print _ => None | _ => Some e end) effs.

(** What the loop has appended to the log of the world it was started in. *)
Definition added_since (w0 : world) (l : build.loop) : list (actor * effect) :=
  drop (length (log w0)) (log (build.lw l)).

(** ** The invariant of the event loop

    Each task is where its footprint says: nothing done while queued; the
    permit taken and the one command launched while inside the block; the
    permit returned once the block is left. *)
Definition task_ok (j : job) (t : build.task_state) (fp : list effect) : Prop :=
  match t with
  | build.Queued body =>
      before_exec (j_cmd j) (j_piped j) (j_value j) body /\ fp = []
  | build.Holding s =>
      paused_after (j_value j) s /\ fp = [Acquire; Spawn (j_cmd j) (j_piped j)]
  | build.Done r =>
      (forall a, r = Ok a -> a = j_value j) /\
      fp = [Acquire; Spawn (j_cmd j) (j_piped j); Release]
  | build.Cancelled inside =>
      fp = if inside then [Acquire; Spawn (j_cmd j) (j_piped j); Release] else []
  end.

Definition failed_with (e : exn) (ts : list build.task_state) : Prop :=
  exists i, ts !! i = Some (build.Done (Err e)).

Definition phase_ok (p : build.phase) (ts : list build.task_state) : Prop :=
  match p with
  | build.Gathering =>
      Forall (fun t => match t with
                       | build.Queued _ | build.Holding _ | build.Done (Ok _) => True
                       | _ => False
                       end) ts
  | build.Failing e =>
      failed_with e ts /\
      Forall (fun t => match t with build.Cancelled _ => False | _ => True end) ts
  | build.Cancelling e => failed_with e ts
  | build.Closed (Ok r) =>
      Forall (fun t => build.is_done_ok t = true) ts /\ r = build.results ts
  | build.Closed (Err e) =>
      failed_with e ts /\ Forall (fun t => build.is_live t = false) ts
  end.

Record Inv (h : host) (jobs : list job) (w0 : world) (l : build.loop) : Prop := {
  inv_log : log (build.lw l) = log w0 ++ added_since w0 l;
  inv_dirs : dirs (build.lw l) = dirs w0;
  inv_by_task : Forall (fun ev => by_task ev = true) (added_since w0 l);
  inv_length : length (build.tasks l) = length jobs;
  inv_tasks : forall i t, build.tasks l !! i = Some t ->
              exists j, jobs !! i = Some j /\ task_ok j t (footprint i (added_since w0 l));
  inv_acquires : count_if is_acquire (added_since w0 l) = tally entered (build.tasks l);
  inv_spawns : count_if is_spawn (added_since w0 l) = tally entered (build.tasks l);
  inv_releases : count_if is_release (added_since w0 l) = tally left_block (build.tasks l);
  inv_sem : build.sem l + tally build.is_holding (build.tasks l) = cpu_count h;
  inv_phase : phase_ok (build.ph l) (build.tasks l)
}.

(** The jobs of the three kinds of task, for a file and its output path. *)
Definition zig_job (opt : list string) (file out : string) : job :=
  Job (zig_utils.zig_compiler ++ opt ++ [file; "-femit-bin=" +:+ out]) true (out +:+ ".o").
Definition c_job (opt : list string) (file out : string) : job :=
  Job (zig_utils.c_compiler ++ opt ++ [file; "-o"; out]) false out.
Definition cpp_job (opt : list string) (file out : string) : job :=
  Job (zig_utils.cxx_compiler ++ opt ++ [file; "-o"; out]) false out.

(** [m] can return [v]. *)
Definition returns {A} (m : M A) (v : A) : Prop := exists w1 w2, m w1 = (Ok v, w2).

(** The jobs [compile_sources] sets up for its three lists, in the order of
    submission. *)
Definition jobs_for (h : host) (a : build.args) (opt zig_files c_files cpp_files : list string)
    (jobs : list job) : Prop :=
  exists zs cs ps,
    jobs = zs ++ cs ++ ps /\
    Forall2 (fun file j => exists out,
               returns (utils.translate_to_build_path_zig (getcwd h) file
                          (build.source_dir a) (build.build_dir a)) out /\
               j = zig_job opt file out) zig_files zs /\
    Forall2 (fun file j => exists out,
               returns (utils.translate_to_build_path (getcwd h) file
                          (build.source_dir a) (build.build_dir a)) out /\
               j = c_job opt file out) c_files cs /\
    Forall2 (fun file j => exists out,
               returns (utils.translate_to_build_path (getcwd h) file
                          (build.source_dir a) (build.build_dir a)) out /\
               j = cpp_job opt file out) cpp_files ps.

(** A two-CPU Linux host whose compilers are found, exit with status 0 and
    are already reaped when [create_subprocess_exec] returns. *)
Definition quick_compilers : host :=
  Host "/home/dev/game" "posix" "Linux" 2 (fun _ => [])
       (fun _ => Behaviour true 0 "" "" true).

(** One Zig, two C and one C++ file on it; the C and C++ tasks finish
    first, the Zig task last. *)
Definition out_of_order : list build.action :=
  [build.Admit 0; build.Admit 1; build.Resume 1; build.Admit 2; build.Resume 2;
   build.Admit 3; build.Resume 3; build.Resume 0; build.Resume 0; build.GatherResult].

(** A one-CPU Linux host on which every command is found and already reaped
    when [create_subprocess_exec] returns; the commands that name [bad] exit
    with status 1, the others with status 0. *)
Definition one_cpu_failing (bad : string) : host :=
  Host "/home/dev/game" "posix" "Linux" 1 (fun _ => [])
       (fun cmd => if bool_decide (bad ∈ cmd)
                   then Behaviour true 1 "" "error: expected ';'" true
                   else Behaviour true 0 "" "" true).



Definition three_cpp_files : list string := ["src/x.cpp"; "src/y.cpp"; "src/z.cpp"].

Definition first_fails_of_three : list build.action :=
  [build.Admit 0; build.Resume 0; build.Admit 1; build.MainRaise;
   build.Cancel 1; build.Cancel 2; build.Close].

(** Some task has raised. *)
Definition some_failed (l : build.loop) : Prop :=
  exists i e, build.tasks l !! i = Some (build.Done (Err e)).

(** Every task has returned, raised or been cancelled. *)
Definition all_ended (l : build.loop) : Prop :=
  Forall (fun t => build.is_live t = false) (build.tasks l).

(** The launch of the linker by the main script. *)
Definition is_link (ev : actor * effect) : bool :=
  match ev with
  | (Main, Spawn ("zig" :: "build-exe" :: _) _) => true
  | _ => false
  end.

(** What has been logged since the world [w]. *)
Definition since (w w' : world) : list (actor * effect) :=
  drop (length (log w)) (log w').

(** A one-CPU Linux host with one C file next to [main.zig]; SDL2 is
    installed, the Zig compiler succeeds and the C compiler exits with
    status 1. *)
Definition one_bad_c_file : host :=
  Host "/home/dev/game" "posix" "Linux" 1
       (fun pattern => if bool_decide (pattern = "src/**/*.c") then ["src/a.c"] else [])
       (fun cmd => if bool_decide ("src/a.c" ∈ cmd)
                   then Behaviour true 1 "" "error: expected ';'" false
                   else Behaviour true 0 "" "" false).

(** The Zig task runs to its end, then the C task raises. *)
Definition zig_then_c : list build.action :=
  [build.Admit 0; build.Resume 0; build.Resume 0; build.Admit 1; build.Resume 1].

(** The one Zig task runs to its end and [gather] returns. *)
Definition zig_alone : list build.action :=
  [build.Admit 0; build.Resume 0; build.Resume 0; build.GatherResult].

(** ** Words *)





(** A host on which [pkg-config] is not installed. *)
Definition no_pkg_config : host :=
  Host "/home/dev/game" "posix" "Linux" 4 (fun _ => [])
       (fun cmd => if bool_decide (Py.item0 cmd = "pkg-config")
                   then Behaviour false 127 "" "" false
                   else Behaviour true 0 "" "" false).



(** ** The optimisation level of [zig_utils.py]

    [opt_level] is a global of the module that no statement of the module
    binds: it is unbound ([None]) until [set_optimization_level] has been
    called with a level it accepts. *)

Module zig_level.

Definition levels : list string :=
  [zig_utils.DEBUG; zig_utils.RELEASE_SAFE; zig_utils.RELEASE_FAST; zig_utils.RELEASE_SMALL].

Definition set_optimization_level (level : string) (opt_level : option string)
  : result unit * option string :=
  if bool_decide (level ∈ levels) then (Ok tt, Some level)
  else (Err (ValueError "Invalid optimization level"), opt_level).

Definition get_optimization_level (opt_level : option string)
  : result string * option string :=
  match opt_level with
  | Some level => (Ok level, opt_level)
  | None => (Err (NameError "opt_level"), opt_level)
  end.

End zig_level.

(** ** Ordinary paths *)

(** A path component that [normpath] keeps as it is: not empty, not a dot
    name, without a slash. *)
Definition plain (c : string) : Prop :=
  c ≠ "" /\ c ≠ "." /\ c ≠ ".." /\ slash_free c = true.

(** A relative path made of such components. *)
Definition ordinary (path : string) : Prop := Forall plain (Py.split "/" path).




(** ** Source files by stem *)

(** [file] is [root/stem.ext]: [stem.ext] is an ordinary relative path
    without a backslash, and [ext] holds no dot. *)
Definition source_of (root file stem : string) : Prop :=
  exists ext,
    file = root +:+ "/" +:+ stem +:+ "." +:+ ext /\
    ordinary (stem +:+ "." +:+ ext) /\
    Py.contains "." ext = false /\
    Py.contains "\" (stem +:+ "." +:+ ext) = false.


(** ** The order of the permits *)

(** The tasks that took a permit, in the order in which they took it. *)
Definition acquirers (evs : list (actor * effect)) : list nat :=
  omap (fun ev => match ev with
                  | (Task i, Acquire) => Some i
                  | _ => None
                  end) evs.

(** The first [k] tasks have taken a permit, in the order of their
    submission, and no other task has. *)
Definition in_submission_order (w0 : world) (l : build.loop) (k : nat) : Prop :=
  acquirers (added_since w0 l) = seq 0 k /\
  forall i t, build.tasks l !! i = Some t -> (entered t = true <-> i < k).

(** ** What a coroutine comes to *)

(** The result of a coroutine that is followed to its end. *)
Definition outcome (h : host) (c : coro string) : result string :=
  (run_alone h Main c (World ∅ [])).1.

(** A task that has returned or is going to. *)
Definition task_well (h : host) (t : build.task_state) : Prop :=
  match t with
  | build.Queued body => is_ok (outcome h body) = true
  | build.Holding s => is_ok (outcome h (wake h s)) = true
  | build.Done r => is_ok r = true
  | build.Cancelled _ => False
  end.

Definition all_well (h : host) (l : build.loop) : Prop :=
  forall i t, build.tasks l !! i = Some t -> task_well h t.


(** * Properties *)

(** ** The compile and link coroutines *)

Section Coroutines.
Variable h : host.

Lemma returncode_nonzero_None cmd piped :
  zig_utils.returncode_nonzero (Proc cmd piped None) = true.
Proof. reflexivity. Qed.

Lemma returncode_nonzero_Some cmd piped z :
  zig_utils.returncode_nonzero (Proc cmd piped (Some z)) = bool_decide (z ≠ 0%Z).
Proof.
  unfold zig_utils.returncode_nonzero; simpl.
  apply bool_decide_ext. split; intros H; congruence.
Qed.

(** What [link_executable] does, by the exit status of the linker. *)
Lemma link_executable_run object_files output_executable option w :
  let cmd := zig_utils.link_command object_files output_executable option in
  let header := Py.join " " ["Compile:"; Py.join " + " object_files; "->"; output_executable] in
  let w1 := emit Main (Spawn cmd true) (emit Main (Print header) w) in
  found (run h cmd) = true ->
  zig_utils.link_executable h object_files output_executable option w =
    if bool_decide (exit_code (run h cmd) = 0%Z) then (Ok output_executable, w1)
    else (Err (RuntimeError ("Linking failed for " +:+ output_executable)),
          emit Main (Print (Py.join " " cmd))
            (emit Main (Print (stderr_text (run h cmd)))
               (emit Main (Print (stdout_text (run h cmd))) w1))).
Proof.
  intros cmd header w1 Hfound.
  unfold zig_utils.link_executable, zig_utils.link_executable_async.
  fold cmd. fold header. cbn [run_alone]. fold w1. rewrite Hfound.
  cbn [wake run_alone p_cmd p_piped]. rewrite returncode_nonzero_Some.
  destruct (decide (exit_code (run h cmd) = 0%Z)) as [Hz | Hnz].
  - rewrite (bool_decide_eq_false_2 _ (fun H => H Hz)).
    rewrite (bool_decide_eq_true_2 _ Hz). reflexivity.
  - rewrite (bool_decide_eq_true_2 _ Hnz), (bool_decide_eq_false_2 _ Hnz).
    reflexivity.
Qed.

End Coroutines.

(** C1 (the code departs from the claim).  The C/C++ compile task reads
    [returncode] right after [create_subprocess_exec], without waiting for
    the child: while the child has not been reaped the value is [None], and
    the task raises its compilation error whatever the exit status will be,
    zero included.  The child is started without pipes and only the
    [Compile:] line is printed, so nothing of the compiler's output is
    captured or logged by the task. *)
Theorem C1_c_cpp_task_raises_without_waiting
    (h : host) (who : actor) (file_path : string) (compiler : list string)
    (output_file : string) (option : list string) (w : world) :
  let cmd := compiler ++ option ++ [file_path; "-o"; output_file] in
  found (run h cmd) = true ->
  reaped_at_spawn (run h cmd) = false ->
  run_alone h who
    (zig_utils.compile_source_c_cpp_async h file_path compiler (Some output_file) option) w
  = (Err (RuntimeError ("Compilation failed for " +:+ file_path)),
     emit who (Spawn cmd false)
       (emit who (Print (Py.join " " ["Compile:"; file_path; "->"; output_file])) w)).
Proof.
  intros cmd Hfound Hlate.
  unfold zig_utils.compile_source_c_cpp_async, zig_utils.or_default.
  fold cmd. cbn [run_alone]. rewrite Hfound. cbn [wake]. rewrite Hlate.
  reflexivity.
Qed.

Lemma C1_witness_exit_zero :
  run_alone exits_zero_late Main
    (zig_utils.compile_c_source_async exits_zero_late "src/a.c" (Some "build/a.o") ["-O"; "Debug"])
    (World ∅ [])
  = (Err (RuntimeError "Compilation failed for src/a.c"),
     World ∅ [(Main, Print "Compile: src/a.c -> build/a.o");
              (Main, Spawn ["zig"; "cc"; "-O"; "Debug"; "src/a.c"; "-o"; "build/a.o"] false)]).
Proof.
  exact (C1_c_cpp_task_raises_without_waiting exits_zero_late Main "src/a.c"
           zig_utils.c_compiler "build/a.o" ["-O"; "Debug"] (World ∅ [])
           eq_refl eq_refl).
Defined.



(** ** Library detection *)

Lemma run_check_nonzero h who cmd capture w :
  found (run h cmd) = true -> exit_code (run h cmd) ≠ 0%Z ->
  subprocess.run_check h who cmd capture w
  = (Err (CalledProcessError (exit_code (run h cmd)) cmd), emit who (Spawn cmd capture) w).
Proof.
  intros Hf Hnz. unfold subprocess.run_check. rewrite Hf. cbn [negb].
  rewrite (bool_decide_eq_true_2 _ Hnz). reflexivity.
Qed.

Lemma pkg_config_exists_nonzero h package_name w :
  let query := ["pkg-config"; "--exists"; package_name] in
  found (run h query) = true -> exit_code (run h query) ≠ 0%Z ->
  pkg_config_utils.pkg_config_exists h package_name w
  = (Ok false, emit Main (Spawn query false) w).
Proof.
  intros query Hf Hnz.
  unfold pkg_config_utils.pkg_config_exists, subprocess.except_CalledProcessError, bind.
  fold query. rewrite (run_check_nonzero h Main query false w Hf Hnz). reflexivity.
Qed.



(** ** Configuration comes first *)

Lemma ensure_dir_log dir w r w' :
  utils.ensure_dir dir w = (r, w') -> log w' = log w.
Proof.
  unfold utils.ensure_dir, bind, os.exists_, os.rmtree, os.makedirs, ret.
  intros H. repeat (case_match; simplify_eq/=); reflexivity.
Qed.

Lemma ensure_dir_ok dir w :
  dir ≠ "" -> exists w', utils.ensure_dir dir w = (Ok tt, w') /\ log w' = log w.
Proof.
  intros Hdir.
  unfold utils.ensure_dir, bind, os.exists_, os.rmtree, os.makedirs, ret.
  rewrite (bool_decide_eq_false_2 _ Hdir).
  destruct (bool_decide (dir ∈ dirs w)) eqn:Hin; cbn [dirs].
  - rewrite bool_decide_eq_false_2; [eexists; split; reflexivity |].
    rewrite elem_of_filter. intros [[Hne _] _]. congruence.
  - rewrite Hin. eexists; split; reflexivity.
Qed.

Lemma init_sdl2_absent h w :
  found (run h sdl2_query) = true -> exit_code (run h sdl2_query) ≠ 0%Z ->
  sdl.init_sdl2 h w
  = (Err (RuntimeError "SDL2 not found via pkg-config. Please install SDL2 development files."),
     emit Main (Spawn sdl2_query false) w).
Proof.
  intros Hf Hnz. unfold sdl.init_sdl2, bind.
  rewrite (pkg_config_exists_nonzero h "sdl2" w Hf Hnz). reflexivity.
Qed.

Lemma configure_absent h pf a w :
  found (run h sdl2_query) = true -> exit_code (run h sdl2_query) ≠ 0%Z ->
  exists e w1,
    build.configure h pf a w = (Err e, w1) /\
    (log w1 = log w \/ log w1 = log w ++ [(Main, Spawn sdl2_query false)]) /\
    (build.build_dir a ≠ "" -> build.select_platform h pf a ≠ None ->
     e = RuntimeError "SDL2 not found via pkg-config. Please install SDL2 development files.").
Proof.
  intros Hf Hnz. unfold build.configure, bind.
  destruct (utils.ensure_dir (build.build_dir a) w) as [[[] | e] w1] eqn:Hens.
  - apply ensure_dir_log in Hens.
    destruct (build.select_platform h pf a) as [flags |].
    + rewrite (init_sdl2_absent h w1 Hf Hnz).
      eexists _, _. split; [reflexivity |]. split.
      * right. cbn [emit log]. rewrite Hens. reflexivity.
      * reflexivity.
    + eexists _, _. split; [reflexivity |]. split; [left; exact Hens | congruence].
  - eexists _, _. split; [reflexivity |]. split.
    + left. eapply ensure_dir_log, Hens.
    + intros Hdir _. destruct (ensure_dir_ok _ w Hdir) as (w' & Hok & _). congruence.
Qed.

(** C8.  When the query [pkg-config --exists sdl2] answers with a non-zero
    status, the script ends, and it ends with an exception; the only thing
    it may have logged by then is that one query by the main script: no
    task has taken a permit and no compiler or linker has been launched.
    Provided the build directory could be made and a platform module was
    selected, the exception is the "SDL2 not found" error. *)
Theorem C8_missing_sdl2_stops_before_compiling
    (h : host) (pf : build.platforms) (a : build.args) (w : world) :
  found (run h sdl2_query) = true ->
  exit_code (run h sdl2_query) ≠ 0%Z ->
  (exists out, build.script h pf a w out) /\
  (forall out, build.script h pf a w out ->
     (exists e, fst out = Err e) /\
     (log (snd out) = log w \/ log (snd out) = log w ++ [(Main, Spawn sdl2_query false)]) /\
     (build.build_dir a ≠ "" -> build.select_platform h pf a ≠ None ->
      fst out = Err (RuntimeError
                       "SDL2 not found via pkg-config. Please install SDL2 development files."))).
Proof.
  intros Hf Hnz.
  destruct (configure_absent h pf a w Hf Hnz) as (e & w1 & Hcfg & Hlog & Hwhich).
  split.
  - exists (Err e, w1). apply build.script_unconfigured, Hcfg.
  - intros out Hrun.
    inversion Hrun as [e0 w2 Hc | opt w2 e0 w3 Hc _ | opt w2 objs w3 Hc _]; subst;
      try congruence.
    assert (e0 = e /\ w2 = w1) as [-> ->] by (split; congruence).
    cbn [fst snd]. split; [eauto |]. split; [exact Hlog |].
    intros Hd Hp. f_equal. auto.
Qed.

Lemma C8_witness :
  (exists out, build.script no_packages no_platforms default_args (World ∅ []) out) /\
  (forall out, build.script no_packages no_platforms default_args (World ∅ []) out ->
     fst out = Err (RuntimeError
                      "SDL2 not found via pkg-config. Please install SDL2 development files.")).
Proof.
  destruct (C8_missing_sdl2_stops_before_compiling no_packages no_platforms default_args
              (World ∅ []) eq_refl) as [Hex Hall]; [discriminate |].
  split; [exact Hex |].
  intros out Hrun. destruct (Hall out Hrun) as (_ & _ & Hwhich).
  apply Hwhich; [discriminate | discriminate].
Defined.

(** ** Paths *)

Lemma append_cons c s t : String c s +:+ t = String c (s +:+ t).
Proof. reflexivity. Qed.

Lemma append_nil_l t : "" +:+ t = t.
Proof. reflexivity. Qed.

Lemma append_assoc s t u : (s +:+ t) +:+ u = s +:+ (t +:+ u).
Proof. induction s as [| c s IH]; [reflexivity |]. rewrite !append_cons, IH. reflexivity. Qed.

Lemma split_not_nil sep s : Py.split sep s ≠ [].
Proof. destruct s as [| c s]; cbn; [done |]. case_decide; [done |]. case_match; done. Qed.

(** Splitting distributes over a separator in the middle. *)
Lemma split_app_sep sep a b :
  Py.split sep (a +:+ String sep b) = Py.split sep a ++ Py.split sep b.
Proof.
  induction a as [| c a IH].
  - rewrite append_nil_l. cbn. rewrite decide_True by done. reflexivity.
  - rewrite append_cons. cbn [Py.split]. rewrite IH.
    case_decide; [reflexivity |].
    pose proof (split_not_nil sep a). destruct (Py.split sep a); [done | reflexivity].
Qed.

Lemma split_slash_free s : Forall (fun x => slash_free x = true) (Py.split "/" s).
Proof.
  induction s as [| c s IH]; cbn [Py.split].
  - repeat constructor.
  - case_decide as Hc.
    + constructor; [reflexivity | exact IH].
    + destruct (Py.split "/" s) as [| x xs]; [repeat constructor |].
      * cbn. rewrite (bool_decide_eq_false_2 _ Hc). reflexivity.
      * inversion IH; subst. constructor; [| assumption].
        cbn. rewrite (bool_decide_eq_false_2 _ Hc). assumption.
Qed.

Lemma split_of_slash_free s : slash_free s = true -> Py.split "/" s = [s].
Proof.
  induction s as [| c s IH]; [reflexivity |].
  cbn. intros [Hc Hs]%andb_prop. rewrite IH by exact Hs.
  apply negb_true_iff, bool_decide_eq_false in Hc. rewrite decide_False by exact Hc.
  reflexivity.
Qed.

Lemma join_cons2 sep x y l : Py.join sep (x :: y :: l) = x +:+ sep +:+ Py.join sep (y :: l).
Proof. reflexivity. Qed.

Lemma split_join_clean l :
  l ≠ [] -> Forall clean l -> Py.split "/" (Py.join "/" l) = l.
Proof.
  induction l as [| x l IH]; [done |]. intros _ Hall.
  inversion Hall as [| ? ? [_ Hx] Hl]; subst.
  destruct l as [| y l].
  - cbn [Py.join]. apply split_of_slash_free, Hx.
  - rewrite join_cons2.
    change (x +:+ "/" +:+ Py.join "/" (y :: l))
      with (x +:+ String "/" (Py.join "/" (y :: l))).
    rewrite split_app_sep, (split_of_slash_free x Hx), IH by (done || assumption).
    reflexivity.
Qed.

Lemma join_clean_not_empty l : l ≠ [] -> Forall clean l -> Py.join "/" l ≠ "".
Proof.
  destruct l as [| x l]; [done |]. intros _ Hall.
  inversion Hall as [| ? ? [Hx _] _]; subst.
  destruct x as [| c x]; [done |].
  destruct l; [done |]. rewrite join_cons2, append_cons. done.
Qed.

Lemma split_slashes n s :
  Py.split "/" (posixpath.slashes n +:+ s) = replicate n "" ++ Py.split "/" s.
Proof.
  induction n as [| n IH]; [reflexivity |].
  change (posixpath.slashes (S n)) with (String "/" (posixpath.slashes n)).
  rewrite append_cons. cbn [Py.split]. rewrite decide_True by done. rewrite IH. reflexivity.
Qed.

Lemma filter_nonempty_clean n l :
  Forall clean l ->
  filter (fun x => posixpath.nonempty x = true) (replicate n "" ++ l) = l.
Proof.
  intros Hall. induction n as [| n IH]; cbn [replicate app].
  - induction Hall as [| x l [Hx _] _ IHl]; [reflexivity |].
    rewrite filter_cons_True, IHl; [reflexivity |].
    unfold posixpath.nonempty. rewrite (bool_decide_eq_false_2 _ Hx). reflexivity.
  - rewrite filter_cons_False; [exact IH |]. unfold posixpath.nonempty. cbn. done.
Qed.

(** A component that is neither empty nor a dot name is pushed. *)
Lemma norm_step_push n comps c :
  c ≠ "" -> c ≠ "." -> c ≠ ".." -> posixpath.norm_step n comps c = comps ++ [c].
Proof.
  intros H0 H1 H2. unfold posixpath.norm_step.
  rewrite (bool_decide_eq_false_2 _ H0), (bool_decide_eq_false_2 _ H1).
  rewrite (bool_decide_eq_true_2 (c ≠ "..") H2). reflexivity.
Qed.

Lemma Forall_removelast {A} (P : A -> Prop) (l : list A) : Forall P l -> Forall P (removelast l).
Proof.
  induction 1 as [| x l Hx Hl IH]; [constructor |].
  cbn. destruct l; [constructor | constructor; assumption].
Qed.

Lemma norm_step_clean n comps c :
  Forall clean comps -> slash_free c = true -> Forall clean (posixpath.norm_step n comps c).
Proof.
  intros Hall Hc. unfold posixpath.norm_step.
  destruct (bool_decide (c = "")) eqn:He; [assumption |].
  apply bool_decide_eq_false in He. cbn [orb].
  destruct (bool_decide (c = ".")); [assumption |].
  case_match.
  - apply Forall_app; split; [assumption |]. repeat constructor; assumption.
  - apply Forall_removelast, Hall.
Qed.

Lemma foldl_norm_step_clean n comps l :
  Forall clean comps -> Forall (fun x => slash_free x = true) l ->
  Forall clean (foldl (posixpath.norm_step n) comps l).
Proof.
  intros Hc Hl. revert comps Hc.
  induction Hl as [| x l Hx _ IH]; intros comps Hc; cbn [foldl]; [assumption |].
  apply IH, norm_step_clean; assumption.
Qed.

Lemma append_eq_nil s t : s +:+ t = "" -> t = "".
Proof. destruct s; [done | rewrite append_cons; done]. Qed.

(** The components [relpath] compares are the ones [normpath] kept. *)
Lemma normpath_components path :
  path ≠ "" ->
  let comps := foldl (posixpath.norm_step (posixpath.initial_slashes path)) []
                     (Py.split "/" path) in
  comps ≠ [] ->
  filter (fun x => posixpath.nonempty x = true) (Py.split "/" (posixpath.normpath path)) = comps.
Proof.
  intros Hpath comps Hcomps.
  assert (Forall clean comps) as Hclean
    by (apply foldl_norm_step_clean; [constructor | apply split_slash_free]).
  unfold posixpath.normpath. rewrite (bool_decide_eq_false_2 _ Hpath). cbv zeta. fold comps.
  rewrite bool_decide_eq_false_2.
  - rewrite split_slashes, split_join_clean by assumption.
    apply filter_nonempty_clean, Hclean.
  - intros Hnil. apply append_eq_nil in Hnil.
    exact (join_clean_not_empty comps Hcomps Hclean Hnil).
Qed.

Lemma endswith_char_split s c :
  Py.endswith_char s c = true -> exists p, s = p +:+ String c "".
Proof.
  induction s as [| d s IH]; [done |]. cbn [Py.endswith_char].
  destruct s as [| e s].
  - intros ->%bool_decide_eq_true. exists "". reflexivity.
  - intros [p Hp]%IH. exists (String d p). rewrite append_cons, <- Hp. reflexivity.
Qed.

(** Joining the working directory with a relative path puts a prefix in
    front of it that is empty or ends in a slash. *)
Lemma join_relative cwd :
  exists pre, (pre = "" \/ exists p, pre = p +:+ "/") /\
    forall f, Py.startswith f "/" = false -> posixpath.join cwd f = pre +:+ f.
Proof.
  destruct (bool_decide (cwd = "") || Py.endswith_char cwd "/") eqn:Hc.
  - exists cwd. split.
    + apply orb_prop in Hc as [->%bool_decide_eq_true | Hc]; [by left |].
      right. apply endswith_char_split, Hc.
    + intros f Hf. unfold posixpath.join. rewrite Hf, Hc. reflexivity.
  - exists (cwd +:+ "/"). split; [right; eexists; reflexivity |].
    intros f Hf. unfold posixpath.join. rewrite Hf, Hc. rewrite append_assoc. reflexivity.
Qed.

Lemma split_prefixed pre :
  (pre = "" \/ exists p, pre = p +:+ "/") ->
  exists L, forall f, Py.split "/" (pre +:+ f) = L ++ Py.split "/" f.
Proof.
  intros [-> | [p ->]].
  - exists []. reflexivity.
  - exists (Py.split "/" p). intros f. rewrite append_assoc.
    change ("/" +:+ f) with (String "/" f). apply split_app_sep.
Qed.


Lemma prefixed_not_empty pre f : f ≠ "" -> pre +:+ f ≠ "".
Proof. intros Hf Hnil. apply append_eq_nil in Hnil. done. Qed.

Lemma commonprefix_app X l1 l2 :
  posixpath.commonprefix (X ++ l1) (X ++ l2) = X ++ posixpath.commonprefix l1 l2.
Proof.
  induction X as [| x X IH]; [reflexivity |].
  cbn. rewrite decide_True by done. rewrite IH. reflexivity.
Qed.

Lemma commonprefix_self_app Y Z : posixpath.commonprefix Y (Y ++ Z) = Y.
Proof.
  rewrite <- (app_nil_r Y) at 1. rewrite commonprefix_app.
  destruct Z; cbn; apply app_nil_r.
Qed.


Lemma makedirs_exist_ok name w :
  name ≠ "" ->
  os.makedirs name true w
  = (Ok tt, {| dirs := dirs w ∪ list_to_set (os.ancestors name); log := log w |}).
Proof.
  intros Hname. unfold os.makedirs.
  rewrite (bool_decide_eq_false_2 _ Hname), andb_false_r. reflexivity.
Qed.



(** ** The renaming for Windows targets *)

(** The example of the specification. *)
Lemma rename_windows_example :
  build.rename_windows ["build/a.o"; "build/b.o"] = ["build/a.obj"; "build/b.obj"].
Proof. reflexivity. Qed.

(** On a Windows target the link is asked for the renamed objects and for
    the output path with [.exe] appended. *)
Lemma link_windows h a list_object opt w :
  build.is_target_windows h a = true ->
  build.link h a list_object opt w
  = zig_utils.link_executable h (build.rename_windows list_object)
      (posixpath.join (build.build_dir a) (build.output a) +:+ ".exe") opt w.
Proof. intros Hwin. unfold build.link. rewrite Hwin. reflexivity. Qed.

(** C5 (the code departs from the claim).  [obj.replace(".o", ".obj")]
    rewrites every occurrence of [.o] in the path, not only the extension:
    the object of [src/net.options.c] is [build/net.options.o], and the
    renaming turns it into [build/net.objptions.obj] where the claim asks
    for [build/net.options.obj]. *)
Theorem C5_rename_rewrites_every_occurrence :
  fst (utils.translate_to_build_path "/home/dev/game" "src/net.options.c" "src" "build"
         (World ∅ []))
  = Ok "build/net.options.o" /\
  build.rename_windows ["build/net.options.o"] = ["build/net.objptions.obj"] /\
  build.rename_windows ["build/net.options.o"] ≠ ["build/net.options.obj"].
Proof.
  split; [| split]; [vm_compute; reflexivity | reflexivity |].
  apply (bool_decide_eq_false_1 (_ = _)). reflexivity.
Qed.

(** ** Running a compile coroutine *)

Section Advance.
Variables (h : host) (who : actor).

Lemma emit_log e w : log (emit who e w) = log w ++ [(who, e)].
Proof. reflexivity. Qed.

(** After its launch a compile coroutine only prints, and stops at an
    [await] or ends with its path or an exception. *)
Lemma advance_after v c w :
  after_exec v c ->
  exists effs,
    log (advance h who c w).2 = log w ++ map (pair who) effs /\
    quiet effs = [] /\
    dirs (advance h who c w).2 = dirs w /\
    match (advance h who c w).1 with
    | Suspended s => paused_after v s /\ awaits h c = S (awaits h (wake h s))
    | Finished r => forall a, r = Ok a -> a = v
    end.
Proof.
  intros Hc. revert w.
  induction Hc as [| e | line k _ IH | p k Hk _ | p s k Hk _]; intros w; cbn [advance awaits].
  - exists []. rewrite app_nil_r. repeat split. intros a [=]. done.
  - exists []. rewrite app_nil_r. repeat split. intros a [=].
  - destruct (IH (emit who (Print line) w)) as (effs & Hlog & Hq & Hd & Hres).
    exists (Print line :: effs). rewrite Hlog, emit_log, <- app_assoc. repeat split; assumption.
  - exists []. rewrite app_nil_r. repeat split. exact Hk.
  - destruct (p_piped p).
    + exists []. rewrite app_nil_r. repeat split. exact Hk.
    + exists []. rewrite app_nil_r. repeat split. intros a [=].
Qed.

(** Up to its launch a compile coroutine prints and then starts its one
    command; it stops at that [await], unless the executable is missing. *)
Lemma advance_before cmd piped v c w :
  before_exec cmd piped v c ->
  exists effs,
    log (advance h who c w).2 = log w ++ map (pair who) effs /\
    quiet effs = [Spawn cmd piped] /\
    dirs (advance h who c w).2 = dirs w /\
    match (advance h who c w).1 with
    | Suspended s => paused_after v s /\ awaits h c = S (awaits h (wake h s))
    | Finished r => forall a, r = Ok a -> a = v
    end.
Proof.
  intros Hc. revert w.
  induction Hc as [line k _ IH | k Hk]; intros w; cbn [advance awaits].
  - destruct (IH (emit who (Print line) w)) as (effs & Hlog & Hq & Hd & Hres).
    exists (Print line :: effs). rewrite Hlog, emit_log, <- app_assoc. repeat split; assumption.
  - exists [Spawn cmd piped]. destruct (found (run h cmd)); cbn [fst snd].
    + repeat split. exact Hk.
    + repeat split. intros a [=].
Qed.

Lemma wake_after v s : paused_after v s -> after_exec v (wake h s).
Proof. destruct s; cbn; intros Hk; apply Hk. Qed.

End Advance.

(** ** Footprints and counts *)

Lemma quiet_app e1 e2 : quiet (e1 ++ e2) = quiet e1 ++ quiet e2.
Proof. apply omap_app. Qed.

Lemma footprint_app i l1 l2 : footprint i (l1 ++ l2) = footprint i l1 ++ footprint i l2.
Proof. apply omap_app. Qed.

Lemma footprint_cons_own i e l : footprint i ((Task i, e) :: l) = quiet [e] ++ footprint i l.
Proof.
  unfold footprint, quiet. cbn [omap].
  destruct e; cbn; rewrite ?decide_True by done; reflexivity.
Qed.

Lemma footprint_cons_other i j e l : i ≠ j -> footprint j ((Task i, e) :: l) = footprint j l.
Proof.
  intros Hij. unfold footprint. cbn [omap].
  destruct e; cbn; rewrite ?decide_False by done; reflexivity.
Qed.

Lemma quiet_cons e l : quiet (e :: l) = quiet [e] ++ quiet l.
Proof. apply (quiet_app [e] l). Qed.

Lemma footprint_own i effs : footprint i (map (pair (Task i)) effs) = quiet effs.
Proof.
  induction effs as [| e effs IH]; [reflexivity |].
  cbn [map]. rewrite footprint_cons_own, IH, (quiet_cons e effs). reflexivity.
Qed.

Lemma footprint_other i j effs : i ≠ j -> footprint j (map (pair (Task i)) effs) = [].
Proof.
  intros Hij. induction effs as [| e effs IH]; [reflexivity |].
  cbn [map]. rewrite footprint_cons_other by exact Hij. exact IH.
Qed.

Lemma count_if_app f l1 l2 : count_if f (l1 ++ l2) = count_if f l1 + count_if f l2.
Proof. unfold count_if. rewrite filter_app, length_app. reflexivity. Qed.

Lemma count_if_cons f a e l :
  count_if f ((a, e) :: l) = (if f e then 1 else 0) + count_if f l.
Proof.
  unfold count_if. destruct (f e) eqn:He.
  - rewrite filter_cons_True by exact He. reflexivity.
  - rewrite filter_cons_False by (cbn; congruence). reflexivity.
Qed.

Lemma count_if_quiet f a effs :
  (forall line, f (Print line) = false) ->
  count_if f (map (pair a) effs) = length (filter (fun e => f e = true) (quiet effs)).
Proof.
  intros Hf. induction effs as [| e effs IH]; [reflexivity |].
  cbn [map]. rewrite count_if_cons, IH, (quiet_cons e effs), filter_app, length_app.
  f_equal.
  assert (forall e', f e' = true -> length (filter (fun e => f e = true) [e']) = 1) as Hyes
    by (intros e' He; rewrite filter_cons_True by exact He; reflexivity).
  assert (forall e', f e' = false -> length (filter (fun e => f e = true) [e']) = 0) as Hno
    by (intros e' He; rewrite filter_cons_False by congruence; reflexivity).
  destruct e as [line | cmd piped | |].
  - rewrite Hf. reflexivity.
  - change (quiet [Spawn cmd piped]) with [Spawn cmd piped].
    destruct (f (Spawn cmd piped)) eqn:He; [rewrite Hyes | rewrite Hno]; done.
  - change (quiet [Acquire]) with [Acquire].
    destruct (f Acquire) eqn:He; [rewrite Hyes | rewrite Hno]; done.
  - change (quiet [Release]) with [Release].
    destruct (f Release) eqn:He; [rewrite Hyes | rewrite Hno]; done.
Qed.

Lemma Forall_by_task i effs : Forall (fun ev => by_task ev = true) (map (pair (Task i)) effs).
Proof. apply Forall_map, Forall_true. reflexivity. Qed.

Lemma sum_over_insert f ts i t t' :
  ts !! i = Some t -> sum_over f (<[i := t']> ts) + f t = sum_over f ts + f t'.
Proof.
  revert i. induction ts as [| x ts IH]; intros i Hi; [done |].
  destruct i as [| i]; cbn [insert list_insert sum_over lookup list_lookup] in *.
  - simplify_eq. lia.
  - specialize (IH i Hi).
    rewrite <- !Nat.add_assoc. f_equal. exact IH.
Qed.

Lemma tally_insert f ts i t t' :
  ts !! i = Some t ->
  tally f (<[i := t']> ts) + (if f t then 1 else 0) = tally f ts + (if f t' then 1 else 0).
Proof. apply (sum_over_insert (fun t => if f t then 1 else 0)). Qed.

(** ** The invariant holds at the start and is kept by every step *)

Lemma tally_insert_b2n f ts i t t' :
  ts !! i = Some t -> tally f (<[i := t']> ts) + b2n (f t) = tally f ts + b2n (f t').
Proof. apply tally_insert. Qed.

Lemma added_since_start h bodies w0 : added_since w0 (build.start h bodies w0) = [].
Proof. unfold added_since, build.start. cbn [build.lw]. apply drop_all. Qed.

Lemma sum_over_zero f ts : Forall (fun t => f t = 0) ts -> sum_over f ts = 0.
Proof. induction 1 as [| t ts Ht _ IH]; cbn [sum_over]; [reflexivity | lia]. Qed.

Lemma Inv_start h jobs bodies w0 :
  Forall2 (fun body j => before_exec (j_cmd j) (j_piped j) (j_value j) body) bodies jobs ->
  Inv h jobs w0 (build.start h bodies w0).
Proof.
  intros Hjobs.
  assert (forall f, (forall body, f (build.Queued body) = false) ->
                    tally f (map build.limit_thread bodies) = 0) as Hzero.
  { intros f Hf. apply sum_over_zero, Forall_map, Forall_true.
    intros body. cbn. unfold build.limit_thread. rewrite Hf. reflexivity. }
  split; rewrite ?added_since_start; cbn [build.start build.lw build.tasks build.sem build.ph].
  - rewrite app_nil_r. reflexivity.
  - reflexivity.
  - constructor.
  - rewrite length_map. eapply Forall2_length, Hjobs.
  - intros i t Hi. apply list_lookup_fmap_Some in Hi as (body & -> & Hbody).
    destruct (Forall2_lookup_l _ _ _ _ _ Hjobs Hbody) as (j & Hj & Hshape).
    exists j. split; [exact Hj |]. split; [exact Hshape | reflexivity].
  - rewrite Hzero by reflexivity. reflexivity.
  - rewrite Hzero by reflexivity. reflexivity.
  - rewrite Hzero by reflexivity. reflexivity.
  - rewrite Hzero by reflexivity. lia.
  - apply Forall_map, Forall_true. intros body. exact I.
Qed.

(** One task moves on and appends its events to the log. *)
Lemma Inv_update h jobs w0 l i t j t' effs w' n' p' :
  Inv h jobs w0 l ->
  build.tasks l !! i = Some t ->
  jobs !! i = Some j ->
  log w' = log (build.lw l) ++ map (pair (Task i)) effs ->
  dirs w' = dirs (build.lw l) ->
  task_ok j t' (footprint i (added_since w0 l) ++ quiet effs) ->
  length (filter (fun e => is_acquire e = true) (quiet effs)) + b2n (entered t)
    = b2n (entered t') ->
  length (filter (fun e => is_spawn e = true) (quiet effs)) + b2n (entered t)
    = b2n (entered t') ->
  length (filter (fun e => is_release e = true) (quiet effs)) + b2n (left_block t)
    = b2n (left_block t') ->
  n' + b2n (build.is_holding t') = build.sem l + b2n (build.is_holding t) ->
  phase_ok p' (<[i := t']> (build.tasks l)) ->
  Inv h jobs w0 {| build.sem := n'; build.tasks := <[i := t']> (build.tasks l);
                   build.ph := p'; build.lw := w' |}.
Proof.
  intros [Hlog Hdirs Hby Hlen Htasks Hacq Hsp Hrel Hsem Hph] Hi Hj Hlog' Hdirs' Hok
    Ha Hs Hr Hn Hp.
  assert (added_since w0 {| build.sem := n'; build.tasks := <[i := t']> (build.tasks l);
                            build.ph := p'; build.lw := w' |}
          = added_since w0 l ++ map (pair (Task i)) effs) as Hadded.
  { unfold added_since at 1. cbn [build.lw]. rewrite Hlog', Hlog, <- app_assoc.
    rewrite drop_app_length. reflexivity. }
  pose proof (tally_insert_b2n entered _ _ _ t' Hi) as Ta.
  pose proof (tally_insert_b2n left_block _ _ _ t' Hi) as Tl.
  pose proof (tally_insert_b2n build.is_holding _ _ _ t' Hi) as Th.
  split; rewrite ?Hadded; cbn [build.lw build.tasks build.sem build.ph].
  - rewrite Hlog', Hlog, <- app_assoc. reflexivity.
  - congruence.
  - apply Forall_app; split; [exact Hby | apply Forall_by_task].
  - rewrite length_insert. exact Hlen.
  - intros k tk Hk. destruct (decide (i = k)) as [<- | Hne].
    + rewrite list_lookup_insert_eq in Hk by (eapply lookup_lt_Some, Hi).
      simplify_eq. exists j. split; [exact Hj |].
      rewrite footprint_app, footprint_own. exact Hok.
    + rewrite list_lookup_insert_ne in Hk by exact Hne.
      destruct (Htasks k tk Hk) as (jk & Hjk & Hokk). exists jk. split; [exact Hjk |].
      rewrite footprint_app, footprint_other, app_nil_r by exact Hne. exact Hokk.
  - rewrite count_if_app, count_if_quiet by reflexivity. lia.
  - rewrite count_if_app, count_if_quiet by reflexivity. lia.
  - rewrite count_if_app, count_if_quiet by reflexivity. lia.
  - lia.
  - exact Hp.
Qed.

(** Only the phase changes. *)
Lemma Inv_phase h jobs w0 l p' :
  Inv h jobs w0 l ->
  phase_ok p' (build.tasks l) ->
  Inv h jobs w0 {| build.sem := build.sem l; build.tasks := build.tasks l;
                   build.ph := p'; build.lw := build.lw l |}.
Proof. intros [] Hp. split; assumption. Qed.

Lemma forallb_Forall {A} (f : A -> bool) (l : list A) :
  forallb f l = true <-> Forall (fun x => f x = true) l.
Proof.
  induction l as [| x l IH]; cbn [forallb].
  - split; [constructor | reflexivity].
  - rewrite andb_true_iff, IH, Forall_cons. reflexivity.
Qed.

Lemma failed_with_insert_other e ts i t t' :
  failed_with e ts -> ts !! i = Some t -> t ≠ build.Done (Err e) ->
  failed_with e (<[i := t']> ts).
Proof.
  intros [k Hk] Hi Hne. exists k. rewrite list_lookup_insert_ne; [exact Hk |].
  intros ->. congruence.
Qed.

Lemma failed_with_insert_same e ts i t :
  ts !! i = Some t -> failed_with e (<[i := build.Done (Err e)]> ts).
Proof.
  intros Hi. exists i. apply list_lookup_insert_eq. eapply lookup_lt_Some, Hi.
Qed.

(** A task that is still live moves on while the loop accepts wake-ups:
    the phase stays right. *)
Lemma phase_ok_accepting_suspended p ts i t s :
  build.accepting p = true -> phase_ok p ts ->
  ts !! i = Some t -> build.is_live t = true ->
  phase_ok p (<[i := build.Holding s]> ts).
Proof.
  intros Hacc Hp Hi Hlive. destruct p as [| e | e | r]; try discriminate; cbn in *.
  - apply Forall_insert; [exact Hp | exact I].
  - destruct Hp as [Hf Hall]. split.
    + eapply failed_with_insert_other; [exact Hf | exact Hi |].
      intros ->. discriminate.
    + apply Forall_insert; [exact Hall | exact I].
Qed.

Lemma phase_ok_accepting_done p ts i t r :
  build.accepting p = true -> phase_ok p ts ->
  ts !! i = Some t -> build.is_live t = true ->
  phase_ok (build.note r p) (<[i := build.Done r]> ts).
Proof.
  intros Hacc Hp Hi Hlive. destruct p as [| e | e | r0]; try discriminate; cbn in *.
  - destruct r as [a | e]; cbn.
    + apply Forall_insert; [exact Hp | exact I].
    + split; [eapply failed_with_insert_same, Hi |].
      apply Forall_insert; [| exact I].
      eapply Forall_impl; [exact Hp |]. intros [] Hx; done.
  - destruct Hp as [Hf Hall].
    assert (build.note r (build.Failing e) = build.Failing e) as -> by (destruct r; reflexivity).
    split.
    + eapply failed_with_insert_other; [exact Hf | exact Hi |].
      intros ->. discriminate.
    + apply Forall_insert; [exact Hall | exact I].
Qed.

Lemma phase_ok_cancel e ts i t inside :
  failed_with e ts -> ts !! i = Some t -> build.is_live t = true ->
  failed_with e (<[i := build.Cancelled inside]> ts).
Proof.
  intros Hf Hi Hlive. eapply failed_with_insert_other; [exact Hf | exact Hi |].
  intros ->. discriminate.
Qed.

(** Every action of the loop keeps the invariant. *)
Lemma Inv_fire h jobs w0 a l l' :
  Inv h jobs w0 l -> build.fire h a l = Some l' -> Inv h jobs w0 l'.
Proof.
  intros HI Hfire. pose proof HI as [_ _ _ _ Htasks _ _ _ _ Hph].
  destruct a as [i | i | | | i |]; cbn [build.fire] in Hfire.
  - (* Admit *)
    destruct (build.tasks l !! i) as [[body | | |] |] eqn:Hi; try discriminate.
    destruct (build.sem l) as [| n] eqn:Hsem; [discriminate |].
    destruct (build.accepting (build.ph l)) eqn:Hacc; [| discriminate].
    cbn [andb] in Hfire. case_match; [| discriminate]. simplify_eq.
    destruct (Htasks i _ Hi) as (j & Hj & Hshape & Hfp).
    destruct (advance_before h (Task i) _ _ _ body (emit (Task i) Acquire (build.lw l)) Hshape)
      as (effs & Hlog & Hq & Hd & Hres).
    destruct (advance h (Task i) body (emit (Task i) Acquire (build.lw l))) as [[r | s] w'];
      cbn [fst snd build.settle] in *.
    + eapply (Inv_update h jobs w0 l i _ j _ (Acquire :: effs ++ [Release]));
        [exact HI | exact Hi | exact Hj | | | | | | | |].
      * cbn [emit log]. rewrite Hlog. cbn [emit log map]. rewrite map_app, <- !app_assoc.
        reflexivity.
      * cbn [emit dirs]. rewrite Hd. reflexivity.
      * rewrite Hfp, (quiet_cons Acquire), quiet_app, Hq. split; [exact Hres | reflexivity].
      * rewrite (quiet_cons Acquire), quiet_app, Hq. reflexivity.
      * rewrite (quiet_cons Acquire), quiet_app, Hq. reflexivity.
      * rewrite (quiet_cons Acquire), quiet_app, Hq. reflexivity.
      * cbn. lia.
      * eapply phase_ok_accepting_done; [exact Hacc | exact Hph | exact Hi | reflexivity].
    + destruct Hres as [Hs _].
      eapply (Inv_update h jobs w0 l i _ j _ (Acquire :: effs));
        [exact HI | exact Hi | exact Hj | | | | | | | |].
      * rewrite Hlog. cbn [emit log map]. rewrite <- !app_assoc. reflexivity.
      * rewrite Hd. reflexivity.
      * rewrite Hfp, (quiet_cons Acquire), Hq. split; [exact Hs | reflexivity].
      * rewrite (quiet_cons Acquire), Hq. reflexivity.
      * rewrite (quiet_cons Acquire), Hq. reflexivity.
      * rewrite (quiet_cons Acquire), Hq. reflexivity.
      * cbn. lia.
      * eapply phase_ok_accepting_suspended; [exact Hacc | exact Hph | exact Hi | reflexivity].
  - (* Resume *)
    destruct (build.tasks l !! i) as [[| s | |] |] eqn:Hi; try discriminate.
    destruct (build.accepting (build.ph l)) eqn:Hacc; [| discriminate]. simplify_eq.
    destruct (Htasks i _ Hi) as (j & Hj & Hshape & Hfp).
    destruct (advance_after h (Task i) _ (wake h s) (build.lw l) (wake_after h _ s Hshape))
      as (effs & Hlog & Hq & Hd & Hres).
    destruct (advance h (Task i) (wake h s) (build.lw l)) as [[r | s'] w'];
      cbn [fst snd build.settle] in *.
    + eapply (Inv_update h jobs w0 l i _ j _ (effs ++ [Release]));
        [exact HI | exact Hi | exact Hj | | | | | | | |].
      * cbn [emit log]. rewrite Hlog, map_app, <- !app_assoc. reflexivity.
      * cbn [emit dirs]. exact Hd.
      * rewrite Hfp, quiet_app, Hq. split; [exact Hres | reflexivity].
      * rewrite quiet_app, Hq. reflexivity.
      * rewrite quiet_app, Hq. reflexivity.
      * rewrite quiet_app, Hq. reflexivity.
      * cbn. lia.
      * eapply phase_ok_accepting_done; [exact Hacc | exact Hph | exact Hi | reflexivity].
    + destruct Hres as [Hs _].
      eapply (Inv_update h jobs w0 l i _ j _ effs);
        [exact HI | exact Hi | exact Hj | exact Hlog | exact Hd | | | | | |].
      * rewrite Hfp, Hq. split; [exact Hs | reflexivity].
      * rewrite Hq. reflexivity.
      * rewrite Hq. reflexivity.
      * rewrite Hq. reflexivity.
      * cbn. lia.
      * eapply phase_ok_accepting_suspended; [exact Hacc | exact Hph | exact Hi | reflexivity].
  - (* GatherResult *)
    destruct (build.ph l); try discriminate.
    destruct (forallb build.is_done_ok (build.tasks l)) eqn:Hall; [| discriminate].
    simplify_eq. apply Inv_phase; [exact HI |]. cbn. split; [| reflexivity].
    apply forallb_Forall, Hall.
  - (* MainRaise *)
    destruct (build.ph l) as [| e | |] eqn:Hp; try discriminate. simplify_eq.
    apply Inv_phase; [exact HI |]. cbn in *. apply Hph.
  - (* Cancel *)
    destruct (build.ph l) as [| | e |] eqn:Hp; try discriminate.
    destruct (build.tasks l !! i) as [[body | s | |] |] eqn:Hi; try discriminate; simplify_eq.
    + destruct (Htasks i _ Hi) as (j & Hj & Hshape & Hfp).
      eapply (Inv_update h jobs w0 l i _ j _ []);
        [exact HI | exact Hi | exact Hj | | | | | | | |]; try reflexivity.
      * cbn [map]. rewrite app_nil_r. reflexivity.
      * rewrite Hfp. reflexivity.
      * cbn. eapply phase_ok_cancel; [exact Hph | exact Hi | reflexivity].
    + destruct (Htasks i _ Hi) as (j & Hj & Hshape & Hfp).
      eapply (Inv_update h jobs w0 l i _ j _ [Release]);
        [exact HI | exact Hi | exact Hj | | | | | | | |]; try reflexivity.
      * rewrite Hfp. reflexivity.
      * cbn. lia.
      * cbn. eapply phase_ok_cancel; [exact Hph | exact Hi | reflexivity].
  - (* Close *)
    destruct (build.ph l) as [| | e |] eqn:Hp; try discriminate.
    destruct (forallb (fun t => negb (build.is_live t)) (build.tasks l)) eqn:Hall;
      [| discriminate].
    simplify_eq. apply Inv_phase; [exact HI |]. cbn in *. split; [exact Hph |].
    apply forallb_Forall in Hall. eapply Forall_impl; [exact Hall |].
    intros t Ht. apply negb_true_iff in Ht. exact Ht.
Qed.

Lemma Inv_steps h jobs w0 l l' :
  Inv h jobs w0 l -> build.steps h l l' -> Inv h jobs w0 l'.
Proof.
  intros HI Hsteps. induction Hsteps as [| l1 l2 l3 _ IH [a Hfire]]; [exact HI |].
  eapply Inv_fire; [apply IH, HI | exact Hfire].
Qed.

(** ** The tasks of [compile_sources] *)

Lemma zig_shape h opt file out :
  let j := zig_job opt file out in
  before_exec (j_cmd j) (j_piped j) (j_value j)
    (zig_utils.compile_zig_source_async h file (Some out) opt).
Proof.
  cbn. unfold zig_utils.compile_zig_source_async, zig_utils.or_default.
  apply be_say, be_exec. intros p. apply ae_wait. intros p'.
  destruct (zig_utils.returncode_nonzero p'); [| apply ae_ret].
  apply ae_read. intros out'. apply ae_read. intros err.
  repeat apply ae_say. apply ae_raise.
Qed.

Lemma c_cpp_shape h compiler opt file out :
  before_exec (compiler ++ opt ++ [file; "-o"; out]) false out
    (zig_utils.compile_source_c_cpp_async h file compiler (Some out) opt).
Proof.
  unfold zig_utils.compile_source_c_cpp_async, zig_utils.or_default.
  apply be_say, be_exec. intros p.
  destruct (zig_utils.returncode_nonzero p); [apply ae_raise | apply ae_ret].
Qed.

Lemma makedirs_log name exist_ok w r w' : os.makedirs name exist_ok w = (r, w') -> log w' = log w.
Proof. unfold os.makedirs. intros H. repeat (case_match; simplify_eq); reflexivity. Qed.

Lemma translate_to_build_path_log cwd file src bld w r w' :
  utils.translate_to_build_path cwd file src bld w = (r, w') -> log w' = log w.
Proof.
  unfold utils.translate_to_build_path, bind, utils.lift, ret. intros H.
  destruct (posixpath.relpath cwd file src); [| by simplify_eq].
  destruct (os.makedirs _ true w) as [[[] | e] w1] eqn:Hm; simplify_eq;
    eapply makedirs_log, Hm.
Qed.

Lemma translate_to_build_path_zig_log cwd file src bld w r w' :
  utils.translate_to_build_path_zig cwd file src bld w = (r, w') -> log w' = log w.
Proof.
  unfold utils.translate_to_build_path_zig, bind, utils.lift, ret. intros H.
  destruct (posixpath.relpath cwd file src); [| by simplify_eq].
  destruct (os.makedirs _ true w) as [[[] | e] w1] eqn:Hm; simplify_eq;
    eapply makedirs_log, Hm.
Qed.

(** What [mapM] returns, element by element. *)
Lemma mapM_Ok {A B} (f : A -> M B) (P : A -> B -> Prop) l w ys w' :
  (forall x w1 y w2, f x w1 = (Ok y, w2) -> P x y) ->
  mapM f l w = (Ok ys, w') -> Forall2 P l ys.
Proof.
  intros Hf. revert w ys w'. induction l as [| x l IH]; intros w ys w' H; cbn [mapM] in H.
  - unfold ret in H. simplify_eq. constructor.
  - unfold bind, ret in H.
    destruct (f x w) as [[y | e] w1] eqn:Hx; [| discriminate].
    destruct (mapM f l w1) as [[ys' | e] w2] eqn:Hl; [| discriminate].
    simplify_eq. constructor; [eapply Hf, Hx | eapply IH, Hl].
Qed.

Lemma mapM_log {A B} (f : A -> M B) l w r w' :
  (forall x w1 r1 w2, f x w1 = (r1, w2) -> log w2 = log w1) ->
  mapM f l w = (r, w') -> log w' = log w.
Proof.
  intros Hf. revert w r w'. induction l as [| x l IH]; intros w r w' H; cbn [mapM] in H.
  - unfold ret in H. by simplify_eq.
  - unfold bind, ret in H.
    destruct (f x w) as [[y | e] w1] eqn:Hx.
    + apply Hf in Hx.
      destruct (mapM f l w1) as [[ys' | e] w2] eqn:Hl; simplify_eq;
        apply IH in Hl; congruence.
    + simplify_eq. eapply Hf, Hx.
Qed.

Lemma task_log h a opt (mk : host -> build.args -> list string -> string -> M (coro string)) :
  mk = build.zig_task \/ mk = build.c_task \/ mk = build.cpp_task ->
  forall x w1 r1 w2, mk h a opt x w1 = (r1, w2) -> log w2 = log w1.
Proof.
  intros Hmk x w1 r1 w2 H.
  destruct Hmk as [-> | [-> | ->]];
    unfold build.zig_task, build.c_task, build.cpp_task, bind, ret in H.
  - destruct (utils.translate_to_build_path_zig _ _ _ _ w1) as [[out | e] w] eqn:Ht;
      simplify_eq; eapply translate_to_build_path_zig_log, Ht.
  - destruct (utils.translate_to_build_path _ _ _ _ w1) as [[out | e] w] eqn:Ht;
      simplify_eq; eapply translate_to_build_path_log, Ht.
  - destruct (utils.translate_to_build_path _ _ _ _ w1) as [[out | e] w] eqn:Ht;
      simplify_eq; eapply translate_to_build_path_log, Ht.
Qed.

(** Setting the tasks up logs nothing. *)
Lemma compile_sources_tasks_log h a zig c cpp opt w r w' :
  build.compile_sources_tasks h a zig c cpp opt w = (r, w') -> log w' = log w.
Proof.
  unfold build.compile_sources_tasks, bind, ret. intros H.
  destruct (mapM (build.zig_task h a opt) zig w) as [[zs | e] w1] eqn:Hz;
    [| simplify_eq; eapply mapM_log, Hz; apply task_log; auto].
  apply mapM_log in Hz; [| apply task_log; auto].
  destruct (mapM (build.c_task h a opt) c w1) as [[cs | e] w2] eqn:Hc;
    [| simplify_eq; apply mapM_log in Hc; [congruence | apply task_log; auto]].
  apply mapM_log in Hc; [| apply task_log; auto].
  destruct (mapM (build.cpp_task h a opt) cpp w2) as [[ps | e] w3] eqn:Hp;
    [| simplify_eq; apply mapM_log in Hp; [congruence | apply task_log; auto]].
  apply mapM_log in Hp; [| apply task_log; auto].
  simplify_eq. congruence.
Qed.

(** The coroutines [compile_sources] creates have the compile shape, each
    for the job of its file. *)
Lemma compile_sources_tasks_jobs h a zig c cpp opt w bodies w' :
  build.compile_sources_tasks h a zig c cpp opt w = (Ok bodies, w') ->
  exists jobs,
    jobs_for h a opt zig c cpp jobs /\
    Forall2 (fun body j => before_exec (j_cmd j) (j_piped j) (j_value j) body) bodies jobs.
Proof.
  unfold build.compile_sources_tasks, bind, ret. intros H.
  destruct (mapM (build.zig_task h a opt) zig w) as [[zs | e] w1] eqn:Hz; [| discriminate].
  destruct (mapM (build.c_task h a opt) c w1) as [[cs | e] w2] eqn:Hc; [| discriminate].
  destruct (mapM (build.cpp_task h a opt) cpp w2) as [[ps | e] w3] eqn:Hp; [| discriminate].
  simplify_eq.
  apply (mapM_Ok _ (fun file body => exists out,
           returns (utils.translate_to_build_path_zig (getcwd h) file
                      (build.source_dir a) (build.build_dir a)) out /\
           body = zig_utils.compile_zig_source_async h file (Some out) opt)) in Hz.
  2: { intros x w4 y w5 Hx. unfold build.zig_task, bind, ret in Hx.
       destruct (utils.translate_to_build_path_zig _ _ _ _ w4) as [[out | e] w6] eqn:Ht;
         simplify_eq. exists out. split; [eexists _, _; exact Ht | reflexivity]. }
  apply (mapM_Ok _ (fun file body => exists out,
           returns (utils.translate_to_build_path (getcwd h) file
                      (build.source_dir a) (build.build_dir a)) out /\
           body = zig_utils.compile_c_source_async h file (Some out) opt)) in Hc.
  2: { intros x w4 y w5 Hx. unfold build.c_task, bind, ret in Hx.
       destruct (utils.translate_to_build_path _ _ _ _ w4) as [[out | e] w6] eqn:Ht;
         simplify_eq. exists out. split; [eexists _, _; exact Ht | reflexivity]. }
  apply (mapM_Ok _ (fun file body => exists out,
           returns (utils.translate_to_build_path (getcwd h) file
                      (build.source_dir a) (build.build_dir a)) out /\
           body = zig_utils.compile_cpp_source_async h file (Some out) opt)) in Hp.
  2: { intros x w4 y w5 Hx. unfold build.cpp_task, bind, ret in Hx.
       destruct (utils.translate_to_build_path _ _ _ _ w4) as [[out | e] w6] eqn:Ht;
         simplify_eq. exists out. split; [eexists _, _; exact Ht | reflexivity]. }
  clear w w1 w2 w'.
  assert (exists zj, Forall2 (fun file j => exists out,
             returns (utils.translate_to_build_path_zig (getcwd h) file
                        (build.source_dir a) (build.build_dir a)) out /\
             j = zig_job opt file out) zig zj /\
           Forall2 (fun body j => before_exec (j_cmd j) (j_piped j) (j_value j) body) zs zj)
    as (zj & Hzj & Hzs).
  { induction Hz as [| file body zig zs (out & Hout & ->) _ (zj & Hzj & Hzs)].
    - exists []. split; constructor.
    - exists (zig_job opt file out :: zj). split; constructor; eauto. apply zig_shape. }
  assert (exists cj, Forall2 (fun file j => exists out,
             returns (utils.translate_to_build_path (getcwd h) file
                        (build.source_dir a) (build.build_dir a)) out /\
             j = c_job opt file out) c cj /\
           Forall2 (fun body j => before_exec (j_cmd j) (j_piped j) (j_value j) body) cs cj)
    as (cj & Hcj & Hcs).
  { induction Hc as [| file body c cs (out & Hout & ->) _ (cj & Hcj & Hcs)].
    - exists []. split; constructor.
    - exists (c_job opt file out :: cj). split; constructor; eauto. apply c_cpp_shape. }
  assert (exists pj, Forall2 (fun file j => exists out,
             returns (utils.translate_to_build_path (getcwd h) file
                        (build.source_dir a) (build.build_dir a)) out /\
             j = cpp_job opt file out) cpp pj /\
           Forall2 (fun body j => before_exec (j_cmd j) (j_piped j) (j_value j) body) ps pj)
    as (pj & Hpj & Hps).
  { induction Hp as [| file body cpp ps (out & Hout & ->) _ (pj & Hpj & Hps)].
    - exists []. split; constructor.
    - exists (cpp_job opt file out :: pj). split; constructor; eauto. apply c_cpp_shape. }
  exists (zj ++ cj ++ pj). split.
  - exists zj, cj, pj. auto.
  - repeat apply Forall2_app; assumption.
Qed.

(** ** What every run of [compile_sources] satisfies *)

Lemma play_steps h acts l l' : build.play h acts l = Some l' -> build.steps h l l'.
Proof.
  intros Hplay.
  assert (forall l0, build.steps h l0 l -> build.steps h l0 l') as Hgo; [| apply Hgo; constructor].
  revert l Hplay. induction acts as [| a acts IH]; intros l Hplay l0 Hl0; cbn [build.play] in Hplay.
  - by simplify_eq.
  - destruct (build.fire h a l) as [l1 |] eqn:Hfire; [| discriminate].
    eapply IH; [exact Hplay |]. econstructor; [exact Hl0 | exists a; exact Hfire].
Qed.

Lemma compile_loop_Inv h a zig c cpp opt w bodies w1 l :
  build.compile_sources_tasks h a zig c cpp opt w = (Ok bodies, w1) ->
  build.steps h (build.start h bodies w1) l ->
  exists jobs, jobs_for h a opt zig c cpp jobs /\ Inv h jobs w1 l.
Proof.
  intros Htasks Hsteps.
  destruct (compile_sources_tasks_jobs _ _ _ _ _ _ _ _ _ Htasks) as (jobs & Hjobs & Hshape).
  exists jobs. split; [exact Hjobs |].
  eapply Inv_steps; [apply Inv_start, Hshape | exact Hsteps].
Qed.

Lemma results_all_done ts jobs :
  Forall2 (fun t j => forall a, t = build.Done (Ok a) -> a = j_value j) ts jobs ->
  Forall (fun t => build.is_done_ok t = true) ts ->
  build.results ts = map j_value jobs.
Proof.
  induction 1 as [| t j ts jobs Htj _ IH]; intros Hall; [reflexivity |].
  inversion Hall as [| ? ? Ht Hts]; subst.
  destruct t as [| | [v | e] |]; try discriminate.
  unfold build.results in *. cbn [omap map]. rewrite (Htj v eq_refl). cbn.
  f_equal. apply IH, Hts.
Qed.

Lemma Inv_results h jobs w0 l objs :
  Inv h jobs w0 l -> build.ph l = build.Closed (Ok objs) -> objs = map j_value jobs.
Proof.
  intros [_ _ _ Hlen Htasks _ _ _ _ Hph] Hclosed. rewrite Hclosed in Hph.
  destruct Hph as [Hall ->]. apply results_all_done; [| exact Hall].
  apply Forall2_same_length_lookup_2; [exact Hlen |].
  intros i t j Ht Hj v ->. destruct (Htasks i _ Ht) as (j' & Hj' & Hv & _).
  simplify_eq. apply Hv. reflexivity.
Qed.

Lemma map_value_zig opt zig zs (P : string -> string -> Prop) :
  Forall2 (fun file j => exists out, P file out /\ j = zig_job opt file out) zig zs ->
  Forall2 (fun file obj => exists out, P file out /\ obj = out +:+ ".o") zig (map j_value zs).
Proof.
  induction 1 as [| file j zig zs (out & Hout & ->) _ IH]; cbn [map]; constructor; eauto.
Qed.

Lemma map_value_c_cpp (mk : list string -> string -> string -> job) opt files js
    (P : string -> string -> Prop) :
  (forall file out, j_value (mk opt file out) = out) ->
  Forall2 (fun file j => exists out, P file out /\ j = mk opt file out) files js ->
  Forall2 P files (map j_value js).
Proof.
  intros Hmk. induction 1 as [| file j files js (out & Hout & ->) _ IH]; cbn [map];
    constructor; [rewrite Hmk; exact Hout | exact IH].
Qed.

(** C9.  Whenever [compile_sources] returns a list, whatever the order in
    which the tasks were let in, woken and finished, the list is: the
    objects of the Zig files (their translated path with [.o] appended),
    then those of the C files, then those of the C++ files (their
    translated paths), each group in the order of its input list. *)
Theorem C9_results_in_submission_order
    (h : host) (a : build.args) (zig_files c_files cpp_files opt : list string)
    (w w' : world) (objs : list string) :
  build.compile_sources h a zig_files c_files cpp_files opt w (Ok objs, w') ->
  exists zs cs ps,
    objs = zs ++ cs ++ ps /\
    Forall2 (fun file obj => exists out,
               returns (utils.translate_to_build_path_zig (getcwd h) file
                          (build.source_dir a) (build.build_dir a)) out /\
               obj = out +:+ ".o") zig_files zs /\
    Forall2 (fun file obj =>
               returns (utils.translate_to_build_path (getcwd h) file
                          (build.source_dir a) (build.build_dir a)) obj) c_files cs /\
    Forall2 (fun file obj =>
               returns (utils.translate_to_build_path (getcwd h) file
                          (build.source_dir a) (build.build_dir a)) obj) cpp_files ps.
Proof.
  intros Hrun. inversion Hrun as [| bodies w1 l r Htasks Hsteps Hclosed]; subst.
  destruct (compile_loop_Inv _ _ _ _ _ _ _ _ _ _ Htasks Hsteps) as (jobs & Hjobs & HI).
  pose proof (Inv_results _ _ _ _ _ HI Hclosed) as ->.
  destruct Hjobs as (zs & cs & ps & -> & Hz & Hc & Hp).
  exists (map j_value zs), (map j_value cs), (map j_value ps).
  rewrite !map_app. split; [reflexivity |]. split; [| split].
  - apply (map_value_zig opt), Hz.
  - apply (map_value_c_cpp c_job opt); [reflexivity | exact Hc].
  - apply (map_value_c_cpp cpp_job opt); [reflexivity | exact Hp].
Qed.

Lemma C9_witness :
  exists w',
    build.compile_sources quick_compilers default_args
      ["src/main.zig"] ["src/a.c"; "src/b.c"] ["src/c.cpp"] ["-O"; "Debug"] (World ∅ [])
      (Ok ["build/main.o"; "build/a.o"; "build/b.o"; "build/c.o"], w') /\
    exists zs cs ps,
      ["build/main.o"; "build/a.o"; "build/b.o"; "build/c.o"] = zs ++ cs ++ ps /\
      length zs = 1 /\ length cs = 2 /\ length ps = 1.
Proof.
  assert (exists w', build.compile_sources quick_compilers default_args
      ["src/main.zig"] ["src/a.c"; "src/b.c"] ["src/c.cpp"] ["-O"; "Debug"] (World ∅ [])
      (Ok ["build/main.o"; "build/a.o"; "build/b.o"; "build/c.o"], w')) as [w' Hrun].
  { destruct (build.compile_sources_tasks quick_compilers default_args
                ["src/main.zig"] ["src/a.c"; "src/b.c"] ["src/c.cpp"] ["-O"; "Debug"]
                (World ∅ [])) as [[bodies | e] w1] eqn:Htasks;
      [| vm_compute in Htasks; discriminate].
    destruct (build.play quick_compilers out_of_order (build.start quick_compilers bodies w1))
      as [l |] eqn:Hplay.
    - exists (build.lw l). eapply build.cs_loop; [exact Htasks | eapply play_steps, Hplay |].
      vm_compute in Htasks. injection Htasks as <- <-.
      vm_compute in Hplay. injection Hplay as <-. reflexivity.
    - vm_compute in Htasks. injection Htasks as <- <-.
      vm_compute in Hplay. discriminate. }
  exists w'. split; [exact Hrun |].
  destruct (C9_results_in_submission_order _ _ _ _ _ _ _ _ _ Hrun)
    as (zs & cs & ps & Heq & Hz & Hc & Hp).
  exists zs, cs, ps. split; [exact Heq |].
  apply Forall2_length in Hz, Hc, Hp. cbn in *. auto.
Defined.

(** ** Every run comes to an end *)

Lemma note_weight r p : phase_weight (build.note r p) <= phase_weight p.
Proof. destruct r, p; cbn; lia. Qed.

(** Every action uses up some of the work that is left. *)
Lemma fire_weight h jobs w0 a l l' :
  Inv h jobs w0 l -> build.fire h a l = Some l' -> weight h l' < weight h l.
Proof.
  intros [_ _ _ _ Htasks _ _ _ _ _] Hfire. unfold weight.
  destruct a as [i | i | | | i |]; cbn [build.fire] in Hfire.
  - destruct (build.tasks l !! i) as [[body | | |] |] eqn:Hi; try discriminate.
    destruct (build.sem l) as [| n]; [discriminate |].
    destruct (build.accepting (build.ph l)); [| discriminate].
    cbn [andb] in Hfire. case_match; [| discriminate]. simplify_eq.
    destruct (Htasks i _ Hi) as (j & Hj & Hshape & Hfp).
    destruct (advance_before h (Task i) _ _ _ body (emit (Task i) Acquire (build.lw l)) Hshape)
      as (effs & _ & _ & _ & Hres).
    destruct (advance h (Task i) body (emit (Task i) Acquire (build.lw l))) as [[r | s] w'];
      cbn [fst snd build.settle build.ph build.tasks] in *.
    + pose proof (sum_over_insert (task_weight h) _ _ _ (build.Done r) Hi) as Hsum.
      pose proof (note_weight r (build.ph l)). cbn [task_weight] in Hsum. lia.
    + destruct Hres as [_ Hawaits].
      pose proof (sum_over_insert (task_weight h) _ _ _ (build.Holding s) Hi) as Hsum.
      cbn [task_weight] in Hsum. lia.
  - destruct (build.tasks l !! i) as [[| s | |] |] eqn:Hi; try discriminate.
    destruct (build.accepting (build.ph l)); [| discriminate]. simplify_eq.
    destruct (Htasks i _ Hi) as (j & Hj & Hshape & Hfp).
    destruct (advance_after h (Task i) _ (wake h s) (build.lw l) (wake_after h _ s Hshape))
      as (effs & _ & _ & _ & Hres).
    destruct (advance h (Task i) (wake h s) (build.lw l)) as [[r | s'] w'];
      cbn [fst snd build.settle build.ph build.tasks] in *.
    + pose proof (sum_over_insert (task_weight h) _ _ _ (build.Done r) Hi) as Hsum.
      pose proof (note_weight r (build.ph l)). cbn [task_weight] in Hsum. lia.
    + destruct Hres as [_ Hawaits].
      pose proof (sum_over_insert (task_weight h) _ _ _ (build.Holding s') Hi) as Hsum.
      cbn [task_weight] in Hsum. lia.
  - destruct (build.ph l); try discriminate.
    destruct (forallb build.is_done_ok (build.tasks l)); [| discriminate].
    simplify_eq. cbn. lia.
  - destruct (build.ph l); try discriminate. simplify_eq. cbn. lia.
  - destruct (build.ph l); try discriminate.
    destruct (build.tasks l !! i) as [[body | s | |] |] eqn:Hi; try discriminate; simplify_eq;
      cbn [build.ph build.tasks].
    + pose proof (sum_over_insert (task_weight h) _ _ _ (build.Cancelled false) Hi) as Hsum.
      cbn [task_weight] in Hsum. lia.
    + pose proof (sum_over_insert (task_weight h) _ _ _ (build.Cancelled true) Hi) as Hsum.
      cbn [task_weight] in Hsum. lia.
  - destruct (build.ph l); try discriminate.
    destruct (forallb _ (build.tasks l)); [| discriminate]. simplify_eq. cbn. lia.
Qed.

Lemma tally_none f ts : Forall (fun t => f t ≠ true) ts -> tally f ts = 0.
Proof.
  intros Hall. apply sum_over_zero. eapply Forall_impl; [exact Hall |].
  intros t Ht. cbn beta in *. destruct (f t); [by destruct Ht | reflexivity].
Qed.

(** While the loop is not closed, some action is enabled. *)
Lemma loop_progress h jobs w0 l :
  Inv h jobs w0 l -> 1 <= cpu_count h ->
  (forall r, build.ph l ≠ build.Closed r) ->
  exists a l', build.fire h a l = Some l'.
Proof.
  intros [_ _ _ _ _ _ _ _ Hsem Hph] Hcpu Hopen.
  destruct (build.ph l) as [| e | e | r] eqn:Hp; [| | | by destruct (Hopen r)].
  - destruct (list_find (fun t => build.is_holding t = true) (build.tasks l))
      as [[i t] |] eqn:Hhold.
    { apply list_find_Some in Hhold as (Hi & Ht & _).
      destruct t; try discriminate.
      exists (build.Resume i). cbn [build.fire]. rewrite Hi, Hp. eauto. }
    apply list_find_None in Hhold.
    destruct (list_find (fun t => build.is_queued t = true) (build.tasks l))
      as [[i t] |] eqn:Hq.
    { pose proof Hq as Hq'. apply list_find_Some in Hq' as (Hi & Ht & _).
      destruct t; try discriminate.
      rewrite (tally_none _ _ Hhold) in Hsem.
      destruct (build.sem l) as [| n] eqn:Hn; [lia |].
      exists (build.Admit i). cbn [build.fire]. rewrite Hi, Hn, Hp, Hq. cbn.
      rewrite bool_decide_eq_true_2 by reflexivity. eauto. }
    apply list_find_None in Hq.
    exists build.GatherResult. cbn [build.fire]. rewrite Hp.
    assert (forallb build.is_done_ok (build.tasks l) = true) as ->; [| eauto].
    apply forallb_Forall. cbn in Hph.
    pose proof (proj2 (Forall_and _ _) (conj Hph (proj2 (Forall_and _ _) (conj Hhold Hq))))
      as Hall.
    clear Hph Hhold Hq. eapply Forall_impl; [exact Hall |].
    intros [| | [|] |] (H1 & H2 & H3); cbn in *; done.
  - exists build.MainRaise. cbn [build.fire]. rewrite Hp. eauto.
  - destruct (list_find (fun t => build.is_live t = true) (build.tasks l))
      as [[i t] |] eqn:Hlive.
    { apply list_find_Some in Hlive as (Hi & Ht & _).
      exists (build.Cancel i). cbn [build.fire]. rewrite Hp, Hi.
      destruct t; try discriminate; eauto. }
    apply list_find_None in Hlive.
    exists build.Close. cbn [build.fire]. rewrite Hp.
    assert (forallb (fun t => negb (build.is_live t)) (build.tasks l) = true) as ->; [| eauto].
    apply forallb_Forall. eapply Forall_impl; [exact Hlive |].
    intros t Ht. cbn beta in *. destruct (build.is_live t); [by destruct Ht | reflexivity].
Qed.

Lemma steps_first h a l l1 l' :
  build.fire h a l = Some l1 -> build.steps h l1 l' -> build.steps h l l'.
Proof.
  intros Hfire Hsteps. induction Hsteps as [| l2 l3 l4 _ IH Hstep].
  - econstructor; [constructor | exists a; exact Hfire].
  - econstructor; [apply IH, Hfire | exact Hstep].
Qed.

Lemma steps_trans h l1 l2 l3 :
  build.steps h l1 l2 -> build.steps h l2 l3 -> build.steps h l1 l3.
Proof.
  intros H12 H23. induction H23 as [| l2 l3 l4 _ IH Hstep]; [exact H12 |].
  econstructor; [apply IH, H12 | exact Hstep].
Qed.

(** From every state a run reaches, [asyncio.run] can come to its end, and
    it does so after at most [weight] further actions. *)
Lemma closable h jobs w0 l :
  Inv h jobs w0 l -> 1 <= cpu_count h ->
  exists l' r, build.steps h l l' /\ build.ph l' = build.Closed r.
Proof.
  intros HI Hcpu. remember (weight h l) as n eqn:Hn.
  revert l HI Hn. induction n as [n IH] using lt_wf_ind. intros l HI ->.
  destruct (build.ph l) as [| e | e | r] eqn:Hp;
    [| | | exists l, r; split; [constructor | exact Hp]].
  all: destruct (loop_progress h jobs w0 l HI Hcpu) as (a & l1 & Hfire);
    [intros r; congruence |].
  all: destruct (IH (weight h l1) (fire_weight _ _ _ _ _ _ HI Hfire) l1
                   (Inv_fire _ _ _ _ _ _ HI Hfire) eq_refl) as (l' & r & Hsteps & Hclosed).
  all: exists l', r; split; [| exact Hclosed].
  all: eapply steps_first; [exact Hfire | exact Hsteps].
Qed.

(** ** Failing together *)

(** A task that has returned or raised stays as it is. *)
Lemma fire_done_stable h a l l' i r :
  build.fire h a l = Some l' ->
  build.tasks l !! i = Some (build.Done r) -> build.tasks l' !! i = Some (build.Done r).
Proof.
  intros Hfire Hi.
  assert (forall k t n pr, build.tasks l !! k = Some t -> build.is_live t = true ->
            build.tasks (build.settle k pr n l) !! i = Some (build.Done r)) as Hsettle.
  { intros k t n [[r' | s] w'] Hk Hlive; cbn [build.settle build.tasks];
      (rewrite list_lookup_insert_ne; [exact Hi |]); intros ->; simplify_eq; discriminate. }
  destruct a as [k | k | | | k |]; cbn [build.fire] in Hfire.
  - destruct (build.tasks l !! k) as [[body | | |] |] eqn:Hk; try discriminate.
    destruct (build.sem l); [discriminate |]. case_match; [| discriminate].
    simplify_eq. eapply Hsettle; [exact Hk | reflexivity].
  - destruct (build.tasks l !! k) as [[| s | |] |] eqn:Hk; try discriminate.
    case_match; [| discriminate]. simplify_eq. eapply Hsettle; [exact Hk | reflexivity].
  - destruct (build.ph l); try discriminate. case_match; [| discriminate]. by simplify_eq.
  - destruct (build.ph l); try discriminate. by simplify_eq.
  - destruct (build.ph l); try discriminate.
    destruct (build.tasks l !! k) as [[body | s | |] |] eqn:Hk; try discriminate; simplify_eq;
      cbn [build.tasks]; (rewrite list_lookup_insert_ne; [exact Hi |]); intros ->; simplify_eq.
  - destruct (build.ph l); try discriminate. case_match; [| discriminate]. by simplify_eq.
Qed.

Lemma some_failed_steps h l l' : build.steps h l l' -> some_failed l -> some_failed l'.
Proof.
  intros Hsteps. induction Hsteps as [| l1 l2 l3 _ IH [a Hfire]]; [done |].
  intros Hf. destruct (IH Hf) as (i & e & Hi). exists i, e.
  eapply fire_done_stable; [exact Hfire | exact Hi].
Qed.

Lemma Forall_lookup_absurd (P : build.task_state -> Prop) ts i t :
  Forall P ts -> ts !! i = Some t -> ~ P t -> False.
Proof. intros Hall Hi Hn. apply Hn. eapply Forall_lookup_1; [exact Hall | exact Hi]. Qed.

(** Once a task has raised, the future of [gather] holds the exception of
    a task that has raised, or [asyncio.run] has already raised it. *)
Lemma failed_phase h jobs w0 l :
  Inv h jobs w0 l -> some_failed l ->
  exists e, (build.ph l = build.Failing e \/ build.ph l = build.Cancelling e \/
             build.ph l = build.Closed (Err e)) /\
            failed_with e (build.tasks l).
Proof.
  intros [_ _ _ _ _ _ _ _ _ Hph] (i & e & Hi).
  destruct (build.ph l) as [| e0 | e0 | [objs | e0]]; cbn in Hph.
  - exfalso. eapply Forall_lookup_absurd; [exact Hph | exact Hi | auto].
  - exists e0. split; [auto | apply Hph].
  - exists e0. split; [auto | apply Hph].
  - exfalso. destruct Hph as [Hall _].
    eapply Forall_lookup_absurd; [exact Hall | exact Hi | discriminate].
  - exists e0. split; [auto | apply Hph].
Qed.

Lemma closed_failed h jobs w0 l r :
  Inv h jobs w0 l -> some_failed l -> build.ph l = build.Closed r ->
  exists e, r = Err e /\ failed_with e (build.tasks l) /\ all_ended l.
Proof.
  intros HI Hf Hp. destruct (failed_phase _ _ _ _ HI Hf) as (e & Hcases & Hfe).
  destruct Hcases as [H | [H | H]]; rewrite H in Hp; simplify_eq.
  exists e. split; [reflexivity |]. split; [exact Hfe |].
  destruct HI as [_ _ _ _ _ _ _ _ _ Hph]. rewrite H in Hph. apply Hph.
Qed.


(** Replace the tasks, the world and the loop of a concrete run by their
    values, from the equations [Ht] (the tasks) and [Hp] (the schedule). *)
Ltac evaluate_run Ht Hp :=
  vm_compute in Ht; injection Ht as <- <-;
  vm_compute in Hp; injection Hp as <-.

(** Set a concrete run up: the tasks of [compile_sources] as [bodies], the
    world they leave as [w1], and the loop after the schedule [acts] as
    [l], with the equations [Htasks] and [Hplay]. *)
Ltac set_up_run h a zig c cpp opt w acts :=
  let e := fresh "e" in
  destruct (build.compile_sources_tasks h a zig c cpp opt w)
    as [[bodies | e] w1] eqn:Htasks; [| vm_compute in Htasks; discriminate];
  destruct (build.play h acts (build.start h bodies w1)) as [l |] eqn:Hplay;
    [| vm_compute in Htasks; injection Htasks as <- <-; vm_compute in Hplay; discriminate].



(** ** Invocations, the gate and the permits *)

Lemma tally_le_length f ts : tally f ts <= length ts.
Proof.
  unfold tally. induction ts as [| t ts IH]; cbn [sum_over length]; [lia |].
  destruct (f t); lia.
Qed.

Lemma tally_all f ts : Forall (fun t => f t = true) ts -> tally f ts = length ts.
Proof.
  unfold tally. induction 1 as [| t ts Ht _ IH]; cbn [sum_over length]; [reflexivity |].
  rewrite Ht, IH. reflexivity.
Qed.

(** The tasks let in so far are those that have left the block and those
    inside it. *)
Lemma tally_entered ts :
  tally entered ts = tally left_block ts + tally build.is_holding ts.
Proof.
  unfold tally. induction ts as [| t ts IH]; cbn [sum_over]; [reflexivity |].
  rewrite IH. destruct t as [| | | []]; cbn; lia.
Qed.

Lemma jobs_for_length h a opt zig c cpp jobs :
  jobs_for h a opt zig c cpp jobs -> length jobs = length zig + length c + length cpp.
Proof.
  intros (zs & cs & ps & -> & Hz & Hc & Hp).
  apply Forall2_length in Hz, Hc, Hp. rewrite !length_app. lia.
Qed.

Lemma Inv_footprint h jobs w0 l i j :
  Inv h jobs w0 l -> jobs !! i = Some j ->
  exists t, build.tasks l !! i = Some t /\ task_ok j t (footprint i (added_since w0 l)).
Proof.
  intros [_ _ _ Hlen Hts _ _ _ _ _] Hj.
  destruct (lookup_lt_is_Some_2 (build.tasks l) i) as [t Ht].
  { rewrite Hlen. eapply lookup_lt_Some, Hj. }
  destruct (Hts i t Ht) as (j' & Hj' & Hok). simplify_eq. eauto.
Qed.

(** C3, as the code has it.  At every point of every run of the loop over
    N source files: each task has so far done nothing, or taken the permit
    and launched the command of its file, or done both and given the permit
    back, so that no compiler is invoked twice and at most N are invoked;
    the permits out (taken and not given back) are never more than the CPU
    count; and when [asyncio.run] has ended, every permit taken has been
    given back once, whether the task returned, raised or was cancelled.
    When it ends by returning the list, exactly N compilers were invoked,
    one per file. *)
Theorem C3_invocations_gate_and_permits
    (h : host) (a : build.args) (zig_files c_files cpp_files opt : list string)
    (w w1 : world) (bodies : list (coro string)) (l : build.loop) :
  build.compile_sources_tasks h a zig_files c_files cpp_files opt w = (Ok bodies, w1) ->
  build.steps h (build.start h bodies w1) l ->
  let added := added_since w1 l in
  let N := length zig_files + length c_files + length cpp_files in
  exists jobs,
    jobs_for h a opt zig_files c_files cpp_files jobs /\ length jobs = N /\
    (forall i j, jobs !! i = Some j ->
       footprint i added = [] \/
       footprint i added = [Acquire; Spawn (j_cmd j) (j_piped j)] \/
       footprint i added = [Acquire; Spawn (j_cmd j) (j_piped j); Release]) /\
    count_if is_spawn added <= N /\
    count_if is_release added <= count_if is_acquire added /\
    count_if is_acquire added - count_if is_release added <= cpu_count h /\
    (forall r, build.ph l = build.Closed r ->
       count_if is_release added = count_if is_acquire added /\
       build.sem l = cpu_count h /\
       forall i j, jobs !! i = Some j ->
         footprint i added = [] \/
         footprint i added = [Acquire; Spawn (j_cmd j) (j_piped j); Release]) /\
    (forall objs, build.ph l = build.Closed (Ok objs) ->
       count_if is_spawn added = N /\
       forall i j, jobs !! i = Some j ->
         footprint i added = [Acquire; Spawn (j_cmd j) (j_piped j); Release]).
Proof.
  intros Htasks Hsteps added N.
  destruct (compile_loop_Inv _ _ _ _ _ _ _ _ _ _ Htasks Hsteps) as (jobs & Hjobs & HI).
  pose proof (jobs_for_length _ _ _ _ _ _ _ Hjobs) as HN. fold N in HN.
  pose proof HI as [_ _ _ Hlen _ Hacq Hsp Hrel Hsem Hph]. fold added in Hacq, Hsp, Hrel.
  pose proof (tally_entered (build.tasks l)) as Hsplit.
  pose proof (tally_le_length entered (build.tasks l)) as Hle.
  exists jobs. split; [exact Hjobs |]. split; [exact HN |].
  split; [| split; [| split; [| split; [| split]]]].
  - intros i j Hj. destruct (Inv_footprint _ _ _ _ _ _ HI Hj) as (t & _ & Hok).
    fold added in Hok. destruct t as [| | | []]; cbn in Hok; intuition.
  - lia.
  - lia.
  - lia.
  - intros r Hclosed.
    assert (Forall (fun t => build.is_live t = false) (build.tasks l)) as Hend.
    { rewrite Hclosed in Hph. destruct r as [objs | e]; cbn in Hph; [| apply Hph].
      destruct Hph as [Hall _]. eapply Forall_impl; [exact Hall |].
      intros [| | [] |]; cbn; congruence. }
    assert (tally build.is_holding (build.tasks l) = 0) as Hnone.
    { apply tally_none. eapply Forall_impl; [exact Hend |].
      intros [| | |]; cbn; congruence. }
    split; [lia |]. split; [lia |].
    intros i j Hj. destruct (Inv_footprint _ _ _ _ _ _ HI Hj) as (t & Ht & Hok).
    fold added in Hok.
    pose proof (Forall_lookup_1 _ _ _ _ Hend Ht) as Hlive.
    destruct t as [| | | []]; cbn in Hok, Hlive; try discriminate; intuition.
  - intros objs Hclosed. rewrite Hclosed in Hph. destruct Hph as [Hall _]. split.
    + rewrite Hsp, tally_all; [lia |].
      eapply Forall_impl; [exact Hall |]. intros [| | [] |]; cbn; congruence.
    + intros i j Hj. destruct (Inv_footprint _ _ _ _ _ _ HI Hj) as (t & Ht & Hok).
      fold added in Hok.
      pose proof (Forall_lookup_1 _ _ _ _ Hall Ht) as Hdone.
      destruct t as [| | [] |]; cbn in Hok, Hdone; try discriminate; intuition.
Qed.

(** C3, the claim as stated fails.  One CPU, three C++ files, the compiler
    of the first exits with status 1.  When [asyncio.run] has ended two
    compilers have been invoked, not three: the third task was cancelled in
    the queue. *)
Lemma C3_counterexample_fewer_invocations :
  exists bodies w1 l,
    build.compile_sources_tasks (one_cpu_failing "src/x.cpp") default_args
      [] [] three_cpp_files ["-O"; "Debug"] (World ∅ []) = (Ok bodies, w1) /\
    build.steps (one_cpu_failing "src/x.cpp")
      (build.start (one_cpu_failing "src/x.cpp") bodies w1) l /\
    build.ph l = build.Closed (Err (RuntimeError "Compilation failed for src/x.cpp")) /\
    length three_cpp_files = 3 /\
    count_if is_spawn (added_since w1 l) = 2 /\
    footprint 2 (added_since w1 l) = [].
Proof.
  set_up_run (one_cpu_failing "src/x.cpp") default_args (@nil string) (@nil string)
             three_cpp_files ["-O"; "Debug"] (World ∅ []) first_fails_of_three.
  exists bodies, w1, l. split; [reflexivity |]. split; [exact (play_steps _ _ _ _ Hplay) |].
  evaluate_run Htasks Hplay. repeat split; reflexivity.
Qed.

Lemma C3_witness :
  exists bodies w1 l,
    build.compile_sources_tasks quick_compilers default_args
      ["src/main.zig"] ["src/a.c"; "src/b.c"] ["src/c.cpp"] ["-O"; "Debug"] (World ∅ [])
      = (Ok bodies, w1) /\
    build.steps quick_compilers (build.start quick_compilers bodies w1) l /\
    build.ph l = build.Closed (Ok ["build/main.o"; "build/a.o"; "build/b.o"; "build/c.o"]) /\
    count_if is_spawn (added_since w1 l) = 4 /\
    count_if is_release (added_since w1 l) = count_if is_acquire (added_since w1 l) /\
    build.sem l = 2.
Proof.
  set_up_run quick_compilers default_args ["src/main.zig"] ["src/a.c"; "src/b.c"]
             ["src/c.cpp"] ["-O"; "Debug"] (World ∅ []) out_of_order.
  assert (build.ph l = build.Closed (Ok ["build/main.o"; "build/a.o"; "build/b.o"; "build/c.o"]))
    as Hclosed by (clear - Htasks Hplay; evaluate_run Htasks Hplay; reflexivity).
  destruct (C3_invocations_gate_and_permits quick_compilers default_args
              ["src/main.zig"] ["src/a.c"; "src/b.c"] ["src/c.cpp"] ["-O"; "Debug"]
              (World ∅ []) w1 bodies l Htasks (play_steps _ _ _ _ Hplay))
    as (jobs & _ & _ & _ & _ & _ & _ & Hend & Hok).
  destruct (Hend _ Hclosed) as (Hrel & Hsem & _). destruct (Hok _ Hclosed) as [Hn _].
  exists bodies, w1, l. split; [reflexivity |]. split; [exact (play_steps _ _ _ _ Hplay) |].
  split; [exact Hclosed |]. split; [exact Hn |]. split; [exact Hrel | exact Hsem].
Defined.

(** ** Linking comes last *)

Lemma since_app w w' evs : log w' = log w ++ evs -> since w w' = evs.
Proof. intros H. unfold since. rewrite H. apply drop_app_length. Qed.

Lemma by_task_not_link evs :
  Forall (fun ev => by_task ev = true) evs -> Forall (fun ev => is_link ev = false) evs.
Proof.
  intros H. eapply Forall_impl; [exact H |]. intros [[| i] e] Hev; [discriminate | reflexivity].
Qed.

Lemma run_check_log h cmd capture w :
  log (subprocess.run_check h Main cmd capture w).2 = log w ++ [(Main, Spawn cmd capture)].
Proof. unfold subprocess.run_check. repeat case_match; reflexivity. Qed.

(** The library detection launches [pkg-config] only. *)
Lemma init_sdl2_log h w :
  exists evs, log (sdl.init_sdl2 h w).2 = log w ++ evs /\
              Forall (fun ev => is_link ev = false) evs.
Proof.
  unfold sdl.init_sdl2, pkg_config_utils.pkg_config_exists,
    pkg_config_utils.get_pkg_config_cflags, subprocess.except_CalledProcessError, bind, ret,
    raise.
  pose proof (run_check_log h ["pkg-config"; "--exists"; "sdl2"] false w) as H1.
  destruct (subprocess.run_check h Main ["pkg-config"; "--exists"; "sdl2"] false w)
    as [[cp | e] w1]; cbn [snd] in H1.
  - cbn [negb].
    pose proof (run_check_log h ["pkg-config"; "--cflags"; "--libs"; "sdl2"] true w1) as H2.
    destruct (subprocess.run_check h Main ["pkg-config"; "--cflags"; "--libs"; "sdl2"] true w1)
      as [[cp2 | e2] w2]; cbn [snd] in H2.
    + eexists. cbn [snd]. rewrite H2, H1, <- app_assoc. split; [reflexivity |].
      repeat constructor.
    + eexists. destruct e2; cbn [snd]; rewrite H2, H1, <- app_assoc;
        (split; [reflexivity | repeat constructor]).
  - eexists. destruct e; cbn [snd negb]; rewrite H1; (split; [reflexivity | repeat constructor]).
Qed.

Lemma configure_log h pf a w :
  exists evs, log (build.configure h pf a w).2 = log w ++ evs /\
              Forall (fun ev => is_link ev = false) evs.
Proof.
  unfold build.configure, bind, ret, raise.
  destruct (utils.ensure_dir (build.build_dir a) w) as [[[] | e] w1] eqn:Hens;
    apply ensure_dir_log in Hens.
  - destruct (build.select_platform h pf a) as [flags |].
    + destruct (init_sdl2_log h w1) as (evs & Hlog & Hevs). exists evs.
      destruct (sdl.init_sdl2 h w1) as [[found_flags | e] w2]; cbn [snd] in *;
        rewrite Hlog, Hens; auto.
    + exists []. cbn [snd]. rewrite Hens, app_nil_r. auto.
  - exists []. cbn [snd]. rewrite Hens, app_nil_r. auto.
Qed.

Lemma Forall_Exists_link evs :
  Forall (fun ev => is_link ev = false) evs -> Exists (fun ev => is_link ev = true) evs -> False.
Proof.
  intros Hall Hex. apply Exists_exists in Hex as (ev & Hin & Hev).
  rewrite Forall_forall in Hall. specialize (Hall ev Hin). congruence.
Qed.

(** What the script has logged when the loop of [compile_sources] is at
    [l]: the library detection, then events of the tasks; no link. *)
Lemma no_link_before_closing h pf a w opt w1 zig c cpp bodies w2 jobs l :
  build.configure h pf a w = (Ok opt, w1) ->
  build.compile_sources_tasks h a zig c cpp opt w1 = (Ok bodies, w2) ->
  Inv h jobs w2 l ->
  Forall (fun ev => is_link ev = false) (since w (build.lw l)).
Proof.
  intros Hcfg Htasks [Hlog _ Hby _ _ _ _ _ _ _].
  destruct (configure_log h pf a w) as (evs & Hcl & Hevs). rewrite Hcfg in Hcl. cbn [snd] in Hcl.
  apply compile_sources_tasks_log in Htasks.
  rewrite (since_app w (build.lw l) (evs ++ added_since w2 l)).
  - apply Forall_app. split; [exact Hevs | apply by_task_not_link, Hby].
  - rewrite Hlog, Htasks, Hcl, <- app_assoc. reflexivity.
Qed.

(** C4.  (1) Once a compile task of the script has raised, every way the
    loop can end makes [compile_sources] raise, the script ends with that
    exception, and nothing it has logged is a launch of the linker; with at
    least one CPU the loop does end.  (2) Whenever the script has launched
    the linker, the loop had closed by returning the list, every task in it
    had returned its object, and nothing logged up to that point was a
    launch of the linker: the link comes after all the compile tasks. *)
Theorem C4_link_only_after_all_compiled
    (h : host) (pf : build.platforms) (a : build.args) (w : world) :
  (forall opt w1 bodies w2 l,
     build.configure h pf a w = (Ok opt, w1) ->
     build.compile_sources_tasks h a (build.zig_files a) (build.c_files h a)
       (build.cpp_files h a) opt w1 = (Ok bodies, w2) ->
     build.steps h (build.start h bodies w2) l ->
     some_failed l ->
     (1 <= cpu_count h ->
      exists l' e, build.steps h l l' /\ build.ph l' = build.Closed (Err e)) /\
     (forall l' r, build.steps h l l' -> build.ph l' = build.Closed r ->
        exists e, r = Err e /\
                  build.script h pf a w (Err e, build.lw l') /\
                  Forall (fun ev => is_link ev = false) (since w (build.lw l')))) /\
  (forall out,
     build.script h pf a w out ->
     Exists (fun ev => is_link ev = true) (since w out.2) ->
     exists opt w1 bodies w2 l objs,
       build.configure h pf a w = (Ok opt, w1) /\
       build.compile_sources_tasks h a (build.zig_files a) (build.c_files h a)
         (build.cpp_files h a) opt w1 = (Ok bodies, w2) /\
       build.steps h (build.start h bodies w2) l /\
       build.ph l = build.Closed (Ok objs) /\
       Forall (fun t => build.is_done_ok t = true) (build.tasks l) /\
       Forall (fun ev => is_link ev = false) (since w (build.lw l)) /\
       out = build.link h a objs opt (build.lw l)).
Proof.
  split.
  - intros opt w1 bodies w2 l Hcfg Htasks Hsteps Hfailed.
    destruct (compile_loop_Inv _ _ _ _ _ _ _ _ _ _ Htasks Hsteps) as (jobs & _ & HI).
    split.
    + intros Hcpu. destruct (closable _ _ _ _ HI Hcpu) as (l' & r & Hl' & Hclosed).
      destruct (closed_failed h jobs w2 l' r) as (e & -> & _);
        [eapply Inv_steps; eassumption | eapply some_failed_steps; eassumption
        | exact Hclosed |].
      exists l', e. auto.
    + intros l' r Hl' Hclosed.
      assert (Inv h jobs w2 l') as HI' by (eapply Inv_steps; eassumption).
      destruct (closed_failed h jobs w2 l' r HI') as (e & -> & _);
        [eapply some_failed_steps; eassumption | exact Hclosed |].
      exists e. split; [reflexivity |]. split.
      * eapply build.script_uncompiled; [exact Hcfg |].
        eapply build.cs_loop; [exact Htasks | eapply steps_trans; eassumption | exact Hclosed].
      * eapply no_link_before_closing; eassumption.
  - intros out Hrun Hlink.
    destruct (configure_log h pf a w) as (evs & Hcl & Hevs).
    inversion Hrun as [e w1 Hcfg | opt w1 e w2 Hcfg Hcs | opt w1 objs w2 Hcfg Hcs]; subst;
      rewrite Hcfg in Hcl; cbn [snd] in *.
    + exfalso. rewrite (since_app _ _ _ Hcl) in Hlink. eapply Forall_Exists_link; eassumption.
    + exfalso.
      inversion Hcs as [e' w' Htasks | bodies w' l r Htasks Hsteps Hclosed]; subst.
      * apply compile_sources_tasks_log in Htasks.
        rewrite (since_app w w2 evs) in Hlink by congruence.
        eapply Forall_Exists_link; eassumption.
      * destruct (compile_loop_Inv _ _ _ _ _ _ _ _ _ _ Htasks Hsteps) as (jobs & _ & HI).
        eapply Forall_Exists_link; [| exact Hlink].
        eapply no_link_before_closing; eassumption.
    + inversion Hcs as [| bodies w' l r Htasks Hsteps Hclosed]; subst.
      destruct (compile_loop_Inv _ _ _ _ _ _ _ _ _ _ Htasks Hsteps) as (jobs & _ & HI).
      exists opt, w1, bodies, w', l, objs.
      repeat (split; [first [assumption | reflexivity] |]).
      split.
      * destruct HI as [_ _ _ _ _ _ _ _ _ Hph]. rewrite Hclosed in Hph. apply Hph.
      * split; [eapply no_link_before_closing; eassumption | reflexivity].
Qed.

Lemma C4_witness :
  (exists e w',
     build.script one_bad_c_file no_platforms default_args (World ∅ []) (Err e, w') /\
     Forall (fun ev => is_link ev = false) (since (World ∅ []) w')) /\
  (exists out l objs,
     build.script quick_compilers no_platforms default_args (World ∅ []) out /\
     Exists (fun ev => is_link ev = true) (since (World ∅ []) out.2) /\
     build.ph l = build.Closed (Ok objs) /\
     Forall (fun t => build.is_done_ok t = true) (build.tasks l)).
Proof.
  split.
  - destruct (C4_link_only_after_all_compiled one_bad_c_file no_platforms default_args
                (World ∅ [])) as [Hfail _].
    destruct (build.configure one_bad_c_file no_platforms default_args (World ∅ []))
      as [[opt | e] w1] eqn:Hcfg; [| vm_compute in Hcfg; discriminate].
    pose proof Hcfg as Hcfg'. vm_compute in Hcfg. injection Hcfg as <- <-.
    destruct (build.compile_sources_tasks one_bad_c_file default_args
                (build.zig_files default_args) (build.c_files one_bad_c_file default_args)
                (build.cpp_files one_bad_c_file default_args) ["-O"; "Debug"]
                (build.configure one_bad_c_file no_platforms default_args (World ∅ [])).2)
      as [[bodies | e] w2] eqn:Htasks; [| vm_compute in Htasks; discriminate].
    destruct (build.play one_bad_c_file zig_then_c (build.start one_bad_c_file bodies w2))
      as [l |] eqn:Hplay;
      [| vm_compute in Htasks; injection Htasks as <- <-; vm_compute in Hplay; discriminate].
    assert (some_failed l) as Hfailed.
    { exists 1, (RuntimeError "Compilation failed for src/a.c").
      clear - Htasks Hplay. evaluate_run Htasks Hplay. reflexivity. }
    rewrite Hcfg' in Htasks. cbn [snd] in Htasks.
    destruct (Hfail _ _ _ _ _ Hcfg' Htasks (play_steps _ _ _ _ Hplay) Hfailed)
      as [Hends Hall].
    destruct (Hends (le_n 1)) as (l' & e & Hl' & Hclosed).
    destruct (Hall l' _ Hl' Hclosed) as (e' & Heq & Hscript & Hnolink).
    exists e', (build.lw l'). split; [exact Hscript | exact Hnolink].
  - destruct (C4_link_only_after_all_compiled quick_compilers no_platforms default_args
                (World ∅ [])) as [_ Hlinked].
    destruct (build.configure quick_compilers no_platforms default_args (World ∅ []))
      as [[opt | e] w1] eqn:Hcfg; [| vm_compute in Hcfg; discriminate].
    pose proof Hcfg as Hcfg'. vm_compute in Hcfg. injection Hcfg as <- <-.
    destruct (build.compile_sources_tasks quick_compilers default_args
                (build.zig_files default_args) (build.c_files quick_compilers default_args)
                (build.cpp_files quick_compilers default_args) ["-O"; "Debug"]
                (build.configure quick_compilers no_platforms default_args (World ∅ [])).2)
      as [[bodies | e] w2] eqn:Htasks; [| vm_compute in Htasks; discriminate].
    destruct (build.play quick_compilers zig_alone (build.start quick_compilers bodies w2))
      as [l |] eqn:Hplay;
      [| vm_compute in Htasks; injection Htasks as <- <-; vm_compute in Hplay; discriminate].
    assert (build.ph l = build.Closed (Ok ["build/main.o"]) /\
            since (World ∅ [])
              (build.link quick_compilers default_args ["build/main.o"] ["-O"; "Debug"]
                 (build.lw l)).2
            = [(Main, Spawn ["pkg-config"; "--exists"; "sdl2"] false);
               (Main, Spawn ["pkg-config"; "--cflags"; "--libs"; "sdl2"] true);
               (Task 0, Acquire);
               (Task 0, Print "Compile: src/main.zig -> build/main.o");
               (Task 0, Spawn ["zig"; "build-obj"; "-O"; "Debug"; "src/main.zig";
                               "-femit-bin=build/main"] true);
               (Task 0, Release);
               (Main, Print "Compile: build/main.o -> build/app");
               (Main, Spawn ["zig"; "build-exe"; "-femit-bin=build/app"; "build/main.o";
                             "-O"; "Debug"] true)]) as [Hclosed Hlog].
    { clear - Htasks Hplay. evaluate_run Htasks Hplay. split; vm_compute; reflexivity. }
    rewrite Hcfg' in Htasks. cbn [snd] in Htasks.
    assert (build.script quick_compilers no_platforms default_args (World ∅ [])
              (build.link quick_compilers default_args ["build/main.o"] ["-O"; "Debug"]
                 (build.lw l))) as Hscript.
    { eapply build.script_linked; [exact Hcfg' |].
      eapply build.cs_loop; [exact Htasks | exact (play_steps _ _ _ _ Hplay) | exact Hclosed]. }
    assert (Exists (fun ev => is_link ev = true)
              (since (World ∅ [])
                 (build.link quick_compilers default_args ["build/main.o"] ["-O"; "Debug"]
                    (build.lw l)).2)) as Hex.
    { rewrite Hlog. do 7 apply Exists_cons_tl. apply Exists_cons_hd. reflexivity. }
    destruct (Hlinked _ Hscript Hex)
      as (opt & w1' & bodies' & w2' & l' & objs & _ & _ & _ & Hok & Hdone & _).
    exists (build.link quick_compilers default_args ["build/main.o"] ["-O"; "Debug"]
              (build.lw l)), l', objs.
    split; [exact Hscript |]. split; [exact Hex |]. split; [exact Hok | exact Hdone].
Defined.

(** * Further properties of the helpers *)

(** ** Compile tasks run alone *)

(** X1.  The C/C++ compile task returns its output path exactly when the child
    was already reaped on return from [create_subprocess_exec] and exited
    with status 0; otherwise it raises the compilation error.  Either way it
    prints the [Compile:] line and launches the compiler once, without
    pipes. *)
Theorem c_cpp_task_outcome
    (h : host) (who : actor) (file_path : string) (compiler : list string)
    (output_file : string) (option : list string) (w : world) :
  let cmd := compiler ++ option ++ [file_path; "-o"; output_file] in
  let r := run_alone h who
             (zig_utils.compile_source_c_cpp_async h file_path compiler (Some output_file) option)
             w in
  found (run h cmd) = true ->
  (r.1 = Ok output_file <->
     reaped_at_spawn (run h cmd) = true /\ exit_code (run h cmd) = 0%Z) /\
  (r.1 = Ok output_file \/ r.1 = Err (RuntimeError ("Compilation failed for " +:+ file_path))) /\
  log r.2 = log w ++ [(who, Print (Py.join " " ["Compile:"; file_path; "->"; output_file]));
                      (who, Spawn cmd false)] /\
  dirs r.2 = dirs w.
Proof.
  intros cmd r Hfound. subst r.
  unfold zig_utils.compile_source_c_cpp_async, zig_utils.or_default.
  fold cmd. cbn [run_alone]. rewrite Hfound. cbn [wake].
  destruct (reaped_at_spawn (run h cmd)).
  - rewrite returncode_nonzero_Some.
    destruct (decide (exit_code (run h cmd) = 0%Z)) as [Hz | Hnz].
    + rewrite (bool_decide_eq_false_2 _ (fun H => H Hz)). cbn [run_alone fst snd emit log dirs].
      rewrite <- app_assoc. split; [split; auto |]. split; [by left |]. split; reflexivity.
    + rewrite (bool_decide_eq_true_2 _ Hnz). cbn [run_alone fst snd emit log dirs].
      rewrite <- app_assoc. split; [split; [intros [=] | intros [_ Hz]; done] |].
      split; [by right |]. split; reflexivity.
  - rewrite returncode_nonzero_None. cbn [run_alone fst snd emit log dirs].
    rewrite <- app_assoc. split; [split; [intros [=] | intros [[=] _]] |].
    split; [by right |]. split; reflexivity.
Qed.

Lemma c_cpp_task_outcome_witness :
  (run_alone quick_compilers Main
     (zig_utils.compile_cpp_source_async quick_compilers "src/ui/menu.cpp"
        (Some "build/ui/menu.o") ["-O"; "Debug"]) (World ∅ [])).1
  = Ok "build/ui/menu.o".
Proof.
  destruct (c_cpp_task_outcome quick_compilers Main "src/ui/menu.cpp" zig_utils.cxx_compiler
              "build/ui/menu.o" ["-O"; "Debug"] (World ∅ []) eq_refl) as [Hiff _].
  apply Hiff. split; reflexivity.
Defined.



(** ** Library detection, the other paths *)


Lemma run_check_missing h who cmd capture w :
  found (run h cmd) = false ->
  subprocess.run_check h who cmd capture w
  = (Err (FileNotFoundError (Py.item0 cmd)), emit who (Spawn cmd capture) w).
Proof. intros Hf. unfold subprocess.run_check. rewrite Hf. reflexivity. Qed.










(** X5.  When the [pkg-config] executable itself is missing, the existence check
    does not answer [False]: the [FileNotFoundError] of the launch is not
    caught, and [init_sdl2] raises it instead of its "SDL2 not found"
    error. *)
Theorem missing_pkg_config_raises (h : host) (w : world) :
  found (run h sdl2_query) = false ->
  pkg_config_utils.pkg_config_exists h "sdl2" w
  = (Err (FileNotFoundError "pkg-config"), emit Main (Spawn sdl2_query false) w) /\
  sdl.init_sdl2 h w
  = (Err (FileNotFoundError "pkg-config"), emit Main (Spawn sdl2_query false) w).
Proof.
  intros Hf. unfold sdl2_query in *.
  assert (pkg_config_utils.pkg_config_exists h "sdl2" w
          = (Err (FileNotFoundError "pkg-config"),
             emit Main (Spawn ["pkg-config"; "--exists"; "sdl2"] false) w)) as He.
  { unfold pkg_config_utils.pkg_config_exists, subprocess.except_CalledProcessError, bind.
    rewrite (run_check_missing h Main _ false w Hf). reflexivity. }
  split; [exact He |]. unfold sdl.init_sdl2, bind. rewrite He. reflexivity.
Qed.

Lemma missing_pkg_config_raises_witness :
  sdl.init_sdl2 no_pkg_config (World ∅ [])
  = (Err (FileNotFoundError "pkg-config"),
     World ∅ [(Main, Spawn ["pkg-config"; "--exists"; "sdl2"] false)]).
Proof. apply (missing_pkg_config_raises no_pkg_config (World ∅ []) eq_refl). Defined.

(** ** The optimisation level *)

(** X6.  [set_optimization_level] accepts exactly the four level names; after an
    accepted call [get_optimization_level] returns that level; a refused
    call raises [ValueError] and leaves the level as it was; and before any
    accepted call [get_optimization_level] raises [NameError].  The level
    names are case-sensitive: the [--mode] values [debug] and [release] of
    the command line are refused, while the level that [platform.flags] puts
    after [-O] is always accepted. *)
Theorem optimization_level_set_get (level : string) (g : option string) :
  ((zig_level.set_optimization_level level g).1 = Ok tt <->
     level ∈ ["Debug"; "ReleaseSafe"; "ReleaseFast"; "ReleaseSmall"]) /\
  ((zig_level.set_optimization_level level g).1 = Ok tt ->
     zig_level.get_optimization_level (zig_level.set_optimization_level level g).2
     = (Ok level, Some level)) /\
  ((zig_level.set_optimization_level level g).1 ≠ Ok tt ->
     zig_level.set_optimization_level level g
     = (Err (ValueError "Invalid optimization level"), g)) /\
  zig_level.get_optimization_level None = (Err (NameError "opt_level"), None) /\
  (zig_level.set_optimization_level "debug" g).1 = Err (ValueError "Invalid optimization level") /\
  (zig_level.set_optimization_level "release" g).1
    = Err (ValueError "Invalid optimization level") /\
  (forall mode target,
     exists accepted rest,
       windows.flags mode target = "-O" :: accepted :: rest /\
       (zig_level.set_optimization_level accepted g).1 = Ok tt).
Proof.
  unfold zig_level.set_optimization_level.
  change zig_level.levels with ["Debug"; "ReleaseSafe"; "ReleaseFast"; "ReleaseSmall"].
  split; [| split; [| split; [| split; [| split; [| split]]]]].
  - destruct (bool_decide (level ∈ _)) eqn:Hin; cbn [fst].
    + apply bool_decide_eq_true in Hin. tauto.
    + apply bool_decide_eq_false in Hin. split; [intros [=] | tauto].
  - destruct (bool_decide (level ∈ _)); cbn [fst snd]; [reflexivity | intros [=]].
  - destruct (bool_decide (level ∈ _)); cbn [fst snd]; [intros H; by destruct H | reflexivity].
  - reflexivity.
  - reflexivity.
  - reflexivity.
  - intros mode target. unfold windows.flags.
    destruct (bool_decide (mode = "debug")); eexists _, _; split; reflexivity.
Qed.

Lemma optimization_level_set_get_witness :
  zig_level.get_optimization_level (zig_level.set_optimization_level "ReleaseFast" None).2
  = (Ok "ReleaseFast", Some "ReleaseFast") /\
  zig_level.set_optimization_level "Fastest" (Some "Debug")
  = (Err (ValueError "Invalid optimization level"), Some "Debug").
Proof.
  destruct (optimization_level_set_get "ReleaseFast" None) as (_ & Hget & _).
  destruct (optimization_level_set_get "Fastest" (Some "Debug")) as (_ & _ & Hkeep & _).
  split; [apply Hget; reflexivity | apply Hkeep; discriminate].
Defined.

(** ** The platform and the Windows conventions *)

(** X7.  Whenever the target counts as Windows for the renaming of line 68, the
    [if]/[elif] chain of lines 36 to 43 has bound [platform]: the script
    does not stop with a [NameError] there.  The chain tests [linux] first:
    a target string that names [linux] gets the Linux flags whatever else
    it names and whatever the host, so a target naming both [linux] and
    [windows] is built with the Linux flags and the Windows file names;
    without [linux] and [macos] in the target, a Windows target gets
    [windows.flags]. *)
Theorem platform_of_windows_target (h : host) (pf : build.platforms) (a : build.args) :
  (build.is_target_windows h a = true -> build.select_platform h pf a ≠ None) /\
  (Py.contains "linux" (build.target a) = true ->
     build.select_platform h pf a = Some (build.linux_flags pf)) /\
  (build.is_target_windows h a = true ->
   Py.contains "linux" (build.target a) = false ->
   Py.contains "macos" (build.target a) = false ->
   build.select_platform h pf a = Some windows.flags).
Proof.
  unfold build.is_target_windows, build.select_platform.
  split; [| split].
  - intros Hwin. repeat case_match; done.
  - intros ->. reflexivity.
  - intros Hwin -> ->. cbn [orb]. rewrite Hwin.
    destruct (bool_decide (build.target a = "native")) eqn:Hn; cbn [andb]; [| reflexivity].
    destruct (bool_decide (os_name h = "posix")) eqn:Hp; cbn [andb]; [| reflexivity].
    exfalso. apply bool_decide_eq_true in Hn, Hp. rewrite Hn, Hp in Hwin.
    vm_compute in Hwin. discriminate.
Qed.

Lemma platform_of_windows_target_witness :
  build.select_platform exits_zero_late no_platforms
    (build.Args "build" "src" "x86_64-windows-gnu" "release" "game")
  = Some windows.flags /\
  build.is_target_windows exits_zero_late
    (build.Args "build" "src" "x86_64-linux-windows" "release" "game") = true /\
  build.select_platform exits_zero_late no_platforms
    (build.Args "build" "src" "x86_64-linux-windows" "release" "game")
  = Some (build.linux_flags no_platforms).
Proof.
  split; [| split].
  - apply (platform_of_windows_target exits_zero_late no_platforms
             (build.Args "build" "src" "x86_64-windows-gnu" "release" "game")); reflexivity.
  - reflexivity.
  - apply (platform_of_windows_target exits_zero_late no_platforms
             (build.Args "build" "src" "x86_64-linux-windows" "release" "game")); reflexivity.
Defined.

Lemma startswith_dot_o c s :
  Py.startswith (String c s) ".o" = false ->
  Py.startswith (String c (s +:+ ".o")) ".o" = false.
Proof.
  cbn [Py.startswith]. destruct (decide ("."%char = c)) as [<- |]; [| reflexivity].
  destruct s as [| d s]; [intros _; reflexivity |].
  rewrite append_cons. cbn [Py.startswith]. auto.
Qed.

Lemma replace_without_dot_o s :
  Py.contains ".o" s = false -> Py.replace s ".o" ".obj" = s.
Proof.
  unfold Py.replace. induction s as [| c s IH]; [reflexivity |].
  cbn [Py.contains]. intros [Hhere Hrest]%orb_false_elim.
  cbn [Py.replace_from]. rewrite Hhere, IH by exact Hrest. reflexivity.
Qed.

Lemma replace_extension stem :
  Py.contains ".o" stem = false -> Py.replace (stem +:+ ".o") ".o" ".obj" = stem +:+ ".obj".
Proof.
  unfold Py.replace. induction stem as [| c s IH]; [reflexivity |].
  cbn [Py.contains]. intros [Hhere Hrest]%orb_false_elim.
  rewrite !append_cons. cbn [Py.replace_from].
  rewrite (startswith_dot_o c s Hhere), IH by exact Hrest. reflexivity.
Qed.

(** X8.  The Windows renaming rewrites the extension alone on the paths that
    hold [.o] nowhere else: an object path whose only [.o] is its
    extension gets [.obj] in its place and is otherwise unchanged, a path
    without any [.o] stays as it is, and the list keeps its length and its
    order. *)
Theorem rename_windows_on_plain_paths (stems others : list string) :
  Forall (fun p => Py.contains ".o" p = false) stems ->
  Forall (fun p => Py.contains ".o" p = false) others ->
  build.rename_windows (map (fun stem => stem +:+ ".o") stems ++ others)
  = map (fun stem => stem +:+ ".obj") stems ++ others.
Proof.
  intros Hstems Hothers. unfold build.rename_windows. rewrite map_app. f_equal.
  - induction Hstems as [| stem stems Hstem _ IH]; [reflexivity |].
    cbn [map]. rewrite replace_extension by exact Hstem. f_equal. exact IH.
  - induction Hothers as [| p others Hp _ IH]; [reflexivity |].
    cbn [map]. rewrite replace_without_dot_o by exact Hp. f_equal. exact IH.
Qed.

Lemma rename_windows_on_plain_paths_witness :
  build.rename_windows ["build/main.o"; "build/ui/menu.o"; "vendor/sdl.lib"]
  = ["build/main.obj"; "build/ui/menu.obj"; "vendor/sdl.lib"].
Proof.
  apply (rename_windows_on_plain_paths ["build/main"; "build/ui/menu"] ["vendor/sdl.lib"]);
    repeat constructor.
Defined.

(** ** The loop without tasks *)

Lemma steps_no_tasks h w l :
  build.steps h (build.start h [] w) l ->
  l = build.start h [] w \/
  l = {| build.sem := cpu_count h; build.tasks := []; build.ph := build.Closed (Ok []);
         build.lw := w |}.
Proof.
  intros Hsteps. remember (build.start h [] w) as l0 eqn:Hl0.
  induction Hsteps as [| l1 l2 l3 _ IH [a Hfire]]; [by left |].
  destruct (IH Hl0) as [-> | ->]; subst;
    destruct a as [i | i | | | i |]; cbn in Hfire; rewrite ?lookup_nil in Hfire;
    try discriminate.
  right. by simplify_eq.
Qed.

(** X9.  With no source file at all [compile_sources] returns the empty list,
    and nothing else: no permit is taken, nothing is launched, printed or
    created. *)
Theorem compile_sources_of_nothing
    (h : host) (a : build.args) (opt : list string) (w : world)
    (out : result (list string) * world) :
  build.compile_sources h a [] [] [] opt w out <-> out = (Ok [], w).
Proof.
  split.
  - intros Hrun. inversion Hrun as [e w' Htasks | bodies w' l r Htasks Hsteps Hclosed]; subst.
    + discriminate.
    + cbn in Htasks. unfold ret in Htasks. simplify_eq.
      destruct (steps_no_tasks _ _ _ Hsteps) as [-> | ->]; cbn in Hclosed; [discriminate |].
      by simplify_eq.
  - intros ->.
    apply (build.cs_loop h a [] [] [] opt w [] w
             {| build.sem := cpu_count h; build.tasks := []; build.ph := build.Closed (Ok []);
                build.lw := w |} (Ok [])); [reflexivity | | reflexivity].
    apply (steps_first h build.GatherResult (build.start h [] w)
             {| build.sem := cpu_count h; build.tasks := []; build.ph := build.Closed (Ok []);
                build.lw := w |}); [reflexivity | constructor].
Qed.

Lemma compile_sources_of_nothing_witness :
  build.compile_sources exits_zero_late default_args [] [] [] ["-O"; "Debug"] (World ∅ [])
    (Ok [], World ∅ []).
Proof.
  apply (compile_sources_of_nothing exits_zero_late default_args ["-O"; "Debug"] (World ∅ [])).
  reflexivity.
Defined.

(** ** Directories *)


Lemma join_split s : Py.join "/" (Py.split "/" s) = s.
Proof.
  induction s as [| c s IH]; [reflexivity |]. cbn [Py.split].
  pose proof (split_not_nil "/" s) as Hne.
  destruct (Py.split "/" s) as [| x xs]; [done |].
  destruct (decide (c = "/"%char)) as [-> | Hc].
  - rewrite join_cons2, IH. reflexivity.
  - destruct xs as [| y ys].
    + cbn [Py.join] in *. by rewrite IH.
    + rewrite join_cons2 in *. rewrite append_cons, IH. reflexivity.
Qed.









(** ** Files below the source root *)

Lemma plain_clean c : plain c -> clean c.
Proof. intros (H0 & _ & _ & Hs). split; assumption. Qed.

Lemma plain_head c : plain c -> exists a r, c = String a r /\ a ≠ "/"%char.
Proof.
  intros (H0 & _ & _ & Hs). destruct c as [| a r]; [done |]. exists a, r. split; [reflexivity |].
  cbn in Hs. apply andb_prop in Hs as [Ha _]. by apply negb_true_iff, bool_decide_eq_false in Ha.
Qed.

Lemma join_plain_head S :
  S ≠ [] -> Forall plain S -> exists a r, Py.join "/" S = String a r /\ a ≠ "/"%char.
Proof.
  destruct S as [| c S]; [done |]. intros _ Hall.
  inversion Hall as [| ? ? Hc _]; subst. destruct (plain_head c Hc) as (a & r & -> & Ha).
  destruct S; [by exists a, r |]. rewrite join_cons2, append_cons. eauto.
Qed.

Lemma initial_slashes_same pre a y y' :
  a ≠ "/"%char ->
  posixpath.initial_slashes (pre +:+ String a y) = posixpath.initial_slashes (pre +:+ String a y').
Proof.
  intros Ha. unfold posixpath.initial_slashes.
  destruct pre as [| c1 [| c2 [| c3 pre]]]; rewrite ?append_cons, ?append_nil_l;
    cbn [Py.startswith]; repeat (case_decide; try congruence); reflexivity.
Qed.

Lemma foldl_norm_push n X S :
  Forall plain S -> foldl (posixpath.norm_step n) X S = X ++ S.
Proof.
  intros Hall. revert X. induction Hall as [| c S (H0 & H1 & H2 & _) _ IH]; intros X;
    cbn [foldl]; [by rewrite app_nil_r |].
  rewrite norm_step_push, IH, <- app_assoc by assumption. reflexivity.
Qed.

Lemma endswith_char_app x b c :
  b ≠ "" -> Py.endswith_char (x +:+ b) c = Py.endswith_char b c.
Proof.
  intros Hb. induction x as [| d x IH]; [reflexivity |].
  rewrite append_cons. cbn [Py.endswith_char]. rewrite IH.
  destruct (x +:+ b) eqn:Hx; [| reflexivity].
  apply append_eq_nil in Hx. done.
Qed.

Lemma slash_free_no_trailing b : slash_free b = true -> Py.endswith_char b "/" = false.
Proof.
  induction b as [| c b IH]; [reflexivity |]. cbn [slash_free Py.endswith_char].
  intros [Hc Hb]%andb_prop. destruct b; [| by apply IH].
  by apply negb_true_iff in Hc.
Qed.

Lemma join_one_plain acc b :
  acc ≠ "" -> Py.endswith_char acc "/" = false -> plain b ->
  posixpath.join acc b = acc +:+ "/" +:+ b.
Proof.
  intros Hacc Hend Hb. destruct (plain_head b Hb) as (a & r & -> & Ha).
  unfold posixpath.join. cbn [Py.startswith]. rewrite decide_False by congruence.
  rewrite (bool_decide_eq_false_2 _ Hacc), Hend. reflexivity.
Qed.

Lemma join_all_plain acc cs :
  acc ≠ "" -> Py.endswith_char acc "/" = false -> Forall plain cs ->
  posixpath.join_all acc cs = Py.join "/" (acc :: cs).
Proof.
  intros Hacc Hend Hall. unfold posixpath.join_all. revert acc Hacc Hend.
  induction Hall as [| b cs Hb _ IH]; intros acc Hacc Hend; [reflexivity |].
  cbn [foldl]. rewrite (join_one_plain acc b Hacc Hend Hb).
  pose proof Hb as (Hb0 & _ & _ & Hbs).
  rewrite IH.
  - destruct cs; [reflexivity |]. rewrite !join_cons2, !append_assoc. reflexivity.
  - intros Hnil. apply append_eq_nil, append_eq_nil in Hnil. done.
  - rewrite <- append_assoc, endswith_char_app by exact Hb0.
    apply slash_free_no_trailing, Hbs.
Qed.

(** For a file below the start directory, both given by ordinary relative
    paths, [relpath] returns the path from the one to the other, in every
    working directory. *)
Lemma relpath_under_root cwd root rel :
  ordinary root -> ordinary rel ->
  posixpath.relpath cwd (root +:+ "/" +:+ rel) root = Ok rel.
Proof.
  unfold ordinary. intros HS HR.
  set (S := Py.split "/" root) in *. set (R := Py.split "/" rel) in *.
  assert (S ≠ []) as HSne by apply split_not_nil.
  assert (R ≠ []) as HRne by apply split_not_nil.
  assert (Py.join "/" S = root) as HSj by apply join_split.
  assert (Py.join "/" R = rel) as HRj by apply join_split.
  destruct (join_plain_head S HSne HS) as (a & r & Hroot & Ha). rewrite HSj in Hroot.
  destruct (join_relative cwd) as (pre & Hpre & Hjoin).
  destruct (split_prefixed pre Hpre) as [L HL].
  assert (Py.split "/" (root +:+ "/" +:+ rel) = S ++ R) as Hsplit.
  { change (root +:+ "/" +:+ rel) with (root +:+ String "/" rel). apply split_app_sep. }
  unfold posixpath.relpath, posixpath.abspath, posixpath.isabs.
  assert (Py.startswith root "/" = false) as Hroot0
    by (rewrite Hroot; cbn; by rewrite decide_False by congruence).
  rewrite Hroot0.
  assert (Py.startswith (root +:+ "/" +:+ rel) "/" = false) as Hrel0
    by (rewrite Hroot, append_cons; cbn; by rewrite decide_False by congruence).
  rewrite Hrel0.
  rewrite bool_decide_eq_false_2 by (rewrite Hroot, append_cons; done).
  rewrite !Hjoin by assumption.
  assert (posixpath.initial_slashes (pre +:+ root +:+ "/" +:+ rel)
          = posixpath.initial_slashes (pre +:+ root)) as Hn
    by (rewrite Hroot, append_cons; apply initial_slashes_same, Ha).
  set (n := posixpath.initial_slashes (pre +:+ root)) in *.
  set (X := foldl (posixpath.norm_step n) [] L).
  assert (foldl (posixpath.norm_step n) [] (Py.split "/" (pre +:+ root)) = X ++ S) as Hs.
  { rewrite HL, foldl_app. apply foldl_norm_push, HS. }
  assert (foldl (posixpath.norm_step n) [] (Py.split "/" (pre +:+ root +:+ "/" +:+ rel))
          = (X ++ S) ++ R) as Hp.
  { rewrite HL, Hsplit, foldl_app, foldl_app. fold X.
    rewrite (foldl_norm_push n X S HS), (foldl_norm_push n (X ++ S) R HR). reflexivity. }
  rewrite (normpath_components (pre +:+ root));
    [| apply prefixed_not_empty; rewrite Hroot; done
     | fold n; rewrite Hs; intros [_ Hnil]%app_eq_nil; done].
  rewrite (normpath_components (pre +:+ root +:+ "/" +:+ rel));
    [| apply prefixed_not_empty; rewrite Hroot, append_cons; done
     | rewrite Hn, Hp; intros [[_ Hnil]%app_eq_nil _]%app_eq_nil; done].
  fold n. rewrite Hn, Hs, Hp, commonprefix_self_app, Nat.sub_diag, drop_app_length.
  cbn [replicate app]. destruct R as [| c cs]; [done |].
  apply Forall_cons in HR as [Hc Hcs].
  rewrite join_all_plain, HRj; [reflexivity | apply Hc | | exact Hcs].
  apply slash_free_no_trailing, Hc.
Qed.

Lemma replace_absent old new s :
  old ≠ "" -> Py.contains old s = false -> Py.replace s old new = s.
Proof.
  intros Hold. unfold Py.replace. induction s as [| c s IH].
  - intros _. cbn. destruct old; done.
  - cbn [Py.contains]. intros [Hhere Hrest]%orb_false_elim.
    cbn [Py.replace_from]. rewrite Hhere, IH by exact Hrest. reflexivity.
Qed.

Lemma rpartition_none sep s :
  Py.contains (String sep "") s = false -> Py.rpartition sep s = None.
Proof.
  induction s as [| c s IH]; [reflexivity |].
  cbn [Py.contains Py.startswith]. intros [Hhere Hrest]%orb_false_elim.
  cbn [Py.rpartition]. rewrite IH by exact Hrest.
  destruct (decide (sep = c)) as [-> |]; [discriminate |].
  rewrite decide_False by congruence. reflexivity.
Qed.

(** Splitting at the last separator undoes appending an extension. *)
Lemma rpartition_last sep p ext :
  Py.contains (String sep "") ext = false ->
  Py.rpartition sep (p +:+ String sep ext) = Some (p, ext).
Proof.
  intros Hext. induction p as [| c p IH].
  - rewrite append_nil_l. cbn [Py.rpartition]. rewrite (rpartition_none sep ext Hext).
    rewrite decide_True by reflexivity. reflexivity.
  - rewrite append_cons. cbn [Py.rpartition]. rewrite IH. reflexivity.
Qed.

Lemma rpartition_some sep x y : Py.rpartition sep (x +:+ String sep y) ≠ None.
Proof.
  induction x as [| c x IH].
  - rewrite append_nil_l. cbn [Py.rpartition].
    destruct (Py.rpartition sep y) as [[] |]; [done |].
    rewrite decide_True by reflexivity. done.
  - rewrite append_cons. cbn [Py.rpartition].
    destruct (Py.rpartition sep (x +:+ String sep y)) as [[] |]; done.
Qed.

Lemma dirname_not_empty x y : posixpath.dirname (x +:+ String "/" y) ≠ "".
Proof.
  unfold posixpath.dirname. pose proof (rpartition_some "/" x y) as Hsome.
  destruct (Py.rpartition "/" (x +:+ String "/" y)) as [[hd tl] |]; [| done].
  destruct (Py.rstrip_char "/" (hd +:+ "/")) eqn:Hstrip; [| done].
  intros Hnil. apply append_eq_nil in Hnil. discriminate.
Qed.

Lemma dirname_join_not_empty b x :
  b ≠ "" -> Py.startswith x "/" = false -> posixpath.dirname (posixpath.join b x) ≠ "".
Proof.
  intros Hb Hx. unfold posixpath.join. rewrite Hx, (bool_decide_eq_false_2 _ Hb). cbn [orb].
  destruct (Py.endswith_char b "/") eqn:Hend.
  - apply endswith_char_split in Hend as [p ->]. rewrite append_assoc.
    change ("/" +:+ x) with (String "/" x). apply dirname_not_empty.
  - change (b +:+ "/" +:+ x) with (b +:+ String "/" x). apply dirname_not_empty.
Qed.

Lemma ordinary_head rel : ordinary rel -> Py.startswith rel "/" = false.
Proof.
  intros Hrel. destruct (join_plain_head _ (split_not_nil "/" rel) Hrel) as (a & r & Hj & Ha).
  rewrite join_split in Hj. rewrite Hj. cbn. by rewrite decide_False by congruence.
Qed.

Lemma stem_head stem ext :
  Py.startswith (stem +:+ "." +:+ ext) "/" = false ->
  Py.startswith stem "/" = false /\ Py.startswith (stem +:+ ".o") "/" = false.
Proof.
  destruct stem as [| c stem]; rewrite ?append_cons, ?append_nil_l; [done |].
  cbn [Py.startswith]. case_decide; done.
Qed.

Lemma translate_paths_under_root
    (cwd source_dir stem ext build_dir : string) (w : world) :
  ordinary source_dir ->
  ordinary (stem +:+ "." +:+ ext) ->
  Py.contains "." ext = false ->
  Py.contains "\" (stem +:+ "." +:+ ext) = false ->
  build_dir ≠ "" ->
  let file_path := source_dir +:+ "/" +:+ stem +:+ "." +:+ ext in
  let object := posixpath.join build_dir (stem +:+ ".o") in
  let raw := posixpath.join build_dir stem in
  utils.translate_to_build_path cwd file_path source_dir build_dir w
  = (Ok object,
     {| dirs := dirs w ∪ list_to_set (os.ancestors (posixpath.dirname object));
        log := log w |}) /\
  utils.translate_to_build_path_zig cwd file_path source_dir build_dir w
  = (Ok raw,
     {| dirs := dirs w ∪ list_to_set (os.ancestors (posixpath.dirname raw));
        log := log w |}).
Proof.
  intros Hroot Hrel Hext Hback Hbuild file_path object raw.
  pose proof (relpath_under_root cwd source_dir _ Hroot Hrel) as Hrp.
  destruct (stem_head stem ext (ordinary_head _ Hrel)) as [Hraw Hobj].
  assert (Py.item0 (Py.rsplit1 "." (Py.replace (stem +:+ "." +:+ ext) "\" "/")) = stem) as Hstem.
  { rewrite (replace_absent "\" "/" _ ltac:(done) Hback). unfold Py.rsplit1.
    change (stem +:+ "." +:+ ext) with (stem +:+ String "." ext).
    rewrite (rpartition_last "." stem ext Hext). reflexivity. }
  unfold utils.translate_to_build_path, utils.translate_to_build_path_zig, bind, utils.lift, ret.
  subst file_path. rewrite Hrp, Hstem. fold object. fold raw.
  rewrite !makedirs_exist_ok by (apply dirname_join_not_empty; assumption).
  split; reflexivity.
Qed.

(** X11.  The object path of a source file below the source root.  Source root
    and relative path are ordinary relative paths, the relative path is
    [stem.ext] with no dot in [ext] and no backslash in it, and the build
    root is not empty: then, in every working directory and whatever
    directories exist, [translate_to_build_path] returns the build root
    joined with [stem.o] and [translate_to_build_path_zig] the build root
    joined with [stem]; each makes the directory of its path and those above
    it, and logs nothing. *)
Theorem translate_under_root
    (cwd source_dir stem ext build_dir : string) (w : world) :
  ordinary source_dir ->
  ordinary (stem +:+ "." +:+ ext) ->
  Py.contains "." ext = false ->
  Py.contains "\" (stem +:+ "." +:+ ext) = false ->
  build_dir ≠ "" ->
  let file_path := source_dir +:+ "/" +:+ stem +:+ "." +:+ ext in
  let object := posixpath.join build_dir (stem +:+ ".o") in
  let raw := posixpath.join build_dir stem in
  utils.translate_to_build_path cwd file_path source_dir build_dir w
  = (Ok object,
     {| dirs := dirs w ∪ list_to_set (os.ancestors (posixpath.dirname object));
        log := log w |}) /\
  utils.translate_to_build_path_zig cwd file_path source_dir build_dir w
  = (Ok raw,
     {| dirs := dirs w ∪ list_to_set (os.ancestors (posixpath.dirname raw));
        log := log w |}).
Proof. apply translate_paths_under_root. Qed.

Lemma translate_under_root_witness :
  (utils.translate_to_build_path "/home/dev/game" "game/src/ui/menu.old.cpp" "game/src" "out/obj"
     (World ∅ [])).1 = Ok "out/obj/ui/menu.old.o" /\
  (utils.translate_to_build_path_zig "/home/dev/game" "game/src/ui/menu.old.cpp" "game/src"
     "out/obj" (World ∅ [])).1 = Ok "out/obj/ui/menu.old".
Proof.
  destruct (translate_under_root "/home/dev/game" "game/src" "ui/menu.old" "cpp" "out/obj"
              (World ∅ [])) as [Hc Hz];
    [repeat constructor; done | repeat constructor; done | reflexivity | reflexivity | done |].
  split; [exact (f_equal fst Hc) | exact (f_equal fst Hz)].
Defined.

Lemma join_append_o b x : posixpath.join b (x +:+ ".o") = posixpath.join b x +:+ ".o".
Proof.
  unfold posixpath.join.
  assert (Py.startswith (x +:+ ".o") "/" = Py.startswith x "/") as ->
    by (destruct x; reflexivity).
  destruct (Py.startswith x "/"); [reflexivity |].
  destruct (bool_decide (b = "") || Py.endswith_char b "/"); rewrite !append_assoc; reflexivity.
Qed.

Lemma rpartition_append sep p t :
  Py.contains (String sep "") t = false ->
  Py.rpartition sep (p +:+ t)
  = match Py.rpartition sep p with
    | Some (hd, tl) => Some (hd, tl +:+ t)
    | None => None
    end.
Proof.
  intros Ht. induction p as [| c p IH].
  - rewrite append_nil_l. cbn [Py.rpartition]. apply rpartition_none, Ht.
  - rewrite append_cons. cbn [Py.rpartition]. rewrite IH.
    destruct (Py.rpartition sep p) as [[hd tl] |]; [reflexivity |].
    destruct (decide (c = sep)); reflexivity.
Qed.

Lemma dirname_append_o p : posixpath.dirname (p +:+ ".o") = posixpath.dirname p.
Proof.
  unfold posixpath.dirname. rewrite (rpartition_append "/" p ".o" eq_refl).
  destruct (Py.rpartition "/" p) as [[hd tl] |]; reflexivity.
Qed.

(** X12.  On every input and in every world, [translate_to_build_path] does what
    [translate_to_build_path_zig] does and appends [.o] to the path: they
    fail together with the same exception, and make the same directories. *)
Theorem translate_is_zig_translate_plus_o
    (cwd file_path source_dir build_dir : string) (w : world) :
  utils.translate_to_build_path cwd file_path source_dir build_dir w
  = (match (utils.translate_to_build_path_zig cwd file_path source_dir build_dir w).1 with
     | Ok path => Ok (path +:+ ".o")
     | Err e => Err e
     end,
     (utils.translate_to_build_path_zig cwd file_path source_dir build_dir w).2).
Proof.
  unfold utils.translate_to_build_path, utils.translate_to_build_path_zig, bind, utils.lift, ret.
  destruct (posixpath.relpath cwd file_path source_dir) as [rel | e]; [| reflexivity].
  rewrite join_append_o, dirname_append_o.
  destruct (os.makedirs _ true w) as [[[] | e] w']; reflexivity.
Qed.






(** ** The objects of a build, by stem *)

Lemma object_of_source cwd root build file stem out :
  ordinary root -> build ≠ "" -> source_of root file stem ->
  (returns (utils.translate_to_build_path cwd file root build) out ->
   out = posixpath.join build (stem +:+ ".o")) /\
  (returns (utils.translate_to_build_path_zig cwd file root build) out ->
   out +:+ ".o" = posixpath.join build (stem +:+ ".o")).
Proof.
  intros Hroot Hbuild (ext & -> & Hrel & Hext & Hback).
  split; intros (w1 & w2 & Hrun);
    destruct (translate_paths_under_root cwd root stem ext build w1 Hroot Hrel Hext Hback Hbuild)
      as [Hc Hz].
  - rewrite Hc in Hrun. by injection Hrun as <- _.
  - rewrite Hz in Hrun. injection Hrun as <- _. by rewrite join_append_o.
Qed.

Lemma values_by_stem (P : string -> job -> Prop) root build files stems js :
  (forall file stem j, source_of root file stem -> P file j ->
                       j_value j = posixpath.join build (stem +:+ ".o")) ->
  Forall2 (source_of root) files stems ->
  Forall2 P files js ->
  map j_value js = map (fun stem => posixpath.join build (stem +:+ ".o")) stems.
Proof.
  intros HP Hstems. revert js.
  induction Hstems as [| file stem files stems Hs _ IH]; intros js Hjs;
    inversion Hjs as [| ? j ? js' Hj Hjs']; subst; [reflexivity |].
  cbn [map]. f_equal; [eapply HP; eassumption | apply IH, Hjs'].
Qed.

(** X14.  The list [compile_sources] returns is fixed by the stems of the source
    files.  When every file is [source_dir/stem.ext] (an ordinary path, no
    dot in [ext]), the list holds [build_dir/stem.o] for each Zig file, then
    for each C file, then for each C++ file: the extension and the kind of
    the file leave no trace, so two files that differ only in their
    extension give the same object path, and the list holds it twice. *)
Theorem objects_named_by_stems
    (h : host) (a : build.args) (zig_files c_files cpp_files opt : list string)
    (zig_stems c_stems cpp_stems : list string) (w w' : world) (objs : list string) :
  ordinary (build.source_dir a) ->
  build.build_dir a ≠ "" ->
  Forall2 (source_of (build.source_dir a)) zig_files zig_stems ->
  Forall2 (source_of (build.source_dir a)) c_files c_stems ->
  Forall2 (source_of (build.source_dir a)) cpp_files cpp_stems ->
  build.compile_sources h a zig_files c_files cpp_files opt w (Ok objs, w') ->
  objs = map (fun stem => posixpath.join (build.build_dir a) (stem +:+ ".o"))
             (zig_stems ++ c_stems ++ cpp_stems).
Proof.
  intros Hroot Hbuild Hzs Hcs Hps Hrun.
  inversion Hrun as [| bodies w1 l r Htasks Hsteps Hclosed]; subst.
  destruct (compile_loop_Inv _ _ _ _ _ _ _ _ _ _ Htasks Hsteps) as (jobs & Hjobs & HI).
  pose proof (Inv_results _ _ _ _ _ HI Hclosed) as ->.
  destruct Hjobs as (zs & cs & ps & -> & Hz & Hc & Hp).
  rewrite !map_app. f_equal; [| f_equal].
  - eapply values_by_stem; [| exact Hzs | exact Hz].
    intros file stem j Hs (out & Hout & ->). cbn [j_value zig_job].
    eapply object_of_source; eassumption.
  - eapply values_by_stem; [| exact Hcs | exact Hc].
    intros file stem j Hs (out & Hout & ->). cbn [j_value c_job].
    eapply object_of_source; eassumption.
  - eapply values_by_stem; [| exact Hps | exact Hp].
    intros file stem j Hs (out & Hout & ->). cbn [j_value cpp_job].
    eapply object_of_source; eassumption.
Qed.

Lemma objects_named_by_stems_witness :
  exists w',
    build.compile_sources quick_compilers default_args
      ["src/main.zig"] ["src/main.c"; "src/net/io.c"] ["src/net/io.cpp"] ["-O"; "Debug"]
      (World ∅ [])
      (Ok ["build/main.o"; "build/main.o"; "build/net/io.o"; "build/net/io.o"], w').
Proof.
  set_up_run quick_compilers default_args ["src/main.zig"] ["src/main.c"; "src/net/io.c"]
    ["src/net/io.cpp"] ["-O"; "Debug"] (World ∅ []) out_of_order.
  destruct (build.ph l) as [| | | [objs | e]] eqn:Hph;
    try (exfalso; clear - Htasks Hplay Hph; evaluate_run Htasks Hplay; discriminate).
  assert (build.compile_sources quick_compilers default_args
            ["src/main.zig"] ["src/main.c"; "src/net/io.c"] ["src/net/io.cpp"] ["-O"; "Debug"]
            (World ∅ []) (Ok objs, build.lw l)) as Hrun.
  { eapply build.cs_loop; [exact Htasks | exact (play_steps _ _ _ _ Hplay) | exact Hph]. }
  exists (build.lw l).
  assert (objs = ["build/main.o"; "build/main.o"; "build/net/io.o"; "build/net/io.o"]) as <-;
    [| exact Hrun].
  apply (objects_named_by_stems quick_compilers default_args
           ["src/main.zig"] ["src/main.c"; "src/net/io.c"] ["src/net/io.cpp"] ["-O"; "Debug"]
           ["main"] ["main"; "net/io"] ["net/io"] (World ∅ []) (build.lw l) objs).
  - repeat constructor; done.
  - done.
  - repeat constructor. exists "zig". repeat split; try reflexivity. repeat constructor; done.
  - repeat constructor.
    + exists "c". repeat split; try reflexivity. repeat constructor; done.
    + exists "c". repeat split; try reflexivity. repeat constructor; done.
  - repeat constructor. exists "cpp". repeat split; try reflexivity. repeat constructor; done.
  - exact Hrun.
Defined.

(** ** The configuration, path by path *)





(** ** The compile tasks without an output path *)

(** X17.  Called without an output path, a compile task takes it from
    [translate_to_build_path] with the roots [src] and [build], whatever
    the roots of the command line.  For [src/stem.ext] the C and C++ tasks
    compile to [build/stem.o] and return it; the Zig task hands the same
    [build/stem.o] to the compiler and returns [build/stem.o.o]. *)
Theorem default_output_paths
    (h : host) (who : actor) (stem ext : string) (option : list string) (w : world) :
  ordinary (stem +:+ "." +:+ ext) ->
  Py.contains "." ext = false ->
  Py.contains "\" (stem +:+ "." +:+ ext) = false ->
  let file_path := "src/" +:+ stem +:+ "." +:+ ext in
  let object := posixpath.join "build" (stem +:+ ".o") in
  let c_cmd := zig_utils.c_compiler ++ option ++ [file_path; "-o"; object] in
  let zig_cmd := zig_utils.zig_compiler ++ option ++ [file_path; "-femit-bin=" +:+ object] in
  (found (run h c_cmd) = true -> reaped_at_spawn (run h c_cmd) = true ->
   exit_code (run h c_cmd) = 0%Z ->
   (run_alone h who (zig_utils.compile_c_source_async h file_path None option) w).1
   = Ok object) /\
  (found (run h zig_cmd) = true -> exit_code (run h zig_cmd) = 0%Z ->
   (run_alone h who (zig_utils.compile_zig_source_async h file_path None option) w).1
   = Ok (object +:+ ".o")).
Proof.
  intros Hrel Hext Hback file_path object c_cmd zig_cmd.
  destruct (translate_paths_under_root (getcwd h) "src" stem ext "build" w
              ltac:(repeat constructor; done) Hrel Hext Hback ltac:(done)) as [Hc _].
  change ("src" +:+ "/" +:+ stem +:+ "." +:+ ext) with file_path in Hc. fold object in Hc.
  split.
  - intros Hf Hr Hz.
    unfold zig_utils.compile_c_source_async, zig_utils.compile_source_c_cpp_async,
      zig_utils.or_default.
    cbn [run_alone]. rewrite Hc. fold c_cmd. cbn [run_alone]. rewrite Hf.
    cbn [wake run_alone]. rewrite Hr. unfold zig_utils.returncode_nonzero. cbn [returncode].
    rewrite Hz. reflexivity.
  - intros Hf Hz.
    unfold zig_utils.compile_zig_source_async, zig_utils.or_default.
    cbn [run_alone]. rewrite Hc. fold zig_cmd. cbn [run_alone]. rewrite Hf.
    cbn [wake run_alone p_cmd p_piped]. rewrite returncode_nonzero_Some.
    rewrite (bool_decide_eq_false_2 _ (fun H => H Hz)). reflexivity.
Qed.

Lemma default_output_paths_witness :
  (run_alone quick_compilers Main
     (zig_utils.compile_c_source_async quick_compilers "src/ui/menu.c" None ["-O"; "Debug"])
     (World ∅ [])).1 = Ok "build/ui/menu.o" /\
  (run_alone quick_compilers Main
     (zig_utils.compile_zig_source_async quick_compilers "src/main.zig" None ["-O"; "Debug"])
     (World ∅ [])).1 = Ok "build/main.o.o".
Proof.
  split.
  - destruct (default_output_paths quick_compilers Main "ui/menu" "c" ["-O"; "Debug"]
                (World ∅ [])) as [Hc _];
      [repeat constructor; done | reflexivity | reflexivity |].
    apply Hc; reflexivity.
  - destruct (default_output_paths quick_compilers Main "main" "zig" ["-O"; "Debug"]
                (World ∅ [])) as [_ Hz];
      [repeat constructor; done | reflexivity | reflexivity |].
    apply Hz; reflexivity.
Defined.

(** ** The script as a whole *)

Lemma link_executable_returns h object_files output_executable option w v w' :
  zig_utils.link_executable h object_files output_executable option w = (Ok v, w') ->
  let cmd := zig_utils.link_command object_files output_executable option in
  v = output_executable /\
  found (run h cmd) = true /\
  exit_code (run h cmd) = 0%Z /\
  w' = emit Main (Spawn cmd true)
         (emit Main (Print (Py.join " " ["Compile:"; Py.join " + " object_files; "->";
                                         output_executable])) w).
Proof.
  intros Hrun cmd.
  destruct (found (run h cmd)) eqn:Hfound.
  - rewrite (link_executable_run h object_files output_executable option w Hfound) in Hrun.
    fold cmd in Hrun. case_bool_decide as Hz; [| discriminate].
    injection Hrun as <- <-. auto.
  - exfalso. revert Hrun.
    unfold zig_utils.link_executable, zig_utils.link_executable_async.
    fold cmd. cbn [run_alone]. rewrite Hfound. discriminate.
Qed.

(** X18.  The script returns only one way.  When it ends without an exception its
    value is the executable path, [build_dir/output] with [.exe] appended
    for a Windows target; the configuration returned its flags, the loop
    returned the object list, and the last thing done was the launch of the
    linker on these objects (renamed for Windows) with these flags, which
    exited with status 0. *)
Theorem script_returns_the_executable
    (h : host) (pf : build.platforms) (a : build.args) (w w' : world) (v : string) :
  build.script h pf a w (Ok v, w') ->
  let windows := build.is_target_windows h a in
  v = posixpath.join (build.build_dir a) (build.output a) +:+ (if windows then ".exe" else "") /\
  exists opt w1 list_object w2,
    build.configure h pf a w = (Ok opt, w1) /\
    build.compile_sources h a (build.zig_files a) (build.c_files h a) (build.cpp_files h a)
      opt w1 (Ok list_object, w2) /\
    let linked := if windows then build.rename_windows list_object else list_object in
    let cmd := zig_utils.link_command linked v opt in
    found (run h cmd) = true /\
    exit_code (run h cmd) = 0%Z /\
    dirs w' = dirs w2 /\
    log w' = log w2 ++ [(Main, Print (Py.join " " ["Compile:"; Py.join " + " linked; "->"; v]));
                        (Main, Spawn cmd true)].
Proof.
  intros Hrun windows.
  inversion Hrun as [| | opt w1 objs w2 Hcfg Hcs Hlink].
  unfold build.link in Hlink. fold windows in Hlink.
  destruct windows;
    apply link_executable_returns in Hlink as (Hv & Hf & Hz & Hw).
  - split; [exact Hv |].
    exists opt, w1, objs, w2. split; [exact Hcfg |]. split; [exact Hcs |].
    cbn zeta. rewrite Hv, Hw. cbn [emit dirs log]. rewrite <- app_assoc. auto.
  - assert (v = posixpath.join (build.build_dir a) (build.output a) +:+ "") as Hv'.
    { rewrite Hv. clear. induction (posixpath.join _ _) as [| c s IH]; [reflexivity |].
      rewrite append_cons. congruence. }
    split; [exact Hv' |].
    exists opt, w1, objs, w2. split; [exact Hcfg |]. split; [exact Hcs |].
    cbn zeta. rewrite Hv, Hw. cbn [emit dirs log]. rewrite <- app_assoc. auto.
Qed.

Lemma script_returns_the_executable_witness :
  exists w' w2,
    build.script exits_zero_late no_platforms default_args (World ∅ []) (Ok "build/app", w') /\
    length (log w') = length (log w2) + 2.
Proof.
  destruct (build.configure exits_zero_late no_platforms default_args (World ∅ []))
    as [[opt | e] w0] eqn:Hcfg; [| vm_compute in Hcfg; discriminate].
  pose proof Hcfg as Hcfg'. vm_compute in Hcfg. injection Hcfg as <- <-.
  destruct (build.compile_sources_tasks exits_zero_late default_args
              (build.zig_files default_args) (build.c_files exits_zero_late default_args)
              (build.cpp_files exits_zero_late default_args) ["-O"; "Debug"]
              (build.configure exits_zero_late no_platforms default_args (World ∅ [])).2)
    as [[bodies | e] w2] eqn:Htasks; [| vm_compute in Htasks; discriminate].
  destruct (build.play exits_zero_late zig_alone (build.start exits_zero_late bodies w2))
    as [l |] eqn:Hplay;
    [| vm_compute in Htasks; injection Htasks as <- <-; vm_compute in Hplay; discriminate].
  assert (build.ph l = build.Closed (Ok ["build/main.o"]) /\
          fst (build.link exits_zero_late default_args ["build/main.o"] ["-O"; "Debug"]
                 (build.lw l)) = Ok "build/app") as [Hclosed Hlink].
  { clear - Htasks Hplay. evaluate_run Htasks Hplay. split; vm_compute; reflexivity. }
  rewrite Hcfg' in Htasks. cbn [snd] in Htasks.
  destruct (build.link exits_zero_late default_args ["build/main.o"] ["-O"; "Debug"]
              (build.lw l)) as [r w'] eqn:Hout.
  cbn [fst] in Hlink. subst r.
  assert (build.script exits_zero_late no_platforms default_args (World ∅ [])
            (Ok "build/app", w')) as Hrun.
  { rewrite <- Hout. eapply build.script_linked; [exact Hcfg' |].
    eapply build.cs_loop; [exact Htasks | exact (play_steps _ _ _ _ Hplay) | exact Hclosed]. }
  destruct (script_returns_the_executable _ _ _ _ _ _ Hrun)
    as (_ & opt & w1 & objs & w3 & _ & _ & _ & _ & _ & Hlog).
  exists w', w3. split; [exact Hrun |].
  rewrite Hlog, length_app. reflexivity.
Defined.

(** ** The order of the permits *)

Lemma acquirers_app l1 l2 : acquirers (l1 ++ l2) = acquirers l1 ++ acquirers l2.
Proof. apply omap_app. Qed.

Lemma acquirers_quiet i effs :
  Forall (fun e => is_acquire e = false) (quiet effs) ->
  acquirers (map (pair (Task i)) effs) = [].
Proof.
  induction effs as [| e effs IH]; [reflexivity |].
  rewrite (quiet_cons e effs). intros [He Hrest]%Forall_app.
  specialize (IH Hrest). unfold acquirers in *. cbn [map omap].
  destruct e; cbn; try exact IH.
  vm_compute in He. inversion He; discriminate.
Qed.

Lemma added_since_more h jobs w0 l evs n' ts' p' w' :
  Inv h jobs w0 l ->
  log w' = log (build.lw l) ++ evs ->
  added_since w0 {| build.sem := n'; build.tasks := ts'; build.ph := p'; build.lw := w' |}
  = added_since w0 l ++ evs.
Proof.
  intros [Hlog _ _ _ _ _ _ _ _ _] Hlog'. unfold added_since at 1. cbn [build.lw].
  rewrite Hlog', Hlog, <- app_assoc, drop_app_length. reflexivity.
Qed.

(** A task that moves on without taking a permit leaves the order as it is. *)
Lemma order_update h jobs w0 l k i t t' effs n' p' w' :
  Inv h jobs w0 l ->
  in_submission_order w0 l k ->
  build.tasks l !! i = Some t ->
  entered t' = entered t ->
  log w' = log (build.lw l) ++ map (pair (Task i)) effs ->
  Forall (fun e => is_acquire e = false) (quiet effs) ->
  in_submission_order w0
    {| build.sem := n'; build.tasks := <[i := t']> (build.tasks l); build.ph := p';
       build.lw := w' |} k.
Proof.
  intros HI [Hacq Hent] Hi He Hlog Hq. split.
  - rewrite (added_since_more _ _ _ _ _ _ _ _ _ HI Hlog), acquirers_app,
      (acquirers_quiet _ _ Hq), app_nil_r.
    exact Hacq.
  - cbn [build.tasks]. intros j tj Hj. destruct (decide (i = j)) as [<- | Hne].
    + rewrite list_lookup_insert_eq in Hj by (eapply lookup_lt_Some, Hi).
      simplify_eq. rewrite He. apply Hent, Hi.
    + rewrite list_lookup_insert_ne in Hj by exact Hne. apply Hent, Hj.
Qed.

(** The task that is let in is the next one in the order of submission. *)
Lemma order_admit h jobs w0 l k i body t' effs n' p' w' :
  Inv h jobs w0 l ->
  in_submission_order w0 l k ->
  build.tasks l !! i = Some (build.Queued body) ->
  build.accepting (build.ph l) = true ->
  fst <$> list_find (fun t => build.is_queued t = true) (build.tasks l) = Some i ->
  entered t' = true ->
  log w' = log (build.lw l) ++ (Task i, Acquire) :: map (pair (Task i)) effs ->
  Forall (fun e => is_acquire e = false) (quiet effs) ->
  in_submission_order w0
    {| build.sem := n'; build.tasks := <[i := t']> (build.tasks l); build.ph := p';
       build.lw := w' |} (S k).
Proof.
  intros HI [Hacq Hent] Hi Hacc Hfind He Hlog Hq.
  assert (i = k) as ->.
  { pose proof (Hent i _ Hi) as Hik. cbn [entered] in Hik.
    destruct (decide (k < i)) as [Hlt |]; [exfalso | destruct (decide (i < k)); [| lia]].
    2: { destruct Hik as [_ Hik]. specialize (Hik l0). discriminate. }
    destruct (lookup_lt_is_Some_2 (build.tasks l) k) as [tk Hk];
      [apply lookup_lt_Some in Hi; lia |].
    destruct (list_find _ (build.tasks l)) as [[i' ti] |] eqn:Hf; [| discriminate].
    cbn in Hfind. simplify_eq. apply list_find_Some in Hf as (_ & _ & Hbefore).
    specialize (Hbefore k tk Hk Hlt).
    assert (entered tk = true) as Hek.
    { destruct HI as [_ _ _ _ _ _ _ _ _ Hph].
      destruct (build.ph l) as [| e | e | r]; try discriminate; cbn in Hph.
      - pose proof (Forall_lookup_1 _ _ _ _ Hph Hk) as Htk.
        destruct tk as [| | [] |]; cbn in *; done.
      - destruct Hph as [_ Hph]. pose proof (Forall_lookup_1 _ _ _ _ Hph Hk) as Htk.
        destruct tk as [| | [] |]; cbn in *; done. }
    apply (Hent k tk Hk) in Hek. lia. }
  split.
  - rewrite (added_since_more _ _ _ _ _ _ _ _ _ HI Hlog), acquirers_app, Hacq.
    change (acquirers ((Task k, Acquire) :: map (pair (Task k)) effs))
      with (k :: acquirers (map (pair (Task k)) effs)).
    rewrite (acquirers_quiet _ _ Hq), seq_S. reflexivity.
  - cbn [build.tasks]. intros j tj Hj. destruct (decide (k = j)) as [<- | Hne].
    + rewrite list_lookup_insert_eq in Hj by (eapply lookup_lt_Some, Hi).
      simplify_eq. rewrite He. split; [lia | reflexivity].
    + rewrite list_lookup_insert_ne in Hj by exact Hne.
      rewrite (Hent j tj Hj). lia.
Qed.

Lemma order_fire h jobs w0 a l l' k :
  Inv h jobs w0 l -> in_submission_order w0 l k -> build.fire h a l = Some l' ->
  exists k', in_submission_order w0 l' k'.
Proof.
  intros HI Hord Hfire. pose proof HI as [_ _ _ _ Htasks _ _ _ _ Hph].
  destruct a as [i | i | | | i |]; cbn [build.fire] in Hfire.
  - (* Admit *)
    destruct (build.tasks l !! i) as [[body | | |] |] eqn:Hi; try discriminate.
    destruct (build.sem l) as [| n] eqn:Hsem; [discriminate |].
    destruct (build.accepting (build.ph l)) eqn:Hacc; [| discriminate].
    cbn [andb] in Hfire. case_bool_decide as Hfind; [| discriminate]. simplify_eq.
    destruct (Htasks i _ Hi) as (j & Hj & Hshape & Hfp).
    destruct (advance_before h (Task i) _ _ _ body (emit (Task i) Acquire (build.lw l)) Hshape)
      as (effs & Hlog & Hq & _ & _).
    exists (S k).
    destruct (advance h (Task i) body (emit (Task i) Acquire (build.lw l))) as [[r | s] w'];
      cbn [fst snd build.settle] in *.
    + eapply (order_admit h jobs w0 l k i body _ (effs ++ [Release]));
        [exact HI | exact Hord | exact Hi | exact Hacc | exact Hfind | reflexivity | |].
      * cbn [emit log]. rewrite Hlog. cbn [emit log map]. rewrite map_app, <- !app_assoc.
        reflexivity.
      * rewrite quiet_app, Hq. repeat constructor.
    + eapply (order_admit h jobs w0 l k i body _ effs);
        [exact HI | exact Hord | exact Hi | exact Hacc | exact Hfind | reflexivity | |].
      * rewrite Hlog. cbn [emit log map]. rewrite <- !app_assoc. reflexivity.
      * rewrite Hq. repeat constructor.
  - (* Resume *)
    destruct (build.tasks l !! i) as [[| s | |] |] eqn:Hi; try discriminate.
    destruct (build.accepting (build.ph l)) eqn:Hacc; [| discriminate]. simplify_eq.
    destruct (Htasks i _ Hi) as (j & Hj & Hshape & Hfp).
    destruct (advance_after h (Task i) _ (wake h s) (build.lw l) (wake_after h _ s Hshape))
      as (effs & Hlog & Hq & _ & _).
    exists k.
    destruct (advance h (Task i) (wake h s) (build.lw l)) as [[r | s'] w'];
      cbn [fst snd build.settle] in *.
    + eapply (order_update h jobs w0 l k i _ _ (effs ++ [Release]));
        [exact HI | exact Hord | exact Hi | reflexivity | |].
      * cbn [emit log]. rewrite Hlog, map_app, <- !app_assoc. reflexivity.
      * rewrite quiet_app, Hq. repeat constructor.
    + eapply (order_update h jobs w0 l k i _ _ effs);
        [exact HI | exact Hord | exact Hi | reflexivity | exact Hlog |].
      rewrite Hq. constructor.
  - (* GatherResult *)
    destruct (build.ph l); try discriminate.
    destruct (forallb build.is_done_ok (build.tasks l)); [| discriminate].
    simplify_eq. exists k. exact Hord.
  - (* MainRaise *)
    destruct (build.ph l); try discriminate. simplify_eq. exists k. exact Hord.
  - (* Cancel *)
    destruct (build.ph l) as [| | e |] eqn:Hp; try discriminate.
    destruct (build.tasks l !! i) as [[body | s | |] |] eqn:Hi; try discriminate; simplify_eq;
      exists k.
    + eapply (order_update h jobs w0 l k i _ _ []);
        [exact HI | exact Hord | exact Hi | reflexivity | | constructor].
      cbn [map]. rewrite app_nil_r. reflexivity.
    + eapply (order_update h jobs w0 l k i _ _ [Release]);
        [exact HI | exact Hord | exact Hi | reflexivity | reflexivity | repeat constructor].
  - (* Close *)
    destruct (build.ph l); try discriminate.
    destruct (forallb (fun t => negb (build.is_live t)) (build.tasks l)); [| discriminate].
    simplify_eq. exists k. exact Hord.
Qed.

Lemma order_start h bodies w0 : in_submission_order w0 (build.start h bodies w0) 0.
Proof.
  split; [rewrite added_since_start; reflexivity |].
  cbn [build.start build.tasks]. intros i t Hi.
  apply list_lookup_fmap_Some in Hi as (body & -> & _). cbn. split; [discriminate | lia].
Qed.

Lemma order_steps h jobs w0 l l' k :
  Inv h jobs w0 l -> in_submission_order w0 l k -> build.steps h l l' ->
  exists k', in_submission_order w0 l' k'.
Proof.
  intros HI Hord Hsteps. induction Hsteps as [| l1 l2 l3 Hsteps IH [act Hfire]].
  - exists k. exact Hord.
  - destruct (IH HI Hord) as [k2 Hk2].
    eapply order_fire; [eapply Inv_steps; [exact HI | exact Hsteps] | exact Hk2 | exact Hfire].
Qed.

(** X19.  The permits go out in the order of submission.  At every point of every
    run of the loop, the tasks that have taken a permit are the first [k]
    of the list handed to [gather], for some [k], and they took it in that
    order: Zig files first, then C, then C++, each group in the order of its
    list, whatever the order in which the compilers finish. *)
Theorem permits_in_submission_order
    (h : host) (a : build.args) (zig_files c_files cpp_files opt : list string)
    (w w1 : world) (bodies : list (coro string)) (l : build.loop) :
  build.compile_sources_tasks h a zig_files c_files cpp_files opt w = (Ok bodies, w1) ->
  build.steps h (build.start h bodies w1) l ->
  exists k,
    acquirers (added_since w1 l) = seq 0 k /\
    forall i t, build.tasks l !! i = Some t -> (entered t = true <-> i < k).
Proof.
  intros Htasks Hsteps.
  destruct (compile_sources_tasks_jobs _ _ _ _ _ _ _ _ _ Htasks) as (jobs & _ & Hshape).
  pose proof (Inv_start h jobs bodies w1 Hshape) as HI.
  exact (order_steps _ _ _ _ _ 0 HI (order_start h bodies w1) Hsteps).
Qed.

Lemma permits_in_submission_order_witness :
  exists bodies w1 l k,
    build.compile_sources_tasks quick_compilers default_args
      ["src/main.zig"] ["src/a.c"; "src/b.c"] ["src/c.cpp"] ["-O"; "Debug"] (World ∅ [])
    = (Ok bodies, w1) /\
    build.play quick_compilers out_of_order (build.start quick_compilers bodies w1) = Some l /\
    acquirers (added_since w1 l) = seq 0 k /\
    3 < k.
Proof.
  set_up_run quick_compilers default_args ["src/main.zig"] ["src/a.c"; "src/b.c"]
    ["src/c.cpp"] ["-O"; "Debug"] (World ∅ []) out_of_order.
  destruct (permits_in_submission_order _ _ _ _ _ _ _ _ _ _ Htasks (play_steps _ _ _ _ Hplay))
    as (k & Hacq & Htaken).
  exists bodies, w1, l, k. split; [reflexivity |]. split; [exact Hplay |].
  split; [exact Hacq |].
  assert (build.tasks l !! 3 = Some (build.Done (Ok "build/c.o"))) as H3.
  { clear - Htasks Hplay. evaluate_run Htasks Hplay. reflexivity. }
  exact (proj1 (Htaken 3 _ H3) eq_refl).
Defined.

(** ** When every compiler succeeds *)

(** Running a coroutine up to its next [await] and then to its end is
    running it to its end. *)
Lemma advance_run_alone h who (c : coro string) w :
  match advance h who c w with
  | (Finished r, w') => run_alone h who c w = (r, w')
  | (Suspended s, w') => run_alone h who c w = run_alone h who (wake h s) w'
  end.
Proof.
  revert w.
  induction c as [a | e | line k IH | m k IH | cmd piped k IH | p k IH | p s k IH];
    intros w; cbn [advance run_alone].
  - reflexivity.
  - reflexivity.
  - apply IH.
  - destruct (m w) as [[v | e] w']; [apply IH | reflexivity].
  - destruct (found (run h cmd)); reflexivity.
  - reflexivity.
  - destruct (p_piped p); reflexivity.
Qed.

(** What a compile coroutine comes to depends neither on the task that runs
    it nor on the state of the world. *)
Lemma run_alone_after h who v c w :
  after_exec v c -> (run_alone h who c w).1 = outcome h c.
Proof.
  unfold outcome. intros Hc. generalize (World ∅ []). revert w.
  induction Hc as [| e | line k _ IH | p k Hk IH | p s k Hk IH]; intros w w2;
    cbn [run_alone wake].
  - reflexivity.
  - reflexivity.
  - apply IH.
  - apply IH.
  - destruct (p_piped p); [apply IH | reflexivity].
Qed.

Lemma run_alone_before h who cmd piped v c w :
  before_exec cmd piped v c -> (run_alone h who c w).1 = outcome h c.
Proof.
  unfold outcome. intros Hc. generalize (World ∅ []). revert w.
  induction Hc as [line k _ IH | k Hk]; intros w w2; cbn [run_alone wake].
  - apply IH.
  - destruct (found (run h cmd)); [| reflexivity].
    rewrite !(run_alone_after h _ v) by apply Hk. reflexivity.
Qed.

Lemma well_insert h l i t' n' p' w' :
  all_well h l -> task_well h t' ->
  all_well h {| build.sem := n'; build.tasks := <[i := t']> (build.tasks l); build.ph := p';
                build.lw := w' |}.
Proof.
  intros Hwell Ht' j tj Hj. cbn [build.tasks] in Hj.
  destruct (decide (i = j)) as [<- | Hne].
  - apply list_lookup_insert_Some in Hj as [(_ & <- & _) | (Hne & _)]; [exact Ht' | done].
  - rewrite list_lookup_insert_ne in Hj by exact Hne. eapply Hwell, Hj.
Qed.

(** While every task is going to return, no step of the loop changes that. *)
Lemma well_fire h jobs w0 a l l' :
  Inv h jobs w0 l -> all_well h l -> build.fire h a l = Some l' -> all_well h l'.
Proof.
  intros HI Hwell Hfire. pose proof HI as [_ _ _ _ Htasks _ _ _ _ Hph].
  destruct a as [i | i | | | i |]; cbn [build.fire] in Hfire.
  - (* Admit *)
    destruct (build.tasks l !! i) as [[body | | |] |] eqn:Hi; try discriminate.
    destruct (build.sem l) as [| n] eqn:Hsem; [discriminate |].
    destruct (build.accepting (build.ph l)) eqn:Hacc; [| discriminate].
    cbn [andb] in Hfire. case_bool_decide as Hfind; [| discriminate]. simplify_eq.
    destruct (Htasks i _ Hi) as (j & Hj & Hshape & Hfp).
    pose proof (Hwell i _ Hi) as Hbody. cbn [task_well] in Hbody.
    rewrite <- (run_alone_before h (Task i) _ _ _ body (emit (Task i) Acquire (build.lw l))
                  Hshape) in Hbody.
    pose proof (advance_run_alone h (Task i) body (emit (Task i) Acquire (build.lw l))) as Hadv.
    destruct (advance_before h (Task i) _ _ _ body (emit (Task i) Acquire (build.lw l)) Hshape)
      as (effs & _ & _ & _ & Hres).
    destruct (advance h (Task i) body (emit (Task i) Acquire (build.lw l))) as [[r | s] w'];
      cbn [fst snd build.settle] in *; apply well_insert; try exact Hwell; cbn [task_well].
    + rewrite Hadv in Hbody. exact Hbody.
    + destruct Hres as [Hs _].
      rewrite <- (run_alone_after h (Task i) _ (wake h s) w' (wake_after h _ s Hs)).
      rewrite <- Hadv. exact Hbody.
  - (* Resume *)
    destruct (build.tasks l !! i) as [[| s | |] |] eqn:Hi; try discriminate.
    destruct (build.accepting (build.ph l)) eqn:Hacc; [| discriminate]. simplify_eq.
    destruct (Htasks i _ Hi) as (j & Hj & Hshape & Hfp).
    pose proof (Hwell i _ Hi) as Hbody. cbn [task_well] in Hbody.
    rewrite <- (run_alone_after h (Task i) _ (wake h s) (build.lw l) (wake_after h _ s Hshape))
      in Hbody.
    pose proof (advance_run_alone h (Task i) (wake h s) (build.lw l)) as Hadv.
    destruct (advance_after h (Task i) _ (wake h s) (build.lw l) (wake_after h _ s Hshape))
      as (effs & _ & _ & _ & Hres).
    destruct (advance h (Task i) (wake h s) (build.lw l)) as [[r | s'] w'];
      cbn [fst snd build.settle] in *; apply well_insert; try exact Hwell; cbn [task_well].
    + rewrite Hadv in Hbody. exact Hbody.
    + destruct Hres as [Hs _].
      rewrite <- (run_alone_after h (Task i) _ (wake h s') w' (wake_after h _ s' Hs)).
      rewrite <- Hadv. exact Hbody.
  - (* GatherResult *)
    destruct (build.ph l); try discriminate.
    destruct (forallb build.is_done_ok (build.tasks l)); [| discriminate].
    simplify_eq. exact Hwell.
  - (* MainRaise *)
    destruct (build.ph l); try discriminate. simplify_eq. exact Hwell.
  - (* Cancel *)
    destruct (build.ph l) as [| | e |] eqn:Hp; try discriminate.
    exfalso. cbn in Hph. destruct Hph as [k Hk]. apply Hwell in Hk. discriminate.
  - (* Close *)
    destruct (build.ph l); try discriminate.
    destruct (forallb (fun t => negb (build.is_live t)) (build.tasks l)); [| discriminate].
    simplify_eq. exact Hwell.
Qed.

Lemma well_steps h jobs w0 l l' :
  Inv h jobs w0 l -> all_well h l -> build.steps h l l' -> all_well h l'.
Proof.
  intros HI Hwell Hsteps. induction Hsteps as [| l1 l2 l3 Hsteps IH [act Hfire]];
    [exact Hwell |].
  eapply well_fire; [eapply Inv_steps; [exact HI | exact Hsteps] | exact (IH HI Hwell) |].
  exact Hfire.
Qed.

Lemma well_closed h jobs w0 l r :
  Inv h jobs w0 l -> all_well h l -> build.ph l = build.Closed r -> exists objs, r = Ok objs.
Proof.
  intros [_ _ _ _ _ _ _ _ _ Hph] Hwell Hclosed. rewrite Hclosed in Hph.
  destruct r as [objs | e]; [eauto |].
  destruct Hph as [[k Hk] _]. apply Hwell in Hk. discriminate.
Qed.

Lemma zig_body_well h file out opt :
  let cmd := zig_utils.zig_compiler ++ opt ++ [file; "-femit-bin=" +:+ out] in
  found (run h cmd) = true -> exit_code (run h cmd) = 0%Z ->
  outcome h (zig_utils.compile_zig_source_async h file (Some out) opt) = Ok (out +:+ ".o").
Proof.
  intros cmd Hf Hz. unfold outcome, zig_utils.compile_zig_source_async, zig_utils.or_default.
  fold cmd. cbn [run_alone]. rewrite Hf. cbn [wake run_alone p_cmd p_piped].
  rewrite returncode_nonzero_Some, (bool_decide_eq_false_2 _ (fun H => H Hz)). reflexivity.
Qed.

Lemma c_cpp_body_well h file compiler out opt :
  let cmd := compiler ++ opt ++ [file; "-o"; out] in
  found (run h cmd) = true -> reaped_at_spawn (run h cmd) = true ->
  exit_code (run h cmd) = 0%Z ->
  outcome h (zig_utils.compile_source_c_cpp_async h file compiler (Some out) opt) = Ok out.
Proof.
  intros cmd Hf Hr Hz. unfold outcome, zig_utils.compile_source_c_cpp_async, zig_utils.or_default.
  fold cmd. cbn [run_alone]. rewrite Hf. cbn [wake run_alone]. rewrite Hr.
  rewrite returncode_nonzero_Some, Hz. reflexivity.
Qed.

Lemma bodies_well h a zig c cpp opt w bodies w' :
  (forall cmd, Py.item0 cmd = "zig" ->
               found (run h cmd) = true /\ exit_code (run h cmd) = 0%Z) ->
  (c ++ cpp ≠ [] -> forall cmd, Py.item0 cmd = "zig" -> reaped_at_spawn (run h cmd) = true) ->
  build.compile_sources_tasks h a zig c cpp opt w = (Ok bodies, w') ->
  all_well h (build.start h bodies w').
Proof.
  intros Hzig Hreaped. unfold build.compile_sources_tasks, bind, ret. intros H.
  destruct (mapM (build.zig_task h a opt) zig w) as [[zs | e] w1] eqn:Hz; [| discriminate].
  destruct (mapM (build.c_task h a opt) c w1) as [[cs | e] w2] eqn:Hc; [| discriminate].
  destruct (mapM (build.cpp_task h a opt) cpp w2) as [[ps | e] w3] eqn:Hp; [| discriminate].
  simplify_eq.
  apply (mapM_Ok _ (fun file body => is_ok (outcome h body) = true)) in Hz.
  2: { intros x w4 y w5 Hx. unfold build.zig_task, bind, ret in Hx.
       destruct (utils.translate_to_build_path_zig _ _ _ _ w4) as [[out | e] w6];
         simplify_eq.
       change (is_ok (outcome h (zig_utils.compile_zig_source_async h x (Some out) opt))
               = true).
       rewrite zig_body_well; [reflexivity | apply Hzig; reflexivity..]. }
  apply (mapM_Ok _ (fun file body => c ++ cpp ≠ [] -> is_ok (outcome h body) = true)) in Hc.
  2: { intros x w4 y w5 Hx Hne. unfold build.c_task, bind, ret in Hx.
       destruct (utils.translate_to_build_path _ _ _ _ w4) as [[out | e] w6];
         simplify_eq.
       change (is_ok (outcome h (zig_utils.compile_source_c_cpp_async h x
                                   zig_utils.c_compiler (Some out) opt)) = true).
       rewrite c_cpp_body_well;
         [reflexivity | apply Hzig; reflexivity | apply (Hreaped Hne); reflexivity
         | apply Hzig; reflexivity]. }
  apply (mapM_Ok _ (fun file body => c ++ cpp ≠ [] -> is_ok (outcome h body) = true)) in Hp.
  2: { intros x w4 y w5 Hx Hne. unfold build.cpp_task, bind, ret in Hx.
       destruct (utils.translate_to_build_path _ _ _ _ w4) as [[out | e] w6];
         simplify_eq.
       change (is_ok (outcome h (zig_utils.compile_source_c_cpp_async h x
                                   zig_utils.cxx_compiler (Some out) opt)) = true).
       rewrite c_cpp_body_well;
         [reflexivity | apply Hzig; reflexivity | apply (Hreaped Hne); reflexivity
         | apply Hzig; reflexivity]. }
  intros i t Hi. cbn [build.start build.tasks] in Hi.
  apply list_lookup_fmap_Some in Hi as (body & -> & Hbody). cbn [task_well build.limit_thread].
  apply lookup_app_Some in Hbody as [Hbody | [_ Hbody]].
  - destruct (Forall2_lookup_r _ _ _ _ _ Hz Hbody) as (file & _ & Hok). exact Hok.
  - apply lookup_app_Some in Hbody as [Hbody | [_ Hbody]].
    + destruct (Forall2_lookup_r _ _ _ _ _ Hc Hbody) as (file & Hfile & Hok). apply Hok.
      intros [Hnil _]%app_eq_nil. rewrite Hnil in Hfile. discriminate.
    + destruct (Forall2_lookup_r _ _ _ _ _ Hp Hbody) as (file & Hfile & Hok). apply Hok.
      intros [_ Hnil]%app_eq_nil. rewrite Hnil in Hfile. discriminate.
Qed.

(** X20.  When the compilers work, [compile_sources] returns.  On a host where
    every [zig] command is found and exits with status 0 (and, if there is
    a C or C++ file, has already been reaped when its launch returns), the
    only exception [compile_sources] can raise is one of the path
    translation, raised before any task exists; once the tasks exist, no
    schedule makes it raise, and with at least one CPU it does return its
    list. *)
Theorem compile_sources_returns_when_compilers_succeed
    (h : host) (a : build.args) (zig_files c_files cpp_files opt : list string) (w : world) :
  (forall cmd, Py.item0 cmd = "zig" ->
               found (run h cmd) = true /\ exit_code (run h cmd) = 0%Z) ->
  (c_files ++ cpp_files ≠ [] ->
   forall cmd, Py.item0 cmd = "zig" -> reaped_at_spawn (run h cmd) = true) ->
  (forall e w',
     build.compile_sources h a zig_files c_files cpp_files opt w (Err e, w') ->
     build.compile_sources_tasks h a zig_files c_files cpp_files opt w = (Err e, w')) /\
  (forall bodies w1,
     build.compile_sources_tasks h a zig_files c_files cpp_files opt w = (Ok bodies, w1) ->
     1 <= cpu_count h ->
     exists objs w',
       build.compile_sources h a zig_files c_files cpp_files opt w (Ok objs, w')).
Proof.
  intros Hzig Hreaped. split.
  - intros e w' Hrun.
    inversion Hrun as [e' w'' Htasks | bodies w1 l r Htasks Hsteps Hclosed]; subst;
      [exact Htasks | exfalso].
    destruct (compile_loop_Inv _ _ _ _ _ _ _ _ _ _ Htasks (build.steps_refl h _))
      as (jobs & _ & HI).
    pose proof (bodies_well _ _ _ _ _ _ _ _ _ Hzig Hreaped Htasks) as Hwell.
    destruct (well_closed h jobs w1 l _ (Inv_steps _ _ _ _ _ HI Hsteps)
                (well_steps _ _ _ _ _ HI Hwell Hsteps) Hclosed) as [objs [=]].
  - intros bodies w1 Htasks Hcpu.
    destruct (compile_loop_Inv _ _ _ _ _ _ _ _ _ _ Htasks (build.steps_refl h _))
      as (jobs & _ & HI).
    pose proof (bodies_well _ _ _ _ _ _ _ _ _ Hzig Hreaped Htasks) as Hwell.
    destruct (closable _ _ _ _ HI Hcpu) as (l & r & Hsteps & Hclosed).
    destruct (well_closed h jobs w1 l _ (Inv_steps _ _ _ _ _ HI Hsteps)
                (well_steps _ _ _ _ _ HI Hwell Hsteps) Hclosed) as [objs ->].
    exists objs, (build.lw l). eapply build.cs_loop; eassumption.
Qed.

Lemma compile_sources_returns_when_compilers_succeed_witness :
  exists objs w',
    build.compile_sources exits_zero_late default_args ["src/main.zig"; "src/ui/menu.zig"] [] []
      ["-O"; "Debug"] (World ∅ []) (Ok objs, w').
Proof.
  destruct (compile_sources_returns_when_compilers_succeed exits_zero_late default_args
              ["src/main.zig"; "src/ui/menu.zig"] [] [] ["-O"; "Debug"] (World ∅ []))
    as [_ Hreturns].
  - intros cmd _. split; reflexivity.
  - intros Hne. by destruct Hne.
  - destruct (build.compile_sources_tasks exits_zero_late default_args
                ["src/main.zig"; "src/ui/menu.zig"] [] [] ["-O"; "Debug"] (World ∅ []))
      as [[bodies | e] w1] eqn:Htasks; [| vm_compute in Htasks; discriminate].
    apply (Hreturns bodies w1 eq_refl). vm_compute. lia.
Defined.
